(** * electron-localshortcut: window-local keyboard shortcuts with states

    A shallow embedding of [index.js] and the properties of its shortcut
    registry and dispatcher.

    The module keeps a [WeakMap] from a window's [webContents] (or the
    placeholder [ANY_WINDOW]) to an object that maps a state name to an array
    of shortcuts.  Arrays are shared, mutable objects: the key handler built
    by [_onBeforeInput] closes over the array it serves, and so does the
    [removeListener] closure stored on the array.  The embedding therefore
    keeps the arrays in a store and lets the per-window object hold
    references into it.

    Modelling choices.
    - The packages [electron-is-accelerator],
      [keyboardevent-from-electron-accelerator] and [keyboardevents-areequal]
      are collaborators, taken by the class [Collaborators].  The validator
      and the matcher answer with a boolean.  The parser [toKeyEvent]
      returns a descriptor or throws, and the module calls it unguarded, so
      its exception leaves [register], [unregister] and [isRegistered] at
      the point of the call.
    - A callback is an arbitrary JavaScript function.  It is represented by
      its identity, and the class [Callbacks] gives the effect of calling it
      on the whole world, so every statement about the dispatcher holds for
      callbacks that re-enter the module.
    - The per-window object is a plain [{}]: reading a state name that it
      does not own finds the member of [Object.prototype] of that name, if
      there is one.  State names are strings, and windows are
      [BrowserWindow] objects whose [webContents] can be read.
    - [debug] output is not part of the state; [console.error] is, without
      the stack trace of the message.
    - The host's listener lists are kept as data, as [register] and
      [unregister] change them.  The subject of the embedding is one call
      of a handler or of an exported function; [call_listeners] adds the
      emission of one key event to the handlers attached to a window, as
      an event emitter does it. *)

From stdpp Require Import gmap strings list fin_maps.
From Equations Require Import Equations.

(* The unfolding equation of the one well-founded definition below is
   proved by hand instead of by functional extensionality. *)
Unset Equations With Funext.
Set Warnings "-solve_obligation_error".

(** ** Data *)

(** The comparable form of a key combination.  A field that the JavaScript
    object does not define is [None]. *)
Record KeyEvent := {
  code : option string;
  key : option string;
  altKey : option bool;
  shiftKey : option bool;
  metaKey : option bool;
  ctrlKey : option bool
}.

(** The [input] argument of Electron's [before-input-event]. *)
Record Input := {
  input_type : string;
  input_code : option string;
  input_key : option string;
  input_alt : option bool;
  input_shift : option bool;
  input_meta : option bool;
  input_control : option bool
}.

(** A callback is known by the identity of its function object. *)
Definition Callback := nat.

(** One element of a shortcut array: [{eventStamp, callback, enabled}]. *)
Record Shortcut := {
  eventStamp : KeyEvent;
  callback : Callback;
  enabled : bool
}.

(** A [BrowserWindow]; [win.webContents] carries the same number. *)
Definition Window := nat.

(** A reference to a shortcut array in the store. *)
Definition Ref := nat.

(** What reading [shortcutsOfWindowByState[state]] can give besides
    [undefined]: an array of the store, held by the object as an own
    property, or the member of [Object.prototype] of that name, which
    every plain object inherits. *)
Inductive StateValue :=
  | OwnArray (r : Ref)
  | Inherited (name : string).

(** The closure returned by [_onBeforeInput shortcutsOfWindow]: a function
    object of its own identity that closes over the value it was given. *)
Record Handler := {
  handler_id : nat;
  handler_array : StateValue
}.

(** The closures that detach a key handler.  [DetachFromWindow wc h] is
    [() => wc.removeListener('before-input-event', h)]; [DetachFromAll h]
    is the teardown of the [ANY_WINDOW] branch. *)
Inductive Teardown :=
  | DetachFromWindow (wc : Window) (h : Handler)
  | DetachFromAll (h : Handler).

(** A shortcut array together with the [removeListener] property that
    [register] hangs on it. *)
Record ShortcutArray := {
  items : list Shortcut;
  removeListener : option Teardown
}.

(** Keys of the [WeakMap] [windowsWithShortcuts]. *)
Inductive WeakKey :=
  | ANY_WINDOW
  | WebContents (wc : Window).

#[global] Instance StateValue_eq_dec : EqDecision StateValue.
Proof. solve_decision. Defined.

#[global] Instance Handler_eq_dec : EqDecision Handler.
Proof. solve_decision. Defined.

#[global] Instance WeakKey_eq_dec : EqDecision WeakKey.
Proof. solve_decision. Defined.

#[global] Instance WeakKey_countable : Countable WeakKey.
Proof.
  refine (inj_countable'
    (fun k => match k with ANY_WINDOW => None | WebContents wc => Some wc end)
    (fun o => match o with None => ANY_WINDOW | Some wc => WebContents wc end) _).
  by intros [].
Defined.

(** The [accelerator] argument: one string, or an array whose elements are
    strings ([Some]) or values of another type ([None]). *)
Inductive Accelerator :=
  | AccString (s : string)
  | AccArray (l : list (option string)).

(** The module's state and the part of the host it touches. *)
Record World := {
  (** [windowsWithShortcuts]: per key, the object from state names to arrays *)
  windowsWithShortcuts : gmap WeakKey (gmap string Ref);
  (** the store of shortcut arrays *)
  arrays : gmap Ref ShortcutArray;
  (** identity given to the next handler closure *)
  nextHandler : nat;
  (** listeners of ['before-input-event'] on each [webContents], oldest first *)
  keyListeners : gmap Window (list Handler);
  (** one-shot listeners of ['closed'] on each [webContents] *)
  closedHooks : gmap Window (list Teardown);
  (** listeners of the app's ['browser-window-created']: one
      [enableAppShortcuts] closure per handler *)
  appListeners : list Handler;
  (** [BrowserWindow.getAllWindows()] *)
  allWindows : list Window;
  (** windows for which [isDestroyed()] is true *)
  destroyed : gset Window;
  (** the [removeListener] property that [register] has hung on a member
      of [Object.prototype] *)
  memberRemoveListener : gmap string Teardown;
  (** lines written with [console.error], newest first *)
  console : list string
}.

Inductive Exception :=
  | TypeError (msg : string)
  | Error (msg : string).

(** What a call leaves behind: a value or a thrown exception, and in both
    cases the world as mutated so far. *)
Inductive Outcome (A : Type) :=
  | Return (a : A) (w : World)
  | Raise (e : Exception) (w : World).

Arguments Return {A} a w.
Arguments Raise {A} e w.

Definition M (A : Type) : Type := World → Outcome A.

#[global] Instance M_ret : MRet M := λ A a w, Return a w.

#[global] Instance M_bind : MBind M := λ A B k c w,
  match c w with
  | Return a w' => k a w'
  | Raise e w' => Raise e w'
  end.

Definition raise {A} (e : Exception) : M A := λ w, Raise e w.

Definition modify (f : World → World) : M unit := λ w, Return tt (f w).

Definition gets {A} (f : World → A) : M A := λ w, Return (f w) w.

(** [arr.forEach(f)] for an effectful [f]. *)
Fixpoint forEach {A} (f : A → M unit) (l : list A) : M unit :=
  match l with
  | [] => mret tt
  | x :: l' => f x ;; forEach f l'
  end.

Definition world_of {A} (o : Outcome A) : World :=
  match o with
  | Return _ w => w
  | Raise _ w => w
  end.

(** What a call of the parser gives: the descriptor of the accelerator,
    or the exception it throws for a string it rejects. *)
Inductive Parsed :=
  | Descriptor (eventStamp : KeyEvent)
  | Rejected (e : Exception).

(** The external packages the module calls. *)
Class Collaborators := {
  isAccelerator : string → bool;
  toKeyEvent : string → Parsed;
  equals : KeyEvent → KeyEvent → bool
}.

(** The effect of calling the function object [cb] with no argument. *)
Class Callbacks := {
  run_callback : Callback → M unit
}.

(** ** Field updates *)

Definition with_registry (f : gmap WeakKey (gmap string Ref) → gmap WeakKey (gmap string Ref))
    (w : World) : World :=
  {| windowsWithShortcuts := f (windowsWithShortcuts w);
     arrays := arrays w;
     nextHandler := nextHandler w;
     keyListeners := keyListeners w;
     closedHooks := closedHooks w;
     appListeners := appListeners w;
     allWindows := allWindows w;
     destroyed := destroyed w;
     memberRemoveListener := memberRemoveListener w;
     console := console w |}.

Definition with_arrays (f : gmap Ref ShortcutArray → gmap Ref ShortcutArray)
    (w : World) : World :=
  {| windowsWithShortcuts := windowsWithShortcuts w;
     arrays := f (arrays w);
     nextHandler := nextHandler w;
     keyListeners := keyListeners w;
     closedHooks := closedHooks w;
     appListeners := appListeners w;
     allWindows := allWindows w;
     destroyed := destroyed w;
     memberRemoveListener := memberRemoveListener w;
     console := console w |}.

Definition with_nextHandler (n : nat) (w : World) : World :=
  {| windowsWithShortcuts := windowsWithShortcuts w;
     arrays := arrays w;
     nextHandler := n;
     keyListeners := keyListeners w;
     closedHooks := closedHooks w;
     appListeners := appListeners w;
     allWindows := allWindows w;
     destroyed := destroyed w;
     memberRemoveListener := memberRemoveListener w;
     console := console w |}.

Definition with_keyListeners (f : gmap Window (list Handler) → gmap Window (list Handler))
    (w : World) : World :=
  {| windowsWithShortcuts := windowsWithShortcuts w;
     arrays := arrays w;
     nextHandler := nextHandler w;
     keyListeners := f (keyListeners w);
     closedHooks := closedHooks w;
     appListeners := appListeners w;
     allWindows := allWindows w;
     destroyed := destroyed w;
     memberRemoveListener := memberRemoveListener w;
     console := console w |}.

Definition with_closedHooks (f : gmap Window (list Teardown) → gmap Window (list Teardown))
    (w : World) : World :=
  {| windowsWithShortcuts := windowsWithShortcuts w;
     arrays := arrays w;
     nextHandler := nextHandler w;
     keyListeners := keyListeners w;
     closedHooks := f (closedHooks w);
     appListeners := appListeners w;
     allWindows := allWindows w;
     destroyed := destroyed w;
     memberRemoveListener := memberRemoveListener w;
     console := console w |}.

Definition with_appListeners (f : list Handler → list Handler) (w : World) : World :=
  {| windowsWithShortcuts := windowsWithShortcuts w;
     arrays := arrays w;
     nextHandler := nextHandler w;
     keyListeners := keyListeners w;
     closedHooks := closedHooks w;
     appListeners := f (appListeners w);
     allWindows := allWindows w;
     destroyed := destroyed w;
     memberRemoveListener := memberRemoveListener w;
     console := console w |}.

Definition with_memberRemoveListener (f : gmap string Teardown → gmap string Teardown)
    (w : World) : World :=
  {| windowsWithShortcuts := windowsWithShortcuts w;
     arrays := arrays w;
     nextHandler := nextHandler w;
     keyListeners := keyListeners w;
     closedHooks := closedHooks w;
     appListeners := appListeners w;
     allWindows := allWindows w;
     destroyed := destroyed w;
     memberRemoveListener := f (memberRemoveListener w);
     console := console w |}.

Definition with_console (f : list string → list string) (w : World) : World :=
  {| windowsWithShortcuts := windowsWithShortcuts w;
     arrays := arrays w;
     nextHandler := nextHandler w;
     keyListeners := keyListeners w;
     closedHooks := closedHooks w;
     appListeners := appListeners w;
     allWindows := allWindows w;
     destroyed := destroyed w;
     memberRemoveListener := memberRemoveListener w;
     console := f (console w) |}.

(** ** The store of arrays and the host's listener lists *)

Definition empty_array : ShortcutArray :=
  {| items := []; removeListener := None |}.

Definition read_array (w : World) (r : Ref) : ShortcutArray :=
  default empty_array (arrays w !! r).

(** The elements of the array behind [r], as they are now. *)
Definition shortcuts (w : World) (r : Ref) : list Shortcut :=
  items (read_array w r).

(** In-place change of the elements of the array behind [r]. *)
Definition write_items (r : Ref) (f : list Shortcut → list Shortcut) (w : World) : World :=
  with_arrays
    (insert r {| items := f (shortcuts w r);
                 removeListener := removeListener (read_array w r) |}) w.

(** [shortcutsOfWindow.removeListener = t]; a function object takes the
    property as an array does. *)
Definition set_removeListener (shortcutsOfWindow : StateValue) (t : Teardown) (w : World)
    : World :=
  match shortcutsOfWindow with
  | OwnArray r =>
      with_arrays (insert r {| items := shortcuts w r; removeListener := Some t |}) w
  | Inherited name => with_memberRemoveListener (insert name t) w
  end.

(** [[]]: a new array object. *)
Definition new_array : M Ref :=
  λ w, let r := fresh (dom (arrays w)) in
       Return r (with_arrays (insert r empty_array) w).

(** A new function object returned by [_onBeforeInput shortcutsOfWindow]. *)
Definition new_handler (shortcutsOfWindow : StateValue) : M Handler :=
  λ w, Return {| handler_id := nextHandler w; handler_array := shortcutsOfWindow |}
              (with_nextHandler (S (nextHandler w)) w).

(** The members of [Object.prototype], each with its [length]: the number
    of parameters of a function, and no [length] for the accessor
    [__proto__], which reads as [Object.prototype] itself.  None of them is
    enumerable, none has a [push] method and none can be iterated. *)
Definition Object_prototype : list (string * option nat) :=
  [ ("constructor", Some 1);
    ("__defineGetter__", Some 2);
    ("__defineSetter__", Some 2);
    ("hasOwnProperty", Some 1);
    ("__lookupGetter__", Some 1);
    ("__lookupSetter__", Some 1);
    ("isPrototypeOf", Some 1);
    ("propertyIsEnumerable", Some 1);
    ("toString", Some 0);
    ("valueOf", Some 0);
    ("__proto__", None);
    ("toLocaleString", Some 0) ].

Definition member_of_prototype (name : string) : option (string * option nat) :=
  find (λ m, bool_decide (fst m = name)) Object_prototype.

(** Whether a plain object inherits a member of this name. *)
Definition is_inherited (name : string) : bool :=
  bool_decide (is_Some (member_of_prototype name)).

(** [shortcutsOfWindowByState[state]]: the own property first, then the
    prototype; [None] is [undefined]. *)
Definition read_state (shortcutsOfWindowByState : gmap string Ref) (state : string)
    : option StateValue :=
  match shortcutsOfWindowByState !! state with
  | Some r => Some (OwnArray r)
  | None => if is_inherited state then Some (Inherited state) else None
  end.

(** [shortcutsOfWindow.length]; [None] is [undefined]. *)
Definition length_of (w : World) (shortcutsOfWindow : StateValue) : option nat :=
  match shortcutsOfWindow with
  | OwnArray r => Some (length (shortcuts w r))
  | Inherited name => m ← member_of_prototype name; snd m
  end.

Definition listeners_of (w : World) (wc : Window) : list Handler :=
  default [] (keyListeners w !! wc).

Definition hooks_of (w : World) (wc : Window) : list Teardown :=
  default [] (closedHooks w !! wc).

(** [wc.on('before-input-event', h)] *)
Definition wc_on (wc : Window) (h : Handler) (w : World) : World :=
  with_keyListeners (insert wc (listeners_of w wc ++ [h])) w.

(** [wc.once('closed', t)] *)
Definition wc_once_closed (wc : Window) (t : Teardown) (w : World) : World :=
  with_closedHooks (insert wc (hooks_of w wc ++ [t])) w.

Fixpoint remove_first (h : Handler) (l : list Handler) : list Handler :=
  match l with
  | [] => []
  | h' :: l' => if decide (h' = h) then l' else h' :: remove_first h l'
  end.

(** An event emitter's [removeListener] drops the instance added last. *)
Definition remove_last (h : Handler) (l : list Handler) : list Handler :=
  rev (remove_first h (rev l)).

(** [wc.removeListener('before-input-event', h)] *)
Definition wc_removeListener (wc : Window) (h : Handler) (w : World) : World :=
  with_keyListeners (insert wc (remove_last h (listeners_of w wc))) w.

(** The closure [enableAppShortcuts] of [register], for the handler [h]. *)
Definition enableAppShortcuts (h : Handler) (win : Window) (w : World) : World :=
  wc_once_closed win (DetachFromWindow win h) (wc_on win h w).

(** Calling one of the detaching closures. *)
Definition run_teardown (t : Teardown) (w : World) : World :=
  match t with
  | DetachFromWindow wc h => wc_removeListener wc h w
  | DetachFromAll h =>
      with_appListeners (remove_last h)
        (foldl (λ w' win, wc_removeListener win h w') w (allWindows w))
  end.

(** [arr.removeListener()] *)
Definition call_removeListener (r : Ref) : M unit :=
  λ w, match removeListener (read_array w r) with
       | None => Raise (TypeError "shortcutsOfWindow.removeListener is not a function") w
       | Some t => Return tt (run_teardown t w)
       end.

(** [for (const state in o) body], where [o] may be [undefined]; the loop
    over [undefined] runs no iteration. *)
Definition for_in (o : option (gmap string Ref)) (body : string → Ref → M unit) : M unit :=
  match o with
  | None => mret tt
  | Some byState => forEach (λ '(state, r), body state r) (map_to_list byState)
  end.

Definition set_enabled (b : bool) (s : Shortcut) : Shortcut :=
  {| eventStamp := eventStamp s; callback := callback s; enabled := b |}.

(** [for (const shortcut of arr) shortcut.enabled = b] *)
Definition enable_each (b : bool) (r : Ref) : M unit :=
  modify (write_items r (map (set_enabled b))).

(** [Object.keys(o) === 0]: an array is never strictly equal to a number. *)
Definition keys_strictly_equal_zero (o : gmap string Ref) : bool := false.

(** ** The functions of [index.js] *)

Section Module.
Context {collaborators : Collaborators}.

Definition warning (accelerator : string) : string :=
  "WARNING: " +:+ accelerator +:+ " is not a valid accelerator.".

Definition _checkAccelerator (accelerator : string) : M unit :=
  if isAccelerator accelerator then mret tt
  else modify (with_console (cons (warning accelerator))).

Definition disableAll (win : Window) : M unit :=
  let wc := WebContents win in
  shortcutsOfWindowByState ← gets (λ w, windowsWithShortcuts w !! wc);
  for_in shortcutsOfWindowByState (λ state r, enable_each false r).

Definition enableAll (win : Window) : M unit :=
  let wc := WebContents win in
  shortcutsOfWindowByState ← gets (λ w, windowsWithShortcuts w !! wc);
  for_in shortcutsOfWindowByState (λ state r, enable_each true r).

Definition enableOnlyForState (win : Window) (state : string) : M unit :=
  let wc := WebContents win in
  shortcutsOfWindowByState ← gets (λ w, windowsWithShortcuts w !! wc);
  for_in shortcutsOfWindowByState (λ currState r,
    enable_each (bool_decide (state = currState)) r).

Definition unregisterAll (win : Window) : M unit :=
  let wc := WebContents win in
  shortcutsOfWindowByState ← gets (λ w, windowsWithShortcuts w !! wc);
  for_in shortcutsOfWindowByState (λ state r,
    call_removeListener r ;;
    modify (with_registry (alter (delete state) wc))) ;;
  modify (with_registry (delete wc)).

Definition _normalizeEvent (input : Input) : KeyEvent :=
  {| code := input_code input;
     key := input_key input;
     altKey := input_alt input;
     shiftKey := input_shift input;
     metaKey := input_meta input;
     ctrlKey := input_control input |}.

Fixpoint _findShortcut_from (i : Z) (event : KeyEvent) (l : list Shortcut) : Z :=
  match l with
  | [] => -1
  | shortcut :: l' =>
      if equals (eventStamp shortcut) event then i
      else _findShortcut_from (i + 1) event l'
  end.

Definition _findShortcut (event : KeyEvent) (shortcutsOfWindow : list Shortcut) : Z :=
  _findShortcut_from 0 event shortcutsOfWindow.

(** [toKeyEvent(accelerator)] *)
Definition call_toKeyEvent (accelerator : string) : M KeyEvent :=
  match toKeyEvent accelerator with
  | Descriptor eventStamp => mret eventStamp
  | Rejected e => raise e
  end.

(** [shortcutsOfWindow.push(shortcut)] *)
Definition push (shortcutsOfWindow : StateValue) (shortcut : Shortcut) : M unit :=
  match shortcutsOfWindow with
  | OwnArray r => modify (write_items r (λ l, l ++ [shortcut]))
  | Inherited _ => raise (TypeError "shortcutsOfWindow.push is not a function")
  end.

(** [windowsWithShortcuts.get(wc)], created and stored when absent. *)
Definition bucket_for (wc : WeakKey) : M (gmap string Ref) :=
  λ w, match windowsWithShortcuts w !! wc with
       | Some shortcutsOfWindowByState => Return shortcutsOfWindowByState w
       | None => Return ∅ (with_registry (insert wc ∅) w)
       end.

(** [shortcutsOfWindowByState[state]], with a new array created and
    stored when the read gives [undefined].  An array, a function and
    [Object.prototype] are all truthy. *)
Definition group_for (wc : WeakKey) (shortcutsOfWindowByState : gmap string Ref)
    (state : string) : M StateValue :=
  match read_state shortcutsOfWindowByState state with
  | Some shortcutsOfWindow => mret shortcutsOfWindow
  | None =>
      shortcutsOfWindow ← new_array;
      modify (with_registry (alter (insert state shortcutsOfWindow) wc)) ;;
      mret (OwnArray shortcutsOfWindow)
  end.

(** The branch of [register] taken when [shortcutsOfWindow.length === 0]:
    a handler is built over [shortcutsOfWindow] and attached. *)
Definition install_listener (wc : WeakKey) (shortcutsOfWindow : StateValue) : M unit :=
  match wc with
  | ANY_WINDOW =>
      keyHandler ← new_handler shortcutsOfWindow;
      windows ← gets allWindows;
      forEach (λ win, modify (enableAppShortcuts keyHandler win)) windows ;;
      modify (with_appListeners (λ l, l ++ [keyHandler])) ;;
      modify (set_removeListener shortcutsOfWindow (DetachFromAll keyHandler))
  | WebContents c =>
      keyHandler ← new_handler shortcutsOfWindow;
      modify (wc_on c keyHandler) ;;
      modify (set_removeListener shortcutsOfWindow (DetachFromWindow c keyHandler)) ;;
      modify (wc_once_closed c (DetachFromWindow c keyHandler))
  end.

(** Lines 219 to 271 of [register]: the array of the state is found or
    made, a handler is attached when its length is 0, the accelerator is
    parsed, and the new shortcut is pushed. *)
Definition register_in (wc : WeakKey) (shortcutsOfWindowByState : gmap string Ref)
    (state accelerator : string) (callback : Callback) : M unit :=
  shortcutsOfWindow ← group_for wc shortcutsOfWindowByState state;
  len ← gets (λ w, length_of w shortcutsOfWindow);
  (if decide (len = Some 0) then install_listener wc shortcutsOfWindow else mret tt) ;;
  eventStamp ← call_toKeyEvent accelerator;
  push shortcutsOfWindow
    {| eventStamp := eventStamp; callback := callback; enabled := true |}.

(** The body of [register] below the array test, for a string
    [accelerator].  [wc] is [None] when [win.webContents] is [undefined],
    which happens when [win] holds the array of the three-argument form. *)
Definition register_string (wc : option WeakKey) (state accelerator : string)
    (callback : Callback) : M unit :=
  _checkAccelerator accelerator ;;
  match wc with
  | None => raise (TypeError "Invalid value used as weak map key")
  | Some wc =>
      shortcutsOfWindowByState ← bucket_for wc;
      register_in wc shortcutsOfWindowByState state accelerator callback
  end.

(** [register(win, state, accelerator, callback)].  [win = None] is the
    three-argument call [register(accelerator, state, callback)], where
    the function takes its first argument as the accelerator and the
    second as the state. *)
Definition register (win : option Window) (state : string) (accelerator : Accelerator)
    (callback : Callback) : M unit :=
  match accelerator with
  | AccArray l =>
      forEach (λ a : option string, match a with
                    | Some accelerator =>
                        register_string (WebContents <$> win) state accelerator callback
                    | None => mret tt
                    end) l
  | AccString accelerator =>
      let wc := match win with
                | None => ANY_WINDOW
                | Some win => WebContents win
                end in
      register_string (Some wc) state accelerator callback
  end.

(** The body of [unregister] below the array test. *)
Definition unregister_string (wc : WeakKey) (state accelerator : string) : M unit :=
  _checkAccelerator accelerator ;;
  shortcutsOfWindowByState ← gets (λ w, windowsWithShortcuts w !! wc);
  match shortcutsOfWindowByState with
  | None =>
      (* the test on line 313 only logs; line 317 then reads a property
         of [undefined] *)
      raise (TypeError "Cannot read properties of undefined")
  | Some shortcutsOfWindowByState =>
      match read_state shortcutsOfWindowByState state with
      | None => mret tt
      | Some shortcutsOfWindow =>
          eventStamp ← call_toKeyEvent accelerator;
          match shortcutsOfWindow with
          | Inherited _ =>
              (* the [for ... of] loop of [_findShortcut] needs an iterable *)
              raise (TypeError "shortcutsOfWindow is not iterable")
          | OwnArray shortcutsOfWindow =>
              shortcutIdx ← gets (λ w, _findShortcut eventStamp
                                         (shortcuts w shortcutsOfWindow));
              if decide (shortcutIdx = (-1)%Z) then mret tt else
              modify (write_items shortcutsOfWindow (delete (Z.to_nat shortcutIdx))) ;;
              len ← gets (λ w, length (shortcuts w shortcutsOfWindow));
              (if decide (len = 0) then
                 call_removeListener shortcutsOfWindow ;;
                 modify (with_registry (alter (delete state) wc))
               else mret tt) ;;
              o ← gets (λ w, default ∅ (windowsWithShortcuts w !! wc));
              if keys_strictly_equal_zero o then modify (with_registry (delete wc))
              else mret tt
          end
      end
  end.

(** [unregister(win, state, accelerator)] called with a window and a
    string: the destroyed test, then the body. *)
Definition unregister_on (win : Window) (state accelerator : string) : M unit :=
  isDestroyed ← gets (λ w, bool_decide (win ∈ destroyed w));
  if (isDestroyed : bool) then mret tt
  else unregister_string (WebContents win) state accelerator.

(** [unregister(win, state, accelerator)].  [win = None] is the
    two-argument call [unregister(accelerator, state)].  Its array form
    calls itself with the array as [win], and [win.isDestroyed] is then
    not a function. *)
Definition unregister (win : option Window) (state : string) (accelerator : Accelerator)
    : M unit :=
  match win, accelerator with
  | None, AccString accelerator => unregister_string ANY_WINDOW state accelerator
  | None, AccArray l =>
      forEach (λ a : option string, match a with
                    | Some _ => raise (TypeError "win.isDestroyed is not a function")
                    | None => mret tt
                    end) l
  | Some win, AccString accelerator => unregister_on win state accelerator
  | Some win, AccArray l =>
      isDestroyed ← gets (λ w, bool_decide (win ∈ destroyed w));
      if (isDestroyed : bool) then mret tt
      else forEach (λ a : option string, match a with
                         | Some accelerator => unregister_on win state accelerator
                         | None => mret tt
                         end) l
  end.

Definition isRegistered (win : Window) (state accelerator : string) : M bool :=
  _checkAccelerator accelerator ;;
  let wc := WebContents win in
  shortcutsOfWindowByState ← gets (λ w, windowsWithShortcuts w !! wc);
  match shortcutsOfWindowByState with
  | None => raise (Error "No shortcuts registered for this window")
  | Some shortcutsOfWindowByState =>
      match read_state shortcutsOfWindowByState state with
      | None => raise (Error "No shortcuts registered for this state")
      | Some shortcutsOfWindow =>
          eventStamp ← call_toKeyEvent accelerator;
          match shortcutsOfWindow with
          | Inherited _ => raise (TypeError "shortcutsOfWindow is not iterable")
          | OwnArray shortcutsOfWindow =>
              idx ← gets (λ w, _findShortcut eventStamp (shortcuts w shortcutsOfWindow));
              mret (negb (bool_decide (idx = (-1)%Z)))
          end
      end
  end.
End Module.

(** ** The dispatcher *)

Definition inspect {A} (a : A) : {b | a = b} := exist _ a eq_refl.

Section Dispatcher.
Context {collaborators : Collaborators} {callbacks : Callbacks}.

(** The test of the handler's loop: [enabled && equals(eventStamp, event)]. *)
Definition hits (event : KeyEvent) (s : Shortcut) : bool :=
  enabled s && equals (eventStamp s) event.

(** The [for ... of] loop of the handler from index [i] on.  The array
    iterator reads the array behind the reference at every step; nothing
    is copied.  The result lists the callbacks the loop has called. *)
Equations? _onBeforeInput_loop (shortcutsOfWindow : Ref) (event : KeyEvent)
    (w : World) (i : nat) : list Callback * Outcome unit
    by wf (length (shortcuts w shortcutsOfWindow) - i) lt :=
_onBeforeInput_loop r event w i with inspect (shortcuts w r !! i) := {
  | exist _ None _ => ([], Return tt w)
  | exist _ (Some s) Hs =>
      if hits event s
      then ([callback s], run_callback (callback s) w)
      else _onBeforeInput_loop r event w (S i) }.
Proof.
  apply lookup_lt_Some in Hs. lia.
Qed.
Next Obligation.
  unfold _onBeforeInput_loop, _onBeforeInput_loop_unfold.
  rewrite FixWf_unfold.
  - unfold _onBeforeInput_loop_functional. cbn [pr1 pr2].
    generalize (inspect (shortcuts w shortcutsOfWindow !! i)).
    intros [[s|] Hs]; cbn; [destruct (hits event s)|]; reflexivity.
  - intros [r [ev [w' j]]] f g Hfg. unfold _onBeforeInput_loop_functional. cbn [pr1 pr2].
    generalize (inspect (shortcuts w' r !! j)).
    intros [[s|] Hs]; cbn; [|reflexivity].
    destruct (hits ev s); [reflexivity|]. apply Hfg.
Defined.

(** [_onBeforeInput(shortcutsOfWindow)(e, input)].  Over a value that is
    not an array the loop throws before its first step. *)
Definition _onBeforeInput (shortcutsOfWindow : StateValue) (input : Input) (w : World)
    : list Callback * Outcome unit :=
  if decide (input_type input = "keyUp") then ([], Return tt w)
  else
    match shortcutsOfWindow with
    | OwnArray r => _onBeforeInput_loop r (_normalizeEvent input) w 0
    | Inherited _ => ([], Raise (TypeError "shortcutsOfWindow is not iterable") w)
    end.

(** The emission of one ['before-input-event'] to the handlers [hs]: an
    event emitter calls the listeners it holds when the emission starts,
    in the order they were attached, and an exception from one of them
    ends the emission. *)
Fixpoint call_listeners (hs : list Handler) (input : Input) (w : World)
    : list Callback * Outcome unit :=
  match hs with
  | [] => ([], Return tt w)
  | h :: hs' =>
      match _onBeforeInput (handler_array h) input w with
      | (called, Return _ w') =>
          let '(called', o) := call_listeners hs' input w' in (called ++ called', o)
      | (called, Raise e w') => (called, Raise e w')
      end
  end.

(** A key event arrives at the window [wc]. *)
Definition emit_before_input (wc : Window) (input : Input) (w : World)
    : list Callback * Outcome unit :=
  call_listeners (listeners_of w wc) input w.
End Dispatcher.

(** ** An instance to run the functions on *)

(** A world with the given windows open and nothing registered. *)
Definition initial_world (windows : list Window) : World :=
  {| windowsWithShortcuts := ∅;
     arrays := ∅;
     nextHandler := 0;
     keyListeners := ∅;
     closedHooks := ∅;
     appListeners := [];
     allWindows := windows;
     destroyed := ∅;
     memberRemoveListener := ∅;
     console := [] |}.

(** Stand-ins for the three packages, enough to evaluate examples: an
    accelerator is [Ctrl+] followed by a key, or a bare key; the parser
    throws for a string that gives the modifier twice, and the validator
    refuses the empty string only; two descriptors are equal when their
    modifiers agree as booleans and their keys are the same defined
    string.  The theorems below do not depend on this choice; they are
    stated for every instance of [Collaborators]. *)
Definition example_descriptor (accelerator : string) : KeyEvent :=
  if String.prefix "Ctrl+" accelerator then
    {| code := None;
       key := Some (String.substring 5 (String.length accelerator - 5) accelerator);
       altKey := None; shiftKey := None; metaKey := None; ctrlKey := Some true |}
  else
    {| code := None; key := Some accelerator;
       altKey := None; shiftKey := None; metaKey := None; ctrlKey := None |}.

Definition double_modifier : Exception :=
  Error "Double `Control` modifier specified.".

Definition example_toKeyEvent (accelerator : string) : Parsed :=
  if String.prefix "Ctrl+Ctrl+" accelerator then Rejected double_modifier
  else Descriptor (example_descriptor accelerator).

Definition truthy (b : option bool) : bool := default false b.

Definition example_equals (a b : KeyEvent) : bool :=
  bool_decide (truthy (altKey a) = truthy (altKey b)) &&
  bool_decide (truthy (ctrlKey a) = truthy (ctrlKey b)) &&
  bool_decide (truthy (shiftKey a) = truthy (shiftKey b)) &&
  bool_decide (truthy (metaKey a) = truthy (metaKey b)) &&
  match key a, key b with
  | Some x, Some y => bool_decide (x = y)
  | _, _ => false
  end.

Definition example_collaborators : Collaborators :=
  {| isAccelerator := λ accelerator, negb (Nat.eqb (String.length accelerator) 0);
     toKeyEvent := example_toKeyEvent;
     equals := example_equals |}.

(** A key press of [k], with or without the control key. *)
Definition keyDown (k : string) (control : bool) : Input :=
  {| input_type := "keyDown";
     input_code := None;
     input_key := Some k;
     input_alt := Some false;
     input_shift := Some false;
     input_meta := Some false;
     input_control := Some control |}.

(** The release of the key [k]. *)
Definition keyUp (k : string) (control : bool) : Input :=
  {| input_type := "keyUp";
     input_code := None;
     input_key := Some k;
     input_alt := Some false;
     input_shift := Some false;
     input_meta := Some false;
     input_control := Some control |}.

(** Callbacks that do nothing. *)
Definition idle_callbacks : Callbacks :=
  {| run_callback := λ _, mret tt |}.

(** Window 1 holds [Ctrl+A] under ["normal"], with callback 10. *)
Definition one_shortcut_world : World :=
  world_of (register (collaborators := example_collaborators)
              (Some 1) "normal" (AccString "Ctrl+A") 10 (initial_world [1; 2])).

(** Window 1 also holds [Ctrl+B] under ["edit"], with callback 11. *)
Definition two_state_world : World :=
  world_of (register (collaborators := example_collaborators)
              (Some 1) "edit" (AccString "Ctrl+B") 11 one_shortcut_world).

(** Window 1 holds [Ctrl+A] twice under ["normal"] (callbacks 10 and 12)
    and [Ctrl+B] under ["edit"] (callback 11). *)
Definition example_world : World :=
  world_of (register (collaborators := example_collaborators)
              (Some 1) "normal" (AccString "Ctrl+A") 12 two_state_world).

(** The object of window 1 in [two_state_world] and [example_world]. *)
Definition example_bucket : gmap string Ref :=
  <["normal" := 0]> (<["edit" := 1]> ∅).

(** Callbacks for the re-entrancy example: callback 10 unregisters
    [Ctrl+A] from state ["normal"] of window 1, the others do nothing. *)
Definition self_removing_callbacks : Callbacks :=
  {| run_callback := λ cb,
       if decide (cb = 10)
       then unregister (collaborators := example_collaborators)
              (Some 1) "normal" (AccString "Ctrl+A")
       else mret tt |}.

(** ** Views of the world used in the statements *)

(** The array stored for [(wc, state)], if any. *)
Definition group_of (w : World) (wc : WeakKey) (state : string) : option Ref :=
  o ← windowsWithShortcuts w !! wc; o !! state.

(** The array [register] uses for [(wc, state)]: the one stored there, or
    a new one. *)
Definition array_for (w : World) (wc : WeakKey) (state : string) : Ref :=
  match group_of w wc state with
  | Some r => r
  | None => fresh (dom (arrays w))
  end.

(** The shortcuts registered under [(wc, state)]; none when the window has
    no object or the object no array for the state. *)
Definition shortcuts_under (w : World) (wc : WeakKey) (state : string) : list Shortcut :=
  match group_of w wc state with
  | Some r => shortcuts w r
  | None => []
  end.

(** The key [register] and [unregister] work on. *)
Definition key_of (win : option Window) : WeakKey :=
  match win with
  | None => ANY_WINDOW
  | Some win => WebContents win
  end.

(** Between [w] and [w'] the handler [h] was attached for the key [wc]:
    once on the window's [webContents], or, for [ANY_WINDOW], once on
    every open window and once on the app. *)
Definition handler_attached (wc : WeakKey) (h : Handler) (w w' : World) : Prop :=
  match wc with
  | WebContents c =>
      listeners_of w' c = listeners_of w c ++ [h] ∧
      (∀ v, v ≠ c → listeners_of w' v = listeners_of w v) ∧
      appListeners w' = appListeners w
  | ANY_WINDOW =>
      appListeners w' = appListeners w ++ [h] ∧
      (∀ v, listeners_of w' v
            = listeners_of w v ++ replicate (length (filter (v =.) (allWindows w))) h)
  end.

(** Between [w] and [w'] the one-shot ['closed'] listeners that go with
    the attachment of [h] for the key [wc] were added: one on the
    window, or, for [ANY_WINDOW], one on every open window. *)
Definition closed_hooks_added (wc : WeakKey) (h : Handler) (w w' : World) : Prop :=
  ∀ v, hooks_of w' v
       = hooks_of w v ++
         match wc with
         | WebContents c => if decide (v = c) then [DetachFromWindow c h] else []
         | ANY_WINDOW =>
             replicate (length (filter (v =.) (allWindows w))) (DetachFromWindow v h)
         end.

(** The [removeListener] closure that [register] builds with the handler
    [h] for the key [wc]. *)
Definition teardown_for (wc : WeakKey) (h : Handler) : Teardown :=
  match wc with
  | ANY_WINDOW => DetachFromAll h
  | WebContents c => DetachFromWindow c h
  end.

(** What [register] pushes for [accelerator]: one enabled shortcut with
    the descriptor the parser gives, and nothing when the parser throws. *)
Definition pushed {collaborators : Collaborators} (accelerator : string) (cb : Callback)
    : list Shortcut :=
  match toKeyEvent accelerator with
  | Descriptor ev => [ {| eventStamp := ev; callback := cb; enabled := true |} ]
  | Rejected _ => []
  end.

(** How a call ends that has reached the parser and has nothing else to
    fail on: it returns, or it throws what the parser throws. *)
Definition ends_with_parser {collaborators : Collaborators} (accelerator : string)
    (w : World) : Outcome unit :=
  match toKeyEvent accelerator with
  | Descriptor _ => Return tt w
  | Rejected e => Raise e w
  end.

(** Between [w0] and [w'] the value [v] got the [removeListener] [t]. *)
Definition with_removeListener (v : StateValue) (t : Teardown) (w0 w' : World) : Prop :=
  match v with
  | OwnArray r =>
      arrays w' = <[r := {| items := shortcuts w0 r; removeListener := Some t |}]> (arrays w0) ∧
      memberRemoveListener w' = memberRemoveListener w0
  | Inherited name =>
      arrays w' = arrays w0 ∧
      memberRemoveListener w' = <[name := t]> (memberRemoveListener w0)
  end.

(** Between [w] and [w'] no listener was attached or detached. *)
Definition listeners_unchanged (w w' : World) : Prop :=
  keyListeners w' = keyListeners w ∧
  appListeners w' = appListeners w ∧
  closedHooks w' = closedHooks w.

(** ** The dispatcher of the specification *)

Section SnapshotDispatcher.
Context {collaborators : Collaborators} {callbacks : Callbacks}.

(** The dispatcher as the specification words it: the sequence of entries
    is copied when the call starts, and the copy is scanned. *)
Fixpoint scan_snapshot (event : KeyEvent) (snapshot : list Shortcut) (w : World)
    : list Callback * Outcome unit :=
  match snapshot with
  | [] => ([], Return tt w)
  | s :: rest =>
      if hits event s then ([callback s], run_callback (callback s) w)
      else scan_snapshot event rest w
  end.

Definition dispatch_snapshot (shortcutsOfWindow : Ref) (input : Input) (w : World)
    : list Callback * Outcome unit :=
  if decide (input_type input = "keyUp") then ([], Return tt w)
  else
    let snapshot := shortcuts w shortcutsOfWindow in
    scan_snapshot (_normalizeEvent input) snapshot w.
End SnapshotDispatcher.

(** ** Worlds the module can be in *)

(** What the module maintains: an array stored in the registry is in the
    store, carries its [removeListener], and is stored under one key and
    one state only.  The array can be empty: [register] stores it and
    attaches its handler before it parses the accelerator. *)
Definition well_formed (w : World) : Prop :=
  ∀ k s r, group_of w k s = Some r →
    r ∈ dom (arrays w) ∧
    is_Some (removeListener (read_array w r)) ∧
    ∀ k' s', group_of w k' s' = Some r → k' = k ∧ s' = s.

(** From [w] to [w'] no array entered the registry, and the arrays that
    are still stored kept what [well_formed] asks of them. *)
Definition kept (w w' : World) : Prop :=
  ∀ k s r, group_of w' k s = Some r →
    group_of w k s = Some r ∧
    (r ∈ dom (arrays w) → r ∈ dom (arrays w')) ∧
    (is_Some (removeListener (read_array w r)) →
     is_Some (removeListener (read_array w' r))).

(** The worlds reached from a start with nothing registered by calls of
    the exported functions, whatever their outcome, and by steps of the
    host that leave the registry and the arrays alone (windows opening and
    closing, listeners being called or dropped). *)
Inductive reachable {collaborators : Collaborators} : World → Prop :=
  | reachable_initial windows :
      reachable (initial_world windows)
  | reachable_register win state accelerator cb w :
      reachable w → reachable (world_of (register win state accelerator cb w))
  | reachable_unregister win state accelerator w :
      reachable w → reachable (world_of (unregister win state accelerator w))
  | reachable_unregisterAll win w :
      reachable w → reachable (world_of (unregisterAll win w))
  | reachable_disableAll win w :
      reachable w → reachable (world_of (disableAll win w))
  | reachable_enableAll win w :
      reachable w → reachable (world_of (enableAll win w))
  | reachable_enableOnlyForState win state w :
      reachable w → reachable (world_of (enableOnlyForState win state w))
  | reachable_isRegistered win state accelerator w :
      reachable w → reachable (world_of (isRegistered win state accelerator w))
  | reachable_host w w' :
      reachable w →
      windowsWithShortcuts w' = windowsWithShortcuts w →
      arrays w' = arrays w →
      reachable w'.

(** ** Further views and examples *)

(** The fields of the host that the module only reads. *)
Definition same_host (w w' : World) : Prop :=
  allWindows w' = allWindows w ∧ destroyed w' = destroyed w ∧ console w' = console w.

(** [example_world] after window 1 has been destroyed. *)
Definition destroyed_world : World :=
  {| windowsWithShortcuts := windowsWithShortcuts example_world;
     arrays := arrays example_world;
     nextHandler := nextHandler example_world;
     keyListeners := keyListeners example_world;
     closedHooks := closedHooks example_world;
     appListeners := appListeners example_world;
     allWindows := [2];
     destroyed := {[ 1 ]};
     memberRemoveListener := memberRemoveListener example_world;
     console := console example_world |}.

(** Window 1 holds [Ctrl+A] under ["normal"] (callback 10) and again
    under ["edit"] (callback 11). *)
Definition same_key_world : World :=
  world_of (register (collaborators := example_collaborators)
              (Some 1) "edit" (AccString "Ctrl+A") 11 one_shortcut_world).

(** The two handlers of window 1 in [two_state_world], [example_world]
    and [same_key_world]. *)
Definition handler_normal : Handler :=
  {| handler_id := 0; handler_array := OwnArray 0 |}.

Definition handler_edit : Handler :=
  {| handler_id := 1; handler_array := OwnArray 1 |}.

(** Window 1 holds, under ["normal"], [Ctrl+A] (callback 10), disabled
    by a call of [disableAll], and then [Ctrl+B] (callback 13) and
    [Ctrl+A] (callback 12), registered after that call. *)
Definition mixed_flags_world : World :=
  world_of (register (collaborators := example_collaborators)
    (Some 1) "normal" (AccString "Ctrl+A") 12
    (world_of (register (collaborators := example_collaborators)
       (Some 1) "normal" (AccString "Ctrl+B") 13
       (world_of (disableAll 1 one_shortcut_world))))).

(** [one_shortcut_world] after [register] has thrown for an accelerator
    with the modifier given twice, under the new state ["edit"]. *)
Definition half_registered_world : World :=
  world_of (register (collaborators := example_collaborators)
              (Some 1) "edit" (AccString "Ctrl+Ctrl+B") 11 one_shortcut_world).

(** The two shortcuts of state ["normal"] and the shortcut of state
    ["edit"] in [example_world]. *)
Definition shortcut_a10 : Shortcut :=
  {| eventStamp := example_descriptor "Ctrl+A"; callback := 10; enabled := true |}.

Definition shortcut_a12 : Shortcut :=
  {| eventStamp := example_descriptor "Ctrl+A"; callback := 12; enabled := true |}.

Definition shortcut_b11 : Shortcut :=
  {| eventStamp := example_descriptor "Ctrl+B"; callback := 11; enabled := true |}.


(** The shortcuts of state ["normal"] in [mixed_flags_world]. *)
Definition shortcut_a10_off : Shortcut :=
  {| eventStamp := example_descriptor "Ctrl+A"; callback := 10; enabled := false |}.

Definition shortcut_b13 : Shortcut :=
  {| eventStamp := example_descriptor "Ctrl+B"; callback := 13; enabled := true |}.
(** * Properties *)

(** ** Reading and writing the store *)

Lemma shortcuts_write_items_eq r f w :
  shortcuts (write_items r f w) r = f (shortcuts w r).
Proof.
  unfold shortcuts at 1, read_array, write_items. simpl.
  by rewrite lookup_insert_eq.
Qed.

Lemma shortcuts_write_items_ne r r' f w :
  r ≠ r' → shortcuts (write_items r f w) r' = shortcuts w r'.
Proof.
  intros Hne. unfold shortcuts, read_array, write_items. simpl.
  by rewrite lookup_insert_ne.
Qed.

Lemma shortcuts_set_removeListener v r' t w :
  shortcuts (set_removeListener v t w) r' = shortcuts w r'.
Proof.
  destruct v as [r|name]; [|done].
  unfold shortcuts at 1, read_array, set_removeListener. simpl.
  destruct (decide (r = r')) as [->|Hne].
  - by rewrite lookup_insert_eq.
  - by rewrite lookup_insert_ne.
Qed.

Lemma read_state_own o state r : o !! state = Some r → read_state o state = Some (OwnArray r).
Proof. intros Hr. unfold read_state. by rewrite Hr. Qed.


Lemma read_state_inherited o state :
  o !! state = None → is_inherited state = true → read_state o state = Some (Inherited state).
Proof. intros Hr Hin. unfold read_state. by rewrite Hr, Hin. Qed.

Lemma removeListener_write_items r r' f w :
  removeListener (read_array (write_items r f w) r') = removeListener (read_array w r').
Proof.
  unfold read_array at 1, write_items. simpl.
  destruct (decide (r = r')) as [->|Hne].
  - by rewrite lookup_insert_eq.
  - by rewrite lookup_insert_ne.
Qed.

Lemma run_teardown_arrays t w : arrays (run_teardown t w) = arrays w.
Proof.
  destruct t as [wc h|h]; simpl; [done|].
  generalize (allWindows w) at 1. intros l. revert w.
  induction l as [|win l IH]; intros w; simpl; [done|].
  by rewrite IH.
Qed.

Lemma run_teardown_registry t w :
  windowsWithShortcuts (run_teardown t w) = windowsWithShortcuts w.
Proof.
  destruct t as [wc h|h]; simpl; [done|].
  generalize (allWindows w) at 1. intros l. revert w.
  induction l as [|win l IH]; intros w; simpl; [done|].
  by rewrite IH.
Qed.

Section Properties.
Context {collaborators : Collaborators}.

Lemma checkAccelerator_returns accelerator w :
  _checkAccelerator accelerator w = Return tt (world_of (_checkAccelerator accelerator w)).
Proof.
  unfold _checkAccelerator. by destruct (isAccelerator accelerator).
Qed.

Lemma checkAccelerator_registry accelerator w :
  windowsWithShortcuts (world_of (_checkAccelerator accelerator w)) = windowsWithShortcuts w.
Proof.
  unfold _checkAccelerator. by destruct (isAccelerator accelerator).
Qed.

Lemma checkAccelerator_arrays accelerator w :
  arrays (world_of (_checkAccelerator accelerator w)) = arrays w.
Proof.
  unfold _checkAccelerator. by destruct (isAccelerator accelerator).
Qed.

Lemma checkAccelerator_shortcuts accelerator w r :
  shortcuts (world_of (_checkAccelerator accelerator w)) r = shortcuts w r.
Proof.
  unfold shortcuts, read_array. by rewrite checkAccelerator_arrays.
Qed.

Lemma checkAccelerator_destroyed accelerator w :
  destroyed (world_of (_checkAccelerator accelerator w)) = destroyed w.
Proof.
  unfold _checkAccelerator. by destruct (isAccelerator accelerator).
Qed.

(** [_findShortcut] returns [-1] exactly when no element matches, and
    otherwise the index of the first element that does. *)
Lemma findShortcut_from_spec event l i :
  (0 ≤ i)%Z →
  match list_find (λ s, equals (eventStamp s) event = true) l with
  | Some (n, _) => _findShortcut_from i event l = (i + Z.of_nat n)%Z
  | None => _findShortcut_from i event l = (-1)%Z
  end.
Proof.
  revert i. induction l as [|s l IH]; intros i Hi; simpl; [done|].
  case_decide as Hs.
  - simpl. rewrite Hs. lia.
  - apply not_true_is_false in Hs. rewrite Hs.
    specialize (IH (i + 1)%Z ltac:(lia)).
    destruct (list_find _ l) as [[n x]|]; simpl; [|done].
    rewrite IH. lia.
Qed.

Lemma findShortcut_spec event l :
  match list_find (λ s, equals (eventStamp s) event = true) l with
  | Some (n, _) => _findShortcut event l = Z.of_nat n
  | None => _findShortcut event l = (-1)%Z
  end.
Proof.
  pose proof (findShortcut_from_spec event l 0 ltac:(lia)) as H.
  unfold _findShortcut. by destruct (list_find _ l) as [[n x]|].
Qed.

Lemma findShortcut_existsb event l :
  negb (bool_decide (_findShortcut event l = (-1)%Z))
  = existsb (λ s, equals (eventStamp s) event) l.
Proof.
  pose proof (findShortcut_spec event l) as H.
  destruct (list_find _ l) as [[n x]|] eqn:Hfind.
  - rewrite H. rewrite bool_decide_eq_false_2 by lia. simpl. symmetry.
    apply list_find_Some in Hfind as (Hl & Hx & _).
    apply existsb_exists. exists x. split; [|done].
    apply list_elem_of_In, list_elem_of_lookup. eauto.
  - rewrite H. rewrite bool_decide_eq_true_2 by done. simpl. symmetry.
    apply not_true_is_false. intros (x & Hin & Hx)%existsb_exists.
    apply list_find_None in Hfind. rewrite Forall_forall in Hfind.
    apply (Hfind x); [by apply list_elem_of_In|done].
Qed.

Lemma map_set_enabled_idemp b l :
  map (set_enabled b) (map (set_enabled b) l) = map (set_enabled b) l.
Proof. rewrite map_map. by apply map_ext. Qed.

(** The nested loops of [disableAll], [enableAll] and
    [enableOnlyForState]: each array met gets the flag of its state.
    When two states share an array the flags must agree, or the order of
    the loop would show. *)
Lemma forEach_enable_each (f : string → bool) (l : list (string * Ref)) w :
  (∀ st st' r, (st, r) ∈ l → (st', r) ∈ l → f st = f st') →
  ∃ w', forEach (λ '(st, r), enable_each (f st) r) l w = Return tt w' ∧
        windowsWithShortcuts w' = windowsWithShortcuts w ∧
        (∀ st r, (st, r) ∈ l → shortcuts w' r = map (set_enabled (f st)) (shortcuts w r)) ∧
        (∀ r, r ∉ l.*2 → shortcuts w' r = shortcuts w r).
Proof.
  revert w. induction l as [|[st0 r0] l IH]; intros w Hagree.
  - exists w. repeat split; try done. intros st r Hin. by apply elem_of_nil in Hin.
  - destruct (IH (write_items r0 (map (set_enabled (f st0))) w)) as (w' & Hrun & Hreg & Hin & Hout).
    { intros st st' r H1 H2. apply (Hagree st st' r); apply elem_of_cons; by right. }
    exists w'. split; [exact Hrun|]. split; [exact Hreg|]. split.
    + intros st r Hmem.
      destruct (decide (r ∈ l.*2)) as [Hr|Hr].
      * apply list_elem_of_fmap in Hr as ([st' r'] & Heq & Hmem'). simpl in Heq. subst r'.
        rewrite (Hin st' r Hmem').
        assert (f st' = f st) as ->.
        { apply (Hagree st' st r); [apply elem_of_cons; by right|done]. }
        destruct (decide (r0 = r)) as [->|Hne].
        -- rewrite shortcuts_write_items_eq.
           assert (f st0 = f st) as ->.
           { apply (Hagree st0 st r); [apply elem_of_cons; by left|done]. }
           apply map_set_enabled_idemp.
        -- by rewrite shortcuts_write_items_ne.
      * apply elem_of_cons in Hmem as [Heq|Hmem].
        -- injection Heq as -> ->. rewrite (Hout r0 Hr).
           apply shortcuts_write_items_eq.
        -- exfalso. apply Hr. apply list_elem_of_fmap. by exists (st, r).
    + intros r Hr. rewrite fmap_cons in Hr. simpl in Hr.
      apply not_elem_of_cons in Hr as [Hne Hr].
      rewrite (Hout r Hr). by apply shortcuts_write_items_ne.
Qed.

(** The same loops seen from a window's object with no shared array. *)
Lemma for_in_enable_each (f : string → bool) (o : gmap string Ref) w :
  (∀ s1 s2 r, o !! s1 = Some r → o !! s2 = Some r → f s1 = f s2) →
  ∃ w', for_in (Some o) (λ st r, enable_each (f st) r) w = Return tt w' ∧
        windowsWithShortcuts w' = windowsWithShortcuts w ∧
        (∀ st r, o !! st = Some r → shortcuts w' r = map (set_enabled (f st)) (shortcuts w r)).
Proof.
  intros Hagree.
  destruct (forEach_enable_each f (map_to_list o) w) as (w' & Hrun & Hreg & Hin & _).
  { intros st st' r H1%elem_of_map_to_list H2%elem_of_map_to_list. eauto. }
  exists w'. split; [exact Hrun|]. split; [exact Hreg|].
  intros st r Hst. apply Hin. by apply elem_of_map_to_list.
Qed.

(** What [isRegistered] does in each of its cases. *)
Lemma isRegistered_cases win state accelerator w :
  isRegistered win state accelerator w =
    let w' := world_of (_checkAccelerator accelerator w) in
    match windowsWithShortcuts w !! WebContents win with
    | None => Raise (Error "No shortcuts registered for this window") w'
    | Some o =>
        match read_state o state with
        | None => Raise (Error "No shortcuts registered for this state") w'
        | Some shortcutsOfWindow =>
            match toKeyEvent accelerator with
            | Rejected e => Raise e w'
            | Descriptor ev =>
                match shortcutsOfWindow with
                | Inherited _ => Raise (TypeError "shortcutsOfWindow is not iterable") w'
                | OwnArray r =>
                    Return (existsb (λ s, equals (eventStamp s) ev) (shortcuts w r)) w'
                end
            end
        end
    end.
Proof.
  unfold isRegistered, mbind, M_bind. rewrite checkAccelerator_returns.
  unfold gets. rewrite checkAccelerator_registry. simpl.
  destruct (windowsWithShortcuts w !! WebContents win) as [o|]; [|done].
  destruct (read_state o state) as [v|]; [|done].
  unfold call_toKeyEvent. destruct (toKeyEvent accelerator) as [ev|e]; [|done].
  destruct v as [r|name]; [|done].
  unfold mret, M_ret. rewrite findShortcut_existsb.
  by rewrite checkAccelerator_shortcuts.
Qed.


(** C9.  On a window that has no object in [windowsWithShortcuts],
    [disableAll], [enableAll] and [enableOnlyForState] return normally
    and leave the world as it was. *)
Theorem flag_operations_noop_on_unknown_window (win : Window) (state : string)
    (w : World) :
  windowsWithShortcuts w !! WebContents win = None →
  disableAll win w = Return tt w ∧
  enableAll win w = Return tt w ∧
  enableOnlyForState win state w = Return tt w.
Proof.
  intros Hwin.
  unfold disableAll, enableAll, enableOnlyForState, mbind, M_bind, gets.
  by rewrite Hwin.
Qed.

(** C2.  [unregister] on a live window that has no object in
    [windowsWithShortcuts] does not return: the test for the missing
    object only logs, and the next line reads a property of [undefined].
    The two-argument form does the same when nothing was registered for
    any window. *)
Theorem unregister_unknown_window_throws (win : Window) (state accelerator : string)
    (w : World) :
  (win ∉ destroyed w →
   windowsWithShortcuts w !! WebContents win = None →
   unregister (Some win) state (AccString accelerator) w
   = Raise (TypeError "Cannot read properties of undefined")
           (world_of (_checkAccelerator accelerator w))) ∧
  (windowsWithShortcuts w !! ANY_WINDOW = None →
   unregister None state (AccString accelerator) w
   = Raise (TypeError "Cannot read properties of undefined")
           (world_of (_checkAccelerator accelerator w))).
Proof.
  split.
  - intros Hlive Hwin. simpl. unfold unregister_on, mbind, M_bind, gets.
    rewrite bool_decide_eq_false_2 by done.
    unfold unregister_string, mbind, M_bind. rewrite checkAccelerator_returns.
    unfold gets. by rewrite checkAccelerator_registry, Hwin.
  - intros Hany. simpl.
    unfold unregister_string, mbind, M_bind. rewrite checkAccelerator_returns.
    unfold gets. by rewrite checkAccelerator_registry, Hany.
Qed.
End Properties.

(** ** The dispatcher *)

Section DispatcherProperties.
Context {collaborators : Collaborators} {callbacks : Callbacks}.

Lemma scan_snapshot_find event l w :
  scan_snapshot event l w =
    match find (hits event) l with
    | Some s => ([callback s], run_callback (callback s) w)
    | None => ([], Return tt w)
    end.
Proof.
  induction l as [|s l IH]; simpl; [done|].
  by destruct (hits event s).
Qed.

(** The loop over the live array, from index [i], fires the callback of
    the first hit among the elements from [i] on. *)
Lemma onBeforeInput_loop_find r event w i :
  _onBeforeInput_loop r event w i =
    match find (hits event) (drop i (shortcuts w r)) with
    | Some s => ([callback s], run_callback (callback s) w)
    | None => ([], Return tt w)
    end.
Proof.
  funelim (_onBeforeInput_loop r event w i).
  - rewrite (drop_S _ _ _ Hs). simpl.
    destruct (hits event s); [done|]. assumption.
  - rewrite drop_ge; [done|]. by apply lookup_ge_None.
Qed.

Lemma onBeforeInput_find r input w :
  _onBeforeInput (OwnArray r) input w =
    if decide (input_type input = "keyUp") then ([], Return tt w)
    else match find (hits (_normalizeEvent input)) (shortcuts w r) with
         | Some s => ([callback s], run_callback (callback s) w)
         | None => ([], Return tt w)
         end.
Proof.
  unfold _onBeforeInput. case_decide; [done|].
  by rewrite onBeforeInput_loop_find, drop_0.
Qed.

(** One call of a handler calls at most one callback, whatever the
    handler closes over. *)
Lemma onBeforeInput_at_most_one v input w :
  length (fst (_onBeforeInput v input w)) ≤ 1.
Proof.
  destruct v as [r|name].
  - rewrite onBeforeInput_find. case_decide; simpl; [lia|].
    destruct (find _ _); simpl; lia.
  - unfold _onBeforeInput. case_decide; simpl; lia.
Qed.

(** An emission calls at most one callback for each handler it reaches. *)
Lemma call_listeners_at_most_one_each hs input w :
  length (fst (call_listeners hs input w)) ≤ length hs.
Proof.
  revert w. induction hs as [|h hs IH]; intros w; simpl; [lia|].
  pose proof (onBeforeInput_at_most_one (handler_array h) input w) as Hone.
  destruct (_onBeforeInput (handler_array h) input w) as [called [[] w'|e w']];
    simpl in *; [|lia].
  specialize (IH w'). destruct (call_listeners hs input w') as [called' o].
  simpl in *. rewrite length_app. lia.
Qed.

Lemma find_first_hit {A} (p : A → bool) pre x post :
  Forall (λ y, p y = false) pre → p x = true →
  find p (pre ++ x :: post) = Some x.
Proof.
  induction 1 as [|y pre Hy _ IH]; intros Hx; simpl.
  - by rewrite Hx.
  - rewrite Hy. by apply IH.
Qed.

Lemma find_no_hit {A} (p : A → bool) l :
  Forall (λ y, p y = false) l → find p l = None.
Proof.
  induction 1 as [|y l Hy _ IH]; simpl; [done|]. by rewrite Hy.
Qed.

Lemma hits_false event s :
  hits event s = false ↔ enabled s = false ∨ equals (eventStamp s) event = false.
Proof. unfold hits. apply andb_false_iff. Qed.

(** C1, as the code has it.  A key-release is ignored.  For any other
    event the handler of a state's array takes the event's [code], [key]
    and modifiers, scans the array in order and calls the callback of the
    first element whose [enabled] is true and whose descriptor equals the
    event, and nothing else: elements before it that are disabled, or
    that do not match, are passed over.  When no element is both enabled
    and equal to the event, it calls nothing.  So one call of a handler
    calls at most one callback, and a key event that reaches the handlers
    [hs] of a window calls at most one callback for each of them. *)
Theorem onBeforeInput_first_enabled_match (r : Ref) (input : Input) (w : World) :
  let event := {| code := input_code input; key := input_key input;
                  altKey := input_alt input; shiftKey := input_shift input;
                  metaKey := input_meta input; ctrlKey := input_control input |} in
  (input_type input = "keyUp" → _onBeforeInput (OwnArray r) input w = ([], Return tt w)) ∧
  (input_type input ≠ "keyUp" →
     (∀ pre s post,
        shortcuts w r = pre ++ s :: post →
        Forall (λ x, enabled x = false ∨ equals (eventStamp x) event = false) pre →
        enabled s = true →
        equals (eventStamp s) event = true →
        _onBeforeInput (OwnArray r) input w
        = ([callback s], run_callback (callback s) w)) ∧
     (Forall (λ x, enabled x = false ∨ equals (eventStamp x) event = false)
             (shortcuts w r) →
        _onBeforeInput (OwnArray r) input w = ([], Return tt w))) ∧
  length (fst (_onBeforeInput (OwnArray r) input w)) ≤ 1 ∧
  (∀ hs, length (fst (call_listeners hs input w)) ≤ length hs).
Proof.
  intros event. change event with (_normalizeEvent input). clear event.
  split; [|split; [|split]].
  - intros Hup. rewrite onBeforeInput_find. by rewrite decide_True.
  - intros Hdown. rewrite onBeforeInput_find, decide_False by done. split.
    + intros pre s post Hl Hpre Hon Heq. rewrite Hl.
      rewrite (find_first_hit _ pre s post); [done| |].
      * eapply Forall_impl; [exact Hpre|]. intros x Hx. by apply hits_false.
      * unfold hits. by rewrite Hon, Heq.
    + intros Hnone. rewrite find_no_hit; [done|].
      eapply Forall_impl; [exact Hnone|]. intros x Hx. by apply hits_false.
  - apply onBeforeInput_at_most_one.
  - intros hs. apply call_listeners_at_most_one_each.
Qed.

Lemma find_hits_disabled event l :
  find (hits event) (map (set_enabled false) l) = None.
Proof.
  apply find_no_hit, Forall_forall. intros x Hx%list_elem_of_In%in_map_iff.
  by destruct Hx as (y & <- & _).
Qed.

(** A handler over an array whose elements are all disabled calls
    nothing and changes nothing. *)
Lemma onBeforeInput_disabled r input w l :
  shortcuts w r = map (set_enabled false) l →
  _onBeforeInput (OwnArray r) input w = ([], Return tt w).
Proof.
  intros Hl. rewrite onBeforeInput_find. case_decide; [done|].
  by rewrite Hl, find_hits_disabled.
Qed.

(** C6.  [enableOnlyForState(win, state)] gives every shortcut of every
    array of the window's object the flag [state === currState], where
    [currState] is the name the array is stored under, and leaves
    descriptors, callbacks and the registry as they were.  The handler
    of an array stored under another name then calls no callback,
    whatever the key event.  The states of the object are taken to hold
    distinct arrays, as they do in every reachable world
    ([reachable_no_shared_array]). *)
Theorem enableOnlyForState_flags (win : Window) (state : string) (w : World)
    (o : gmap string Ref) :
  windowsWithShortcuts w !! WebContents win = Some o →
  (∀ s1 s2 r, o !! s1 = Some r → o !! s2 = Some r → s1 = s2) →
  ∃ w', enableOnlyForState win state w = Return tt w' ∧
    windowsWithShortcuts w' = windowsWithShortcuts w ∧
    (∀ currState r, o !! currState = Some r →
       shortcuts w' r
       = map (set_enabled (bool_decide (state = currState))) (shortcuts w r) ∧
       Forall (λ s, enabled s = bool_decide (state = currState)) (shortcuts w' r)) ∧
    (∀ currState r input, o !! currState = Some r → currState ≠ state →
       _onBeforeInput (OwnArray r) input w' = ([], Return tt w')).
Proof.
  intros Hwin Hinj.
  destruct (for_in_enable_each (λ currState, bool_decide (state = currState)) o w)
    as (w' & Hrun & Hreg & Hflags).
  { intros s1 s2 r H1 H2. by rewrite (Hinj s1 s2 r H1 H2). }
  exists w'. split.
  { unfold enableOnlyForState, mbind, M_bind, gets. rewrite Hwin. exact Hrun. }
  split; [exact Hreg|]. split.
  - intros currState r Hr. split; [by apply Hflags|].
    rewrite (Hflags currState r Hr). apply Forall_forall.
    intros x Hx%list_elem_of_In%in_map_iff. by destruct Hx as (y & <- & _).
  - intros currState r input Hr Hne.
    apply (onBeforeInput_disabled r input w' (shortcuts w r)).
    rewrite (Hflags currState r Hr). by rewrite bool_decide_eq_false_2.
Qed.

Lemma existsb_set_enabled (p : KeyEvent → bool) b l :
  existsb (λ s, p (eventStamp s)) (map (set_enabled b) l)
  = existsb (λ s, p (eventStamp s)) l.
Proof. induction l as [|x l IH]; simpl; [done|]. by rewrite IH. Qed.

(** C10.  [isRegistered] does not look at [enabled]: when some shortcut
    under [(win, state)] has a descriptor equal to the accelerator's, it
    returns [true] whatever the flags are.  After [disableAll(win)] it
    still returns [true], while the handler of that array calls nothing
    for any key event. *)
Theorem isRegistered_ignores_enabled (win : Window) (state accelerator : string)
    (w : World) (o : gmap string Ref) (r : Ref) (s : Shortcut) (ev : KeyEvent) :
  windowsWithShortcuts w !! WebContents win = Some o →
  o !! state = Some r →
  s ∈ shortcuts w r →
  toKeyEvent accelerator = Descriptor ev →
  equals (eventStamp s) ev = true →
  (∃ w', isRegistered win state accelerator w = Return true w') ∧
  (∃ w1, disableAll win w = Return tt w1 ∧
     Forall (λ x, enabled x = false) (shortcuts w1 r) ∧
     (∃ w', isRegistered win state accelerator w1 = Return true w') ∧
     (∀ input, _onBeforeInput (OwnArray r) input w1 = ([], Return tt w1))).
Proof.
  intros Hwin Hstate Hs Hparse Heq.
  assert (existsb (λ x, equals (eventStamp x) ev) (shortcuts w r) = true) as Hex.
  { apply existsb_exists. exists s. split; [by apply list_elem_of_In|done]. }
  split.
  { eexists. rewrite isRegistered_cases. simpl.
    rewrite Hwin, (read_state_own _ _ _ Hstate), Hparse. by rewrite Hex. }
  destruct (for_in_enable_each (λ _, false) o w) as (w1 & Hrun & Hreg & Hflags); [done|].
  exists w1. split.
  { unfold disableAll, mbind, M_bind, gets. rewrite Hwin. exact Hrun. }
  specialize (Hflags state r Hstate). simpl in Hflags. split; [|split].
  - rewrite Hflags. apply Forall_forall.
    intros x Hx%list_elem_of_In%in_map_iff. by destruct Hx as (y & <- & _).
  - eexists. rewrite isRegistered_cases. simpl.
    rewrite Hreg, Hwin, (read_state_own _ _ _ Hstate), Hparse.
    rewrite Hflags.
    rewrite (existsb_set_enabled (λ e, equals e ev)).
    by rewrite Hex.
  - intros input. by apply (onBeforeInput_disabled r input w1 (shortcuts w r)).
Qed.
End DispatcherProperties.

(** ** Unregistration *)

Section UnregisterProperties.
Context {collaborators : Collaborators}.

(** What the body of [unregister] does when the window has an object
    and the object an array for the state. *)
Lemma unregister_string_cases wc state accelerator w o r :
  windowsWithShortcuts w !! wc = Some o → o !! state = Some r →
  unregister_string wc state accelerator w =
    let w1 := world_of (_checkAccelerator accelerator w) in
    match toKeyEvent accelerator with
    | Rejected e => Raise e w1
    | Descriptor ev =>
        match list_find (λ s, equals (eventStamp s) ev = true) (shortcuts w r) with
        | None => Return tt w1
        | Some (n, _) =>
            let w2 := write_items r (delete n) w1 in
            if decide (length (delete n (shortcuts w r)) = 0) then
              match removeListener (read_array w r) with
              | None =>
                  Raise (TypeError "shortcutsOfWindow.removeListener is not a function") w2
              | Some t =>
                  Return tt (with_registry (alter (delete state) wc) (run_teardown t w2))
              end
            else Return tt w2
        end
    end.
Proof.
  intros Hwc Hstate.
  unfold unregister_string, mbind, M_bind. rewrite checkAccelerator_returns.
  unfold gets at 1. rewrite checkAccelerator_registry, Hwc, (read_state_own _ _ _ Hstate).
  unfold call_toKeyEvent. destruct (toKeyEvent accelerator) as [ev|e]; [|done].
  unfold mret at 1, M_ret at 1.
  unfold gets at 1. rewrite checkAccelerator_shortcuts.
  pose proof (findShortcut_spec ev (shortcuts w r)) as Hidx.
  destruct (list_find _ (shortcuts w r)) as [[n x]|]; simpl.
  - rewrite Hidx. rewrite decide_False by lia. rewrite Nat2Z.id.
    rewrite shortcuts_write_items_eq, checkAccelerator_shortcuts.
    case_decide as Hlen; [|done].
    unfold call_removeListener. rewrite removeListener_write_items.
    unfold read_array at 1. rewrite checkAccelerator_arrays. fold (read_array w r).
    by destruct (removeListener (read_array w r)) as [t|].
  - rewrite Hidx. by rewrite decide_True.
Qed.

(** What it does when reading the state name gives [undefined], and when
    it gives a member of [Object.prototype]. *)
Lemma unregister_string_no_array wc state accelerator w o :
  windowsWithShortcuts w !! wc = Some o → o !! state = None →
  unregister_string wc state accelerator w =
    let w1 := world_of (_checkAccelerator accelerator w) in
    if is_inherited state then
      match toKeyEvent accelerator with
      | Rejected e => Raise e w1
      | Descriptor _ => Raise (TypeError "shortcutsOfWindow is not iterable") w1
      end
    else Return tt w1.
Proof.
  intros Hwc Hstate.
  unfold unregister_string, mbind, M_bind. rewrite checkAccelerator_returns.
  unfold gets at 1. rewrite checkAccelerator_registry, Hwc. unfold read_state.
  rewrite Hstate. simpl. destruct (is_inherited state); [|done].
  unfold call_toKeyEvent. by destruct (toKeyEvent accelerator).
Qed.

Lemma unregister_string_no_object wc state accelerator w :
  windowsWithShortcuts w !! wc = None →
  unregister_string wc state accelerator w
  = Raise (TypeError "Cannot read properties of undefined")
          (world_of (_checkAccelerator accelerator w)).
Proof.
  intros Hwc. unfold unregister_string, mbind, M_bind. rewrite checkAccelerator_returns.
  unfold gets. by rewrite checkAccelerator_registry, Hwc.
Qed.

Lemma unregister_on_live win state accelerator w :
  win ∉ destroyed w →
  unregister_on win state accelerator w
  = unregister_string (WebContents win) state accelerator w.
Proof.
  intros Hlive. unfold unregister_on, mbind, M_bind, gets.
  by rewrite bool_decide_eq_false_2.
Qed.

(** Whatever the outcome, the array has lost the first match and no
    other array has changed. *)
Lemma unregister_string_shortcuts wc state accelerator w o r ev n x :
  windowsWithShortcuts w !! wc = Some o → o !! state = Some r →
  toKeyEvent accelerator = Descriptor ev →
  list_find (λ s, equals (eventStamp s) ev = true) (shortcuts w r) = Some (n, x) →
  let w' := world_of (unregister_string wc state accelerator w) in
  shortcuts w' r = delete n (shortcuts w r) ∧
  (∀ r', r' ≠ r → shortcuts w' r' = shortcuts w r').
Proof.
  intros Hwc Hstate Hparse Hfind. simpl.
  rewrite (unregister_string_cases _ _ _ _ _ _ Hwc Hstate). simpl.
  rewrite Hparse, Hfind.
  assert (∀ t r', shortcuts (with_registry (alter (delete state) wc)
            (run_teardown t (write_items r (delete n)
               (world_of (_checkAccelerator accelerator w))))) r'
          = shortcuts (write_items r (delete n)
               (world_of (_checkAccelerator accelerator w))) r') as Htd.
  { intros t r'. unfold shortcuts, read_array. simpl. by rewrite run_teardown_arrays. }
  case_decide; [destruct (removeListener (read_array w r)) as [t|]|]; simpl;
    (split; [|intros r' Hne]); rewrite ?Htd;
    rewrite ?shortcuts_write_items_eq, ?shortcuts_write_items_ne by congruence;
    by rewrite checkAccelerator_shortcuts.
Qed.

(** C3.  When [unregister] removes the only shortcut of the only array
    of a window's object, the array is dropped from the object, but the
    object itself stays in [windowsWithShortcuts] with no array left:
    the test [Object.keys(...) === 0] that guards the removal compares
    an array with a number and never holds. *)
Theorem unregister_last_keeps_bucket (win : Window) (state accelerator : string)
    (w : World) (r : Ref) (s : Shortcut) (t : Teardown) (ev : KeyEvent) :
  win ∉ destroyed w →
  windowsWithShortcuts w !! WebContents win = Some {[ state := r ]} →
  shortcuts w r = [s] →
  removeListener (read_array w r) = Some t →
  toKeyEvent accelerator = Descriptor ev →
  equals (eventStamp s) ev = true →
  ∃ w', unregister (Some win) state (AccString accelerator) w = Return tt w' ∧
        shortcuts w' r = [] ∧
        windowsWithShortcuts w' !! WebContents win = Some ∅.
Proof.
  intros Hlive Hwin Hitems Htd Hparse Heq. simpl.
  rewrite (unregister_on_live _ _ _ _ Hlive).
  rewrite (unregister_string_cases _ _ _ _ {[ state := r ]} r Hwin);
    [|by apply lookup_singleton_eq].
  simpl. rewrite Hparse, Hitems. simpl.
  destruct (decide (equals (eventStamp s) ev = true)) as [_|]; [|done].
  simpl. rewrite Htd. eexists. split; [reflexivity|]. split.
  - unfold shortcuts at 1, read_array. simpl. rewrite run_teardown_arrays.
    change (shortcuts (write_items r (delete 0)
              (world_of (_checkAccelerator accelerator w))) r = []).
    by rewrite shortcuts_write_items_eq, checkAccelerator_shortcuts, Hitems.
  - simpl. rewrite run_teardown_registry. simpl.
    rewrite checkAccelerator_registry, lookup_alter_eq, Hwin. simpl.
    by rewrite delete_singleton_eq.
Qed.
End UnregisterProperties.

(** ** Callbacks that change the array being scanned *)

Section Reentrancy.
Context {collaborators : Collaborators} {callbacks : Callbacks}.

(** C5.  The handler reads the live array at every step and copies
    nothing, yet for every behaviour of the callbacks it does exactly
    what a scan over a copy taken at the start of the call does: the
    array cannot change before a callback runs, and the scan ends when
    one has run.  When the callback that fires unregisters an
    accelerator of the same array, the call leaves the array without the
    first shortcut matching that accelerator and with every other
    shortcut in place and in order, no other array changes, and later
    events are dispatched over exactly the remaining shortcuts. *)
Theorem onBeforeInput_scan_is_snapshot :
  (∀ r input w, _onBeforeInput (OwnArray r) input w = dispatch_snapshot r input w) ∧
  (∀ win state accelerator w o r s ev n x input,
     win ∉ destroyed w →
     windowsWithShortcuts w !! WebContents win = Some o →
     o !! state = Some r →
     input_type input ≠ "keyUp" →
     find (hits (_normalizeEvent input)) (shortcuts w r) = Some s →
     run_callback (callback s) w
     = unregister (Some win) state (AccString accelerator) w →
     toKeyEvent accelerator = Descriptor ev →
     list_find (λ y, equals (eventStamp y) ev = true) (shortcuts w r) = Some (n, x) →
     let w' := world_of (snd (_onBeforeInput (OwnArray r) input w)) in
     fst (_onBeforeInput (OwnArray r) input w) = [callback s] ∧
     shortcuts w' r = delete n (shortcuts w r) ∧
     (∀ r', r' ≠ r → shortcuts w' r' = shortcuts w r') ∧
     (∀ input', input_type input' ≠ "keyUp" →
        _onBeforeInput (OwnArray r) input' w'
        = scan_snapshot (_normalizeEvent input') (delete n (shortcuts w r)) w')).
Proof.
  assert (∀ r input w, _onBeforeInput (OwnArray r) input w = dispatch_snapshot r input w)
    as Hsnap.
  { intros r input w. rewrite onBeforeInput_find. unfold dispatch_snapshot.
    case_decide; [done|]. simpl. by rewrite scan_snapshot_find. }
  split; [exact Hsnap|].
  intros win state accelerator w o r s ev n x input
    Hlive Hwin Hstate Hdown Hfire Hcb Hparse Hrm.
  simpl. rewrite onBeforeInput_find, decide_False by done. rewrite Hfire. simpl.
  rewrite Hcb. simpl. rewrite (unregister_on_live _ _ _ _ Hlive).
  destruct (unregister_string_shortcuts _ _ _ _ _ _ _ _ _ Hwin Hstate Hparse Hrm)
    as [Hr Hother].
  simpl in Hr, Hother.
  split; [done|]. split; [exact Hr|]. split; [exact Hother|].
  intros input' Hdown'. rewrite Hsnap. unfold dispatch_snapshot.
  rewrite decide_False by done. simpl. by rewrite Hr.
Qed.
End Reentrancy.

(** ** Registration *)

Section RegisterProperties.
Context {collaborators : Collaborators}.

Lemma forEach_modify {A} (f : A → World → World) l w :
  forEach (λ x, modify (f x)) l w = Return tt (foldl (λ w' x, f x w') w l).
Proof.
  revert w. induction l as [|x l IH]; intros w; simpl; [done|].
  unfold mbind, M_bind, modify at 1. by rewrite IH.
Qed.

Lemma listeners_of_wc_on c h w v :
  listeners_of (wc_on c h w) v
  = if decide (v = c) then listeners_of w v ++ [h] else listeners_of w v.
Proof.
  unfold listeners_of at 1, wc_on. simpl. case_decide as Hv.
  - subst v. by rewrite lookup_insert_eq.
  - by rewrite lookup_insert_ne.
Qed.

Lemma hooks_of_wc_once_closed c t w v :
  hooks_of (wc_once_closed c t w) v
  = if decide (v = c) then hooks_of w v ++ [t] else hooks_of w v.
Proof.
  unfold hooks_of at 1, wc_once_closed. simpl. case_decide as Hv.
  - subst v. by rewrite lookup_insert_eq.
  - by rewrite lookup_insert_ne.
Qed.

Lemma foldl_enableAppShortcuts h l w :
  let w' := foldl (λ w' win, enableAppShortcuts h win w') w l in
  windowsWithShortcuts w' = windowsWithShortcuts w ∧
  arrays w' = arrays w ∧
  memberRemoveListener w' = memberRemoveListener w ∧
  appListeners w' = appListeners w ∧
  (∀ v, listeners_of w' v = listeners_of w v ++ replicate (length (filter (v =.) l)) h) ∧
  (∀ v, hooks_of w' v
        = hooks_of w v ++ replicate (length (filter (v =.) l)) (DetachFromWindow v h)).
Proof.
  revert w. induction l as [|win l IH]; intros w; simpl.
  - repeat split; try done; intros v; by rewrite app_nil_r.
  - destruct (IH (enableAppShortcuts h win w)) as (Hreg & Harr & Hmem & Happ & Hls & Hhs).
    simpl in *. rewrite Hreg, Harr, Hmem, Happ. repeat split; try done.
    + intros v. rewrite Hls. unfold enableAppShortcuts.
      change (listeners_of (wc_once_closed win (DetachFromWindow win h) (wc_on win h w)) v)
        with (listeners_of (wc_on win h w) v).
      rewrite listeners_of_wc_on, filter_cons.
      destruct (decide (v = win)) as [->|Hne].
      * simpl. by rewrite <- app_assoc.
      * done.
    + intros v. rewrite Hhs. unfold enableAppShortcuts.
      rewrite hooks_of_wc_once_closed, filter_cons.
      change (hooks_of (wc_on win h w) v) with (hooks_of w v).
      destruct (decide (v = win)) as [->|Hne].
      * simpl. by rewrite <- app_assoc.
      * done.
Qed.

(** The branch of [register] that attaches a handler: the registry is
    left alone, the value the handler closes over gets its
    [removeListener], an array keeps its elements, and the handler is
    attached. *)
Lemma install_listener_spec wc v w :
  let h := {| handler_id := nextHandler w; handler_array := v |} in
  ∃ w', install_listener wc v w = Return tt w' ∧
    windowsWithShortcuts w' = windowsWithShortcuts w ∧
    with_removeListener v (teardown_for wc h) w w' ∧
    handler_attached wc h w w' ∧
    closed_hooks_added wc h w w' ∧
    nextHandler w' = S (nextHandler w).
Proof.
  intros h. destruct wc as [|c].
  - unfold install_listener, mbind, M_bind, new_handler, gets.
    rewrite forEach_modify. simpl. fold h.
    destruct (foldl_enableAppShortcuts h (allWindows w) (with_nextHandler (S (nextHandler w)) w))
      as (Hreg & Harr & Hmem & Happ & Hls & Hhs).
    assert (nextHandler (foldl (λ w' win, enableAppShortcuts h win w')
              (with_nextHandler (S (nextHandler w)) w) (allWindows w)) = S (nextHandler w))
      as Hnext.
    { generalize (allWindows w). intros l.
      change (S (nextHandler w)) with (nextHandler (with_nextHandler (S (nextHandler w)) w))
        at 2.
      generalize (with_nextHandler (S (nextHandler w)) w). intros w0. revert w0.
      induction l as [|win l IH]; intros w0; simpl; [done|]. by rewrite IH. }
    simpl in *. eexists. split; [reflexivity|]. split; [|split; [|split; [|split]]].
    + destruct v; simpl; by rewrite Hreg.
    + destruct v as [r|name]; simpl.
      * rewrite Harr. unfold shortcuts, read_array. simpl. by rewrite Harr, Hmem.
      * by rewrite Harr, Hmem.
    + split.
      * destruct v; simpl; by rewrite Happ.
      * intros v'. destruct v; apply Hls.
    + intros v'. destruct v; apply Hhs.
    + destruct v; exact Hnext.
  - eexists. split; [reflexivity|]. split; [by destruct v|]. split; [by destruct v|].
    split; [|split; [|by destruct v]].
    + split; [|split]; [| |by destruct v].
      * transitivity (listeners_of (wc_on c h (with_nextHandler (S (nextHandler w)) w)) c);
          [by destruct v|].
        by rewrite listeners_of_wc_on, decide_True.
      * intros v' Hv.
        transitivity (listeners_of (wc_on c h (with_nextHandler (S (nextHandler w)) w)) v');
          [by destruct v|].
        by rewrite listeners_of_wc_on, decide_False.
    + intros v'. simpl.
      transitivity (hooks_of (wc_once_closed c (DetachFromWindow c h) w) v');
        [by destruct v|].
      rewrite hooks_of_wc_once_closed. case_decide; [done|]. by rewrite app_nil_r.
Qed.

Lemma closed_hooks_added_write_items wc h w w' r f :
  closed_hooks_added wc h w w' → closed_hooks_added wc h w (write_items r f w').
Proof. done. Qed.

Lemma handler_attached_write_items wc h w w' r f :
  handler_attached wc h w w' → handler_attached wc h w (write_items r f w').
Proof. by destruct wc. Qed.

Lemma shortcuts_fresh w : shortcuts w (fresh (dom (arrays w))) = [].
Proof.
  unfold shortcuts, read_array.
  assert (arrays w !! fresh (dom (arrays w)) = None) as ->; [|done].
  apply not_elem_of_dom, is_fresh.
Qed.

Lemma shortcuts_in_store w r : shortcuts w r ≠ [] →
  arrays w !! r = Some {| items := shortcuts w r; removeListener := removeListener (read_array w r) |}.
Proof.
  unfold shortcuts, read_array. destruct (arrays w !! r) as [[l t]|]; simpl; [done|].
  by intros [].
Qed.

(** The end of [register]: the parser is called, and its descriptor is
    pushed on the array. *)
Lemma parse_and_push r accelerator cb w :
  (eventStamp ← call_toKeyEvent accelerator;
   modify (write_items r (λ l, l ++
     [ {| eventStamp := eventStamp; callback := cb; enabled := true |} ]))) w
  = ends_with_parser accelerator
      (match toKeyEvent accelerator with
       | Descriptor _ => write_items r (λ l, l ++ pushed accelerator cb) w
       | Rejected _ => w
       end).
Proof.
  unfold mbind, M_bind, call_toKeyEvent, ends_with_parser, pushed.
  by destruct (toKeyEvent accelerator).
Qed.

Lemma register_tail_spec wc r accelerator cb w :
  let h := {| handler_id := nextHandler w; handler_array := OwnArray r |} in
  ∃ w',
    (len ← gets (λ w, length_of w (OwnArray r));
     (if decide (len = Some 0) then install_listener wc (OwnArray r) else mret tt) ;;
     eventStamp ← call_toKeyEvent accelerator;
     push (OwnArray r) {| eventStamp := eventStamp; callback := cb; enabled := true |}) w
    = ends_with_parser accelerator w' ∧
    windowsWithShortcuts w' = windowsWithShortcuts w ∧
    (shortcuts w r = [] →
     arrays w' = <[r := {| items := pushed accelerator cb;
                           removeListener := Some (teardown_for wc h) |}]> (arrays w) ∧
     handler_attached wc h w w' ∧
     closed_hooks_added wc h w w' ∧
     nextHandler w' = S (nextHandler w)) ∧
    (shortcuts w r ≠ [] →
     arrays w' = <[r := {| items := shortcuts w r ++ pushed accelerator cb;
                           removeListener := removeListener (read_array w r) |}]> (arrays w) ∧
     listeners_unchanged w w').
Proof.
  intros h. unfold mbind at 1, M_bind at 1, gets. simpl.
  destruct (decide (Some (length (shortcuts w r)) = Some 0)) as [Hlen|Hlen].
  - assert (shortcuts w r = []) as Hnil.
    { apply length_zero_iff_nil. congruence. }
    destruct (install_listener_spec wc (OwnArray r) w)
      as (w2 & Hrun & Hreg & [Harr Hmem] & Hatt & Hhooks & Hnext).
    unfold mbind at 1, M_bind at 1. rewrite Hrun. rewrite parse_and_push.
    eexists. split; [reflexivity|].
    assert (shortcuts w2 r = []) as Hnil2.
    { unfold shortcuts, read_array. rewrite Harr, lookup_insert_eq. simpl. exact Hnil. }
    split; [|split; [|done]].
    + by destruct (toKeyEvent accelerator).
    + intros _. unfold pushed. destruct (toKeyEvent accelerator) as [ev|e]; simpl.
      * split; [|split; [by apply handler_attached_write_items|by split]].
        rewrite Harr, insert_insert_eq. unfold read_array.
        rewrite Harr, lookup_insert_eq. simpl. by rewrite Hnil2.
      * split; [|split; [exact Hatt|by split]]. by rewrite Harr, Hnil.
  - assert (shortcuts w r ≠ []) as Hne.
    { intros Hnil. by rewrite Hnil in Hlen. }
    unfold mbind at 1, M_bind at 1, mret at 1, M_ret at 1. rewrite parse_and_push.
    eexists. split; [reflexivity|]. split; [|split; [done|]].
    + by destruct (toKeyEvent accelerator).
    + intros _. unfold pushed. destruct (toKeyEvent accelerator) as [ev|e]; simpl; [done|].
      split; [|done]. rewrite app_nil_r. symmetry. apply insert_id.
      by apply shortcuts_in_store.
Qed.

(** The part of [register] that follows the lookup of the window's object
    [o], when the state name reads as an array or as [undefined]: how the
    call ends, and what it leaves in the registry, in the store and on the
    listeners. *)
Lemma register_in_spec wc o state accelerator cb w :
  windowsWithShortcuts w !! wc = Some o →
  (o !! state = None → is_inherited state = false) →
  let r := match o !! state with
           | Some r0 => r0
           | None => fresh (dom (arrays w))
           end in
  let h := {| handler_id := nextHandler w; handler_array := OwnArray r |} in
  ∃ w',
    register_in wc o state accelerator cb w = ends_with_parser accelerator w' ∧
    windowsWithShortcuts w' = <[wc := <[state := r]> o]> (windowsWithShortcuts w) ∧
    arrays w'
    = <[r := {| items := shortcuts w r ++ pushed accelerator cb;
                removeListener := if decide (shortcuts w r = [])
                                  then Some (teardown_for wc h)
                                  else removeListener (read_array w r) |}]> (arrays w) ∧
    (shortcuts w r = [] → handler_attached wc h w w') ∧
    (shortcuts w r ≠ [] → listeners_unchanged w w') ∧
    (shortcuts w r = [] →
     closed_hooks_added wc h w w' ∧ nextHandler w' = S (nextHandler w)).
Proof.
  intros Hwc Hown r h. unfold register_in, group_for, read_state.
  destruct (o !! state) as [r0|] eqn:Hstate.
  - subst r. unfold mbind at 1, M_bind at 1, mret at 1, M_ret at 1.
    destruct (register_tail_spec wc r0 accelerator cb w) as (w' & Hrun & Hreg & Hnil & Hne).
    exists w'. split; [exact Hrun|].
    split. { rewrite Hreg. by rewrite (insert_id o state r0 Hstate), insert_id. }
    destruct (decide (shortcuts w r0 = [])) as [Hempty|Hfull].
    + destruct (Hnil Hempty) as (Harr & Hatt & Hhooks & Hnext).
      split; [by rewrite Harr, Hempty|]. done.
    + destruct (Hne Hfull) as [Harr Hun]. split; [exact Harr|]. done.
  - rewrite (Hown eq_refl). subst r.
    unfold mbind at 1 2, M_bind at 1 2, new_array, modify at 1, mret at 1, M_ret at 1.
    set (r := fresh (dom (arrays w))) in *.
    set (w2 := with_registry (alter (insert state r) wc)
                 (with_arrays (insert r empty_array) w)).
    assert (shortcuts w2 r = []) as Hnew.
    { unfold shortcuts, read_array, w2. simpl. by rewrite lookup_insert_eq. }
    pose proof (shortcuts_fresh w) as Hfresh. fold r in Hfresh.
    destruct (register_tail_spec wc r accelerator cb w2) as (w' & Hrun & Hreg & Hnil & _).
    destruct (Hnil Hnew) as (Harr & Hatt & Hhooks & Hnext).
    exists w'. split; [exact Hrun|]. split; [|split; [|split; [|split]]].
    + rewrite Hreg. unfold w2. simpl.
      apply map_eq. intros k. destruct (decide (k = wc)) as [->|Hne].
      * by rewrite lookup_alter_eq, lookup_insert_eq, Hwc.
      * by rewrite lookup_alter_ne, lookup_insert_ne.
    + rewrite decide_True by done. rewrite Hfresh, Harr. unfold w2. simpl.
      by rewrite insert_insert_eq.
    + intros _. exact Hatt.
    + done.
    + intros _. split; [exact Hhooks|exact Hnext].
Qed.

Lemma checkAccelerator_console accelerator w :
  ∃ f, _checkAccelerator accelerator w = Return tt (with_console f w).
Proof.
  unfold _checkAccelerator. destruct (isAccelerator accelerator).
  - exists id. by destruct w.
  - by eexists.
Qed.

Lemma shortcuts_array_for w wc state :
  shortcuts w (array_for w wc state) = shortcuts_under w wc state.
Proof.
  unfold array_for, shortcuts_under.
  destruct (group_of w wc state); [done|]. apply shortcuts_fresh.
Qed.

(** [register] for one string on the key [wc], under a state name that
    reads as an array or as [undefined]: how the call ends, and what it
    leaves in the registry, in the store and on the listeners. *)
Lemma register_string_spec wc state accelerator cb w :
  (group_of w wc state = None → is_inherited state = false) →
  let r := array_for w wc state in
  let h := {| handler_id := nextHandler w; handler_array := OwnArray r |} in
  let before := shortcuts_under w wc state in
  ∃ w',
    register_string (Some wc) state accelerator cb w = ends_with_parser accelerator w' ∧
    windowsWithShortcuts w'
    = <[wc := <[state := r]> (default ∅ (windowsWithShortcuts w !! wc))]>
        (windowsWithShortcuts w) ∧
    arrays w'
    = <[r := {| items := before ++ pushed accelerator cb;
                removeListener := if decide (before = [])
                                  then Some (teardown_for wc h)
                                  else removeListener (read_array w r) |}]> (arrays w) ∧
    (before = [] → handler_attached wc h w w') ∧
    (before ≠ [] → listeners_unchanged w w') ∧
    (before = [] → closed_hooks_added wc h w w' ∧ nextHandler w' = S (nextHandler w)).
Proof.
  intros Hown r h before. subst before. rewrite <- (shortcuts_array_for w wc state). fold r.
  unfold register_string, mbind at 1, M_bind at 1.
  destruct (checkAccelerator_console accelerator w) as [f ->].
  unfold mbind, M_bind, bucket_for.
  change (windowsWithShortcuts (with_console f w)) with (windowsWithShortcuts w).
  assert (∀ r', shortcuts (with_console f w) r' = shortcuts w r') as Hsame by done.
  destruct (windowsWithShortcuts w !! wc) as [o|] eqn:Hwc.
  - destruct (register_in_spec wc o state accelerator cb (with_console f w) Hwc)
      as (w' & Hrun & Hreg & Harr & Hatt & Hun & Hhooks).
    { intros Hnone. apply Hown. unfold group_of. by rewrite Hwc. }
    assert (r = match o !! state with Some r0 => r0 | None => fresh (dom (arrays w)) end)
      as Hr.
    { unfold r, array_for, group_of. by rewrite Hwc. }
    simpl in Hreg, Harr, Hatt, Hun, Hhooks. rewrite <- Hr in Hreg, Harr, Hatt, Hun, Hhooks.
    exists w'. split; [exact Hrun|]. split; [exact Hreg|]. split; [exact Harr|].
    split; [exact Hatt|]. split; [exact Hun|exact Hhooks].
  - assert (windowsWithShortcuts (with_registry (insert wc ∅) (with_console f w)) !! wc
            = Some ∅) as Hwc'.
    { simpl. apply lookup_insert_eq. }
    destruct (register_in_spec wc ∅ state accelerator cb _ Hwc')
      as (w' & Hrun & Hreg & Harr & Hatt & Hun & Hhooks).
    { intros _. apply Hown. unfold group_of. by rewrite Hwc. }
    assert (r = fresh (dom (arrays w))) as Hr.
    { unfold r, array_for, group_of. by rewrite Hwc. }
    rewrite lookup_empty in Hreg, Harr, Hatt, Hun, Hhooks.
    simpl in Hreg, Harr, Hatt, Hun, Hhooks. rewrite <- Hr in Hreg, Harr, Hatt, Hun, Hhooks.
    exists w'. split; [exact Hrun|].
    split. { rewrite Hreg. simpl. by rewrite insert_insert_eq. }
    split; [exact Harr|]. split; [exact Hatt|]. split; [exact Hun|exact Hhooks].
Qed.

(** The part of [register] that follows the lookup of the window's
    object, when the state name reads as a member of [Object.prototype]:
    no array is made; a handler is attached when the member's [length]
    is 0; then the call throws, in the parser or at [push]. *)
Lemma register_in_inherited wc o state accelerator cb w :
  o !! state = None → is_inherited state = true →
  let h := {| handler_id := nextHandler w; handler_array := Inherited state |} in
  ∃ w',
    register_in wc o state accelerator cb w
    = Raise (match toKeyEvent accelerator with
             | Descriptor _ => TypeError "shortcutsOfWindow.push is not a function"
             | Rejected e => e
             end) w' ∧
    windowsWithShortcuts w' = windowsWithShortcuts w ∧
    arrays w' = arrays w ∧
    (length_of w (Inherited state) = Some 0 →
       handler_attached wc h w w' ∧
       memberRemoveListener w' = <[state := teardown_for wc h]> (memberRemoveListener w)) ∧
    (length_of w (Inherited state) ≠ Some 0 → w' = w).
Proof.
  intros Hstate Hin h. unfold register_in, group_for, read_state. rewrite Hstate, Hin.
  unfold mbind at 1 2, M_bind at 1 2, mret at 1, M_ret at 1, gets.
  destruct (decide (length_of w (Inherited state) = Some 0)) as [Hlen|Hlen].
  - destruct (install_listener_spec wc (Inherited state) w)
      as (w2 & Hrun & Hreg & [Harr Hmem] & Hatt & _).
    unfold mbind at 1, M_bind at 1. rewrite Hrun.
    exists w2. split.
    { unfold mbind, M_bind, call_toKeyEvent. by destruct (toKeyEvent accelerator). }
    split; [exact Hreg|]. split; [exact Harr|]. split; [done|]. done.
  - unfold mbind at 1, M_bind at 1, mret at 1, M_ret at 1.
    exists w. split.
    { unfold mbind, M_bind, call_toKeyEvent. by destruct (toKeyEvent accelerator). }
    done.
Qed.

Lemma register_string_inherited wc state accelerator cb w :
  group_of w wc state = None → is_inherited state = true →
  let w1 := world_of (_checkAccelerator accelerator w) in
  let h := {| handler_id := nextHandler w; handler_array := Inherited state |} in
  ∃ w',
    register_string (Some wc) state accelerator cb w
    = Raise (match toKeyEvent accelerator with
             | Descriptor _ => TypeError "shortcutsOfWindow.push is not a function"
             | Rejected e => e
             end) w' ∧
    windowsWithShortcuts w'
    = <[wc := default ∅ (windowsWithShortcuts w !! wc)]> (windowsWithShortcuts w) ∧
    arrays w' = arrays w ∧
    (length_of w (Inherited state) = Some 0 →
       handler_attached wc h w w' ∧
       memberRemoveListener w' = <[state := teardown_for wc h]> (memberRemoveListener w)) ∧
    (length_of w (Inherited state) ≠ Some 0 →
       listeners_unchanged w w' ∧ memberRemoveListener w' = memberRemoveListener w).
Proof.
  intros Hgroup Hin w1 h. unfold register_string, mbind at 1, M_bind at 1.
  destruct (checkAccelerator_console accelerator w) as [f ->].
  unfold mbind, M_bind, bucket_for.
  change (windowsWithShortcuts (with_console f w)) with (windowsWithShortcuts w).
  unfold group_of in Hgroup.
  destruct (windowsWithShortcuts w !! wc) as [o|] eqn:Hwc; simpl in Hgroup.
  - destruct (register_in_inherited wc o state accelerator cb (with_console f w) Hgroup Hin)
      as (w' & Hrun & Hreg & Harr & Hzero & Hnot).
    exists w'. split; [exact Hrun|].
    split. { rewrite Hreg. simpl. by rewrite insert_id. }
    split; [exact Harr|]. split.
    + intros Hlen. destruct (Hzero Hlen) as [Hatt Hmem]. split; [|exact Hmem].
      by destruct wc.
    + intros Hlen. by rewrite (Hnot Hlen).
  - destruct (register_in_inherited wc ∅ state accelerator cb
                (with_registry (insert wc ∅) (with_console f w)) (lookup_empty _) Hin)
      as (w' & Hrun & Hreg & Harr & Hzero & Hnot).
    exists w'. split; [exact Hrun|]. split; [exact Hreg|]. split; [exact Harr|]. split.
    + intros Hlen. destruct (Hzero Hlen) as [Hatt Hmem]. split; [|exact Hmem].
      by destruct wc.
    + intros Hlen. by rewrite (Hnot Hlen).
Qed.

Lemma ends_with_parser_returns accelerator w w' :
  ends_with_parser accelerator w = Return tt w' →
  w' = w ∧ ∃ ev, toKeyEvent accelerator = Descriptor ev.
Proof.
  unfold ends_with_parser. destruct (toKeyEvent accelerator) as [ev|e]; [|done].
  intros [= <-]. eauto.
Qed.

(** A call of [register] that returns has found an array under the state
    name, or made one. *)
Lemma register_string_returns_own wc state accelerator cb w w' :
  register_string (Some wc) state accelerator cb w = Return tt w' →
  group_of w wc state = None → is_inherited state = false.
Proof.
  intros Hrun Hgroup. destruct (is_inherited state) eqn:Hin; [|done].
  destruct (register_string_inherited wc state accelerator cb w Hgroup Hin)
    as (w2 & Hrun2 & _).
  by rewrite Hrun in Hrun2.
Qed.

(** After [register], whichever way it ends, the array of [(wc, state)]
    is the one [register] chose, it holds the old shortcuts followed by
    what was pushed, and no other array has changed. *)
Lemma register_string_after wc state accelerator cb w :
  (group_of w wc state = None → is_inherited state = false) →
  let w' := world_of (register_string (Some wc) state accelerator cb w) in
  group_of w' wc state = Some (array_for w wc state) ∧
  shortcuts w' (array_for w wc state) = shortcuts_under w wc state ++ pushed accelerator cb ∧
  (∀ r', r' ≠ array_for w wc state → read_array w' r' = read_array w r').
Proof.
  intros Hown.
  destruct (register_string_spec wc state accelerator cb w Hown)
    as (w'' & Hrun & Hreg & Harr & _).
  simpl. rewrite Hrun.
  assert (world_of (ends_with_parser accelerator w'') = w'') as ->.
  { unfold ends_with_parser. by destruct (toKeyEvent accelerator). }
  split; [|split].
  - unfold group_of at 1. rewrite Hreg, lookup_insert_eq. simpl. apply lookup_insert_eq.
  - unfold shortcuts at 1, read_array. by rewrite Harr, lookup_insert_eq.
  - intros r' Hne. unfold read_array. by rewrite Harr, lookup_insert_ne.
Qed.

(** The same for a call that returned. *)
Lemma register_string_group wc state accelerator cb w w' :
  register_string (Some wc) state accelerator cb w = Return tt w' →
  ∃ ev, toKeyEvent accelerator = Descriptor ev ∧
    group_of w' wc state = Some (array_for w wc state) ∧
    shortcuts w' (array_for w wc state)
    = shortcuts_under w wc state
      ++ [ {| eventStamp := ev; callback := cb; enabled := true |} ] ∧
    (∀ r', r' ≠ array_for w wc state → read_array w' r' = read_array w r').
Proof.
  intros Hrun.
  pose proof (register_string_after wc state accelerator cb w
                (register_string_returns_own _ _ _ _ _ _ Hrun)) as Hafter.
  destruct (register_string_spec wc state accelerator cb w
              (register_string_returns_own _ _ _ _ _ _ Hrun)) as (w'' & Hrun' & _).
  rewrite Hrun in Hrun'. symmetry in Hrun'.
  apply ends_with_parser_returns in Hrun' as [_ [ev Hparse]].
  rewrite Hrun in Hafter. simpl in Hafter. unfold pushed in Hafter. rewrite Hparse in Hafter.
  exists ev. split; [exact Hparse|]. exact Hafter.
Qed.

Lemma register_key_form win state accelerator cb w :
  register win state (AccString accelerator) cb w
  = register_string (Some (key_of win)) state accelerator cb w.
Proof. by destruct win. Qed.

(** C8, as the code has it.  [register] with one accelerator string
    that the parser accepts, under a state name that is not the name of a
    member of [Object.prototype], returns normally and leaves, under
    [(window, state)], the shortcuts that were there followed by one new
    shortcut with [enabled = true], whatever the world was before: the
    flags of other states play no part, and a shortcut with the same
    accelerator that is already there is kept, so the array grows by one.
    No other array changes.  When the parser throws for the accelerator,
    [register] throws the same exception and no array has changed. *)
Theorem register_appends_enabled_entry (win : option Window) (state accelerator : string)
    (cb : Callback) (w : World) :
  is_inherited state = false →
  (∀ ev, toKeyEvent accelerator = Descriptor ev →
     ∃ w' r,
       register win state (AccString accelerator) cb w = Return tt w' ∧
       group_of w' (key_of win) state = Some r ∧
       shortcuts_under w' (key_of win) state
       = shortcuts_under w (key_of win) state
         ++ [ {| eventStamp := ev; callback := cb; enabled := true |} ] ∧
       length (shortcuts_under w' (key_of win) state)
       = S (length (shortcuts_under w (key_of win) state)) ∧
       (∀ r', r' ≠ r → shortcuts w' r' = shortcuts w r')) ∧
  (∀ e, toKeyEvent accelerator = Rejected e →
     ∃ w',
       register win state (AccString accelerator) cb w = Raise e w' ∧
       shortcuts_under w' (key_of win) state = shortcuts_under w (key_of win) state ∧
       (∀ r', shortcuts w' r' = shortcuts w r')).
Proof.
  intros Hin. rewrite register_key_form.
  destruct (register_string_spec (key_of win) state accelerator cb w (λ _, Hin))
    as (w' & Hrun & _).
  pose proof (register_string_after (key_of win) state accelerator cb w (λ _, Hin))
    as (Hgroup & Hitems & Hother).
  rewrite Hrun in Hgroup, Hitems, Hother.
  unfold ends_with_parser, pushed in *.
  split.
  - intros ev Hparse. rewrite Hparse in *. simpl in *.
    exists w', (array_for w (key_of win) state).
    split; [exact Hrun|]. split; [exact Hgroup|].
    assert (shortcuts_under w' (key_of win) state
            = shortcuts w' (array_for w (key_of win) state)) as Hunder.
    { unfold shortcuts_under. by rewrite Hgroup. }
    split; [by rewrite Hunder|]. split.
    + rewrite Hunder, Hitems, length_app. simpl. lia.
    + intros r' Hne. unfold shortcuts. by rewrite (Hother r' Hne).
  - intros e Hparse. rewrite Hparse in *. simpl in *.
    exists w'. split; [exact Hrun|].
    assert (shortcuts_under w' (key_of win) state
            = shortcuts w' (array_for w (key_of win) state)) as Hunder.
    { unfold shortcuts_under. by rewrite Hgroup. }
    rewrite app_nil_r in Hitems. split; [by rewrite Hunder|].
    intros r'. destruct (decide (r' = array_for w (key_of win) state)) as [->|Hne].
    + rewrite Hitems. symmetry. apply shortcuts_array_for.
    + unfold shortcuts. by rewrite (Hother r' Hne).
Qed.

(** C4, as the code has it.  [register] with one accelerator string,
    under a state name that is not the name of a member of
    [Object.prototype], attaches a new key handler exactly when the array
    of that [(window, state)] was absent or empty before the call, however
    many shortcuts the window holds under other states; the handler closes
    over that array.  When the array already held a shortcut, no listener
    is attached.  The handler is attached before the accelerator is
    parsed, so this holds whether the call returns or throws what the
    parser throws. *)
Theorem register_installs_listener_iff_group_empty (win : option Window)
    (state accelerator : string) (cb : Callback) (w : World) :
  is_inherited state = false →
  ∃ w' r,
    register win state (AccString accelerator) cb w
    = match toKeyEvent accelerator with
      | Descriptor _ => Return tt w'
      | Rejected e => Raise e w'
      end ∧
    group_of w' (key_of win) state = Some r ∧
    (shortcuts_under w (key_of win) state = [] →
       handler_attached (key_of win)
         {| handler_id := nextHandler w; handler_array := OwnArray r |} w w') ∧
    (shortcuts_under w (key_of win) state ≠ [] → listeners_unchanged w w').
Proof.
  intros Hin. rewrite register_key_form.
  destruct (register_string_spec (key_of win) state accelerator cb w (λ _, Hin))
    as (w' & Hrun & _ & _ & Hatt & Hsame & _).
  pose proof (register_string_after (key_of win) state accelerator cb w (λ _, Hin))
    as (Hgroup & _).
  rewrite Hrun in Hgroup.
  assert (world_of (ends_with_parser accelerator w') = w') as Hw.
  { unfold ends_with_parser. by destruct (toKeyEvent accelerator). }
  rewrite Hw in Hgroup.
  exists w', (array_for w (key_of win) state).
  split; [exact Hrun|]. split; [exact Hgroup|]. split; [exact Hatt|exact Hsame].
Qed.
End RegisterProperties.
(** ** The invariant of the registry *)

Section Invariant.
Context {collaborators : Collaborators}.

Lemma kept_refl w : kept w w.
Proof. intros k s r Hg. by repeat split. Qed.

Lemma kept_trans w1 w2 w3 : kept w1 w2 → kept w2 w3 → kept w1 w3.
Proof.
  intros H12 H23 k s r Hg.
  destruct (H23 k s r Hg) as (Hg2 & Hd2 & Ht2).
  destruct (H12 k s r Hg2) as (Hg1 & Hd1 & Ht1).
  repeat split; auto.
Qed.

Lemma well_formed_kept w w' : well_formed w → kept w w' → well_formed w'.
Proof.
  intros Hwf Hkept k s r Hg.
  destruct (Hkept k s r Hg) as (Hg0 & Hd & Ht).
  destruct (Hwf k s r Hg0) as (Hd0 & Ht0 & Huniq).
  split; [by apply Hd|]. split; [by apply Ht|].
  intros k' s' Hg'. apply (Huniq k' s').
  by destruct (Hkept k' s' r Hg') as (? & _).
Qed.

(** A stretch of effectful iterations keeps what every iteration keeps,
    also when one of them throws. *)
Lemma forEach_invariant {A} (P : World → Prop) (f : A → M unit) l w :
  (∀ x w, P w → P (world_of (f x w))) → P w → P (world_of (forEach f l w)).
Proof.
  intros Hstep. revert w. induction l as [|x l IH]; intros w HP; simpl; [done|].
  unfold mbind, M_bind. specialize (Hstep x w HP).
  destruct (f x w) as [[] w'|e w']; simpl in *; [by apply IH|done].
Qed.

Lemma kept_same_store w w' :
  windowsWithShortcuts w' = windowsWithShortcuts w → arrays w' = arrays w → kept w w'.
Proof.
  intros Hreg Harr k s r Hg. unfold group_of, shortcuts, read_array in *.
  rewrite Hreg in Hg. rewrite Harr. by repeat split.
Qed.

Lemma kept_checkAccelerator accelerator w :
  kept w (world_of (_checkAccelerator accelerator w)).
Proof.
  apply kept_same_store; [apply checkAccelerator_registry|apply checkAccelerator_arrays].
Qed.

Lemma kept_write_items r f w : kept w (write_items r f w).
Proof.
  intros k s r' Hg. split; [exact Hg|]. split.
  - intros Hin. unfold write_items. simpl. apply elem_of_dom.
    destruct (decide (r = r')) as [->|Hne].
    + by rewrite lookup_insert_eq.
    + rewrite lookup_insert_ne by done. by apply elem_of_dom.
  - by rewrite removeListener_write_items.
Qed.

Lemma kept_enable_each b r w : kept w (world_of (enable_each b r w)).
Proof. apply kept_write_items. Qed.

Lemma kept_for_in_enable_each (f : string → bool) o w :
  kept w (world_of (for_in o (λ state r, enable_each (f state) r) w)).
Proof.
  destruct o as [byState|]; [|apply kept_refl]. simpl.
  apply (forEach_invariant (kept w)); [|apply kept_refl].
  intros [state r] w' Hkept. eapply kept_trans; [exact Hkept|apply kept_enable_each].
Qed.

Lemma group_of_drop_state w wc state k s r :
  group_of (with_registry (alter (delete state) wc) w) k s = Some r →
  group_of w k s = Some r ∧ ¬ (k = wc ∧ s = state).
Proof.
  unfold group_of. simpl. destruct (decide (k = wc)) as [->|Hne].
  - rewrite lookup_alter_eq. destruct (windowsWithShortcuts w !! wc) as [o|]; simpl; [|done].
    destruct (decide (s = state)) as [->|Hs].
    + by rewrite lookup_delete_eq.
    + rewrite lookup_delete_ne by done. intros Hg. split; [done|]. by intros [_ ?].
  - rewrite lookup_alter_ne by done. intros Hg. split; [done|]. by intros [? _].
Qed.

Lemma group_of_drop_key w wc k s r :
  group_of (with_registry (delete wc) w) k s = Some r → group_of w k s = Some r.
Proof.
  unfold group_of. simpl. destruct (decide (k = wc)) as [->|Hne].
  - by rewrite lookup_delete_eq.
  - by rewrite lookup_delete_ne.
Qed.

Lemma kept_drop_state w wc state : kept w (with_registry (alter (delete state) wc) w).
Proof.
  intros k s r Hg. apply group_of_drop_state in Hg as [Hg _]. by repeat split.
Qed.

Lemma kept_drop_key w wc : kept w (with_registry (delete wc) w).
Proof.
  intros k s r Hg. apply group_of_drop_key in Hg. by repeat split.
Qed.

Lemma kept_run_teardown t w : kept w (run_teardown t w).
Proof.
  apply kept_same_store; [apply run_teardown_registry|apply run_teardown_arrays].
Qed.

Lemma kept_call_removeListener r w : kept w (world_of (call_removeListener r w)).
Proof.
  unfold call_removeListener. destruct (removeListener (read_array w r)) as [t|]; simpl.
  - apply kept_run_teardown.
  - apply kept_refl.
Qed.

Lemma kept_unregisterAll win w : kept w (world_of (unregisterAll win w)).
Proof.
  unfold unregisterAll, mbind at 1, M_bind at 1, gets.
  set (body := λ (state : string) (r : Ref),
         call_removeListener r ;;
         modify (with_registry (alter (delete state) (WebContents win)))).
  assert (kept w (world_of (for_in (windowsWithShortcuts w !! WebContents win) body w)))
    as Hloop.
  { destruct (windowsWithShortcuts w !! WebContents win) as [o|]; [|apply kept_refl].
    simpl. apply (forEach_invariant (kept w)); [|apply kept_refl].
    intros [state r] w' Hkept. eapply kept_trans; [exact Hkept|].
    unfold body, mbind, M_bind.
    pose proof (kept_call_removeListener r w') as Hcall.
    destruct (call_removeListener r w') as [[] w''|e w'']; simpl in *; [|done].
    eapply kept_trans; [exact Hcall|apply kept_drop_state]. }
  unfold mbind, M_bind.
  destruct (for_in _ body w) as [[] w'|e w']; simpl in *; [|done].
  eapply kept_trans; [exact Hloop|apply kept_drop_key].
Qed.

(** Whichever way the body of [unregister] ends, no array has entered the
    registry and the arrays still stored have kept their place in the
    store and their [removeListener]. *)
Lemma kept_unregister_string wc state accelerator w :
  kept w (world_of (unregister_string wc state accelerator w)).
Proof.
  pose proof (kept_checkAccelerator accelerator w) as Hcheck.
  destruct (windowsWithShortcuts w !! wc) as [o|] eqn:Hwc.
  2: { by rewrite (unregister_string_no_object _ _ _ _ Hwc). }
  destruct (o !! state) as [r|] eqn:Hstate.
  2: { rewrite (unregister_string_no_array _ _ _ _ _ Hwc Hstate). simpl.
       destruct (is_inherited state); [|done]. by destruct (toKeyEvent accelerator). }
  rewrite (unregister_string_cases _ _ _ _ _ _ Hwc Hstate). simpl.
  destruct (toKeyEvent accelerator) as [ev|e]; [|done].
  destruct (list_find _ (shortcuts w r)) as [[n x]|]; [|done].
  assert (kept w (write_items r (delete n) (world_of (_checkAccelerator accelerator w))))
    as Hsplice.
  { eapply kept_trans; [exact Hcheck|apply kept_write_items]. }
  case_decide; [|done].
  destruct (removeListener (read_array w r)) as [t|]; simpl; [|done].
  eapply kept_trans; [exact Hsplice|].
  eapply kept_trans; [apply kept_run_teardown|apply kept_drop_state].
Qed.

Lemma kept_unregister_on win state accelerator w :
  kept w (world_of (unregister_on win state accelerator w)).
Proof.
  unfold unregister_on, mbind, M_bind, gets.
  destruct (bool_decide (win ∈ destroyed w)); [apply kept_refl|].
  apply kept_unregister_string.
Qed.

Lemma kept_unregister win state accelerator w :
  kept w (world_of (unregister win state accelerator w)).
Proof.
  destruct win as [win|], accelerator as [a|l]; simpl.
  - apply kept_unregister_on.
  - unfold mbind, M_bind, gets.
    destruct (bool_decide (win ∈ destroyed w)); [apply kept_refl|].
    apply (forEach_invariant (kept w)); [|apply kept_refl].
    intros [a|] w' Hkept; [|exact Hkept].
    eapply kept_trans; [exact Hkept|apply kept_unregister_on].
  - apply kept_unregister_string.
  - apply (forEach_invariant (kept w)); [|apply kept_refl].
    by intros [a|] w' Hkept.
Qed.

Lemma well_formed_unregister_on win state accelerator w :
  well_formed w → well_formed (world_of (unregister_on win state accelerator w)).
Proof. intros Hwf. eapply well_formed_kept; [exact Hwf|apply kept_unregister_on]. Qed.

Lemma well_formed_unregister win state accelerator w :
  well_formed w → well_formed (world_of (unregister win state accelerator w)).
Proof. intros Hwf. eapply well_formed_kept; [exact Hwf|apply kept_unregister]. Qed.

(** Where [register] leaves each pair of key and state. *)
Lemma group_of_register wc state accelerator cb w k s :
  (group_of w wc state = None → is_inherited state = false) →
  group_of (world_of (register_string (Some wc) state accelerator cb w)) k s
  = if decide (k = wc ∧ s = state) then Some (array_for w wc state) else group_of w k s.
Proof.
  intros Hown.
  destruct (register_string_spec wc state accelerator cb w Hown) as (w' & Hrun & Hreg & _).
  rewrite Hrun.
  assert (world_of (ends_with_parser accelerator w') = w') as ->.
  { unfold ends_with_parser. by destruct (toKeyEvent accelerator). }
  unfold group_of. rewrite Hreg.
  destruct (decide (k = wc)) as [->|Hk].
  - rewrite lookup_insert_eq. simpl. destruct (decide (s = state)) as [->|Hs].
    + rewrite lookup_insert_eq. by rewrite decide_True.
    + rewrite lookup_insert_ne by done. rewrite decide_False by (by intros [_ ?]).
      by destruct (windowsWithShortcuts w !! wc).
  - rewrite lookup_insert_ne by done. by rewrite decide_False by (by intros [? _]).
Qed.

Lemma array_for_fresh w wc state k s :
  well_formed w → group_of w k s = Some (array_for w wc state) → k = wc ∧ s = state.
Proof.
  intros Hwf Hg. unfold array_for in *.
  destruct (group_of w wc state) as [r|] eqn:Hgroup.
  - by destruct (Hwf wc state r Hgroup) as (_ & _ & Huniq); apply Huniq.
  - destruct (Hwf k s _ Hg) as (Hdom & _). by apply is_fresh in Hdom.
Qed.

(** Under a name of [Object.prototype], [register] stores no array and
    changes none. *)
Lemma group_of_register_inherited wc state accelerator cb w k s :
  group_of w wc state = None → is_inherited state = true →
  let w' := world_of (register_string (Some wc) state accelerator cb w) in
  group_of w' k s = group_of w k s ∧ arrays w' = arrays w.
Proof.
  intros Hgroup Hin.
  destruct (register_string_inherited wc state accelerator cb w Hgroup Hin)
    as (w' & Hrun & Hreg & Harr & _).
  simpl. rewrite Hrun. simpl. split; [|exact Harr].
  unfold group_of. rewrite Hreg. destruct (decide (k = wc)) as [->|Hk].
  - rewrite lookup_insert_eq. by destruct (windowsWithShortcuts w !! wc).
  - by rewrite lookup_insert_ne.
Qed.

Lemma well_formed_register_own wc state accelerator cb w :
  (group_of w wc state = None → is_inherited state = false) →
  well_formed w →
  well_formed (world_of (register_string (Some wc) state accelerator cb w)).
Proof.
  intros Hown Hwf.
  pose proof (λ k s, group_of_register wc state accelerator cb w k s Hown) as Hgroup.
  pose proof (register_string_after wc state accelerator cb w Hown) as (_ & Hitems & Hother).
  destruct (register_string_spec wc state accelerator cb w Hown)
    as (w' & Hrun & Hreg & Harr & _).
  rewrite Hrun in Hgroup, Hitems, Hother |- *.
  assert (world_of (ends_with_parser accelerator w') = w') as Hw.
  { unfold ends_with_parser. by destruct (toKeyEvent accelerator). }
  simpl in Hitems, Hother. rewrite Hw in Hgroup, Hitems, Hother |- *. clear Hw.
  set (r := array_for w wc state) in *.
  assert (∀ k s r', group_of w' k s = Some r' →
            (k = wc ∧ s = state ∧ r' = r) ∨
            (¬ (k = wc ∧ s = state) ∧ group_of w k s = Some r' ∧ r' ≠ r)) as Hcases.
  { intros k s r' Hg. rewrite Hgroup in Hg. case_decide as Hks.
    - left. destruct Hks as [-> ->]. by injection Hg as <-.
    - right. split; [done|]. split; [done|]. intros ->.
      by apply Hks, (array_for_fresh w wc state k s). }
  intros k s r' Hg. destruct (Hcases k s r' Hg) as [(-> & -> & ->)|(Hks & Hg0 & Hne)].
  - split; [|split].
    + apply elem_of_dom. by rewrite Harr, lookup_insert_eq.
    + unfold read_array. rewrite Harr, lookup_insert_eq. simpl.
      case_decide as Hbefore; [done|].
      unfold shortcuts_under in Hbefore. unfold r, array_for.
      destruct (group_of w wc state) as [r0|] eqn:Hg0; [|done].
      by destruct (Hwf wc state r0 Hg0) as (_ & Hl & _).
    + intros k' s' Hg'.
      destruct (Hcases k' s' r Hg') as [(-> & -> & _)|(_ & _ & Hne)]; done.
  - destruct (Hwf k s r' Hg0) as (Hd & Hl & Hu).
    split; [|split].
    + apply elem_of_dom. rewrite Harr, lookup_insert_ne by done. by apply elem_of_dom.
    + by rewrite (Hother r' Hne).
    + intros k' s' Hg'.
      destruct (Hcases k' s' r' Hg') as [(_ & _ & ->)|(_ & Hg0' & _)]; [done|].
      by apply Hu.
Qed.

Lemma well_formed_register_string wc state accelerator cb w :
  well_formed w →
  well_formed (world_of (register_string wc state accelerator cb w)).
Proof.
  intros Hwf. destruct wc as [wc|].
  2: { unfold register_string, mbind, M_bind. rewrite checkAccelerator_returns. simpl.
       eapply well_formed_kept; [exact Hwf|apply kept_checkAccelerator]. }
  destruct (group_of w wc state) as [r0|] eqn:Hgroup0.
  { apply well_formed_register_own; [by rewrite Hgroup0|exact Hwf]. }
  destruct (is_inherited state) eqn:Hin.
  2: { by apply well_formed_register_own. }
  eapply well_formed_kept; [exact Hwf|].
  intros k s r Hg.
  destruct (group_of_register_inherited wc state accelerator cb w k s Hgroup0 Hin)
    as [Hsame Harr].
  rewrite Hsame in Hg. unfold read_array. rewrite Harr. by repeat split.
Qed.

Lemma well_formed_register win state accelerator cb w :
  well_formed w → well_formed (world_of (register win state accelerator cb w)).
Proof.
  intros Hwf. destruct accelerator as [a|l]; simpl.
  - by apply well_formed_register_string.
  - apply (forEach_invariant well_formed); [|exact Hwf].
    intros [a|] w' Hwf'; [by apply well_formed_register_string|exact Hwf'].
Qed.

(** Every reachable world is well formed. *)
Theorem reachable_well_formed w : reachable w → well_formed w.
Proof.
  induction 1 as [windows|win state accelerator cb w _ IH|win state accelerator w _ IH
                  |win w _ IH|win w _ IH|win w _ IH|win state w _ IH
                  |win state accelerator w _ IH|w w' _ IH Hreg Harr].
  - intros k s r Hg. unfold group_of in Hg. simpl in Hg. by rewrite lookup_empty in Hg.
  - by apply well_formed_register.
  - by apply well_formed_unregister.
  - eapply well_formed_kept; [exact IH|apply kept_unregisterAll].
  - eapply well_formed_kept; [exact IH|].
    unfold disableAll, mbind, M_bind, gets. apply (kept_for_in_enable_each (λ _, false)).
  - eapply well_formed_kept; [exact IH|].
    unfold enableAll, mbind, M_bind, gets. apply (kept_for_in_enable_each (λ _, true)).
  - eapply well_formed_kept; [exact IH|].
    unfold enableOnlyForState, mbind, M_bind, gets.
    apply (kept_for_in_enable_each (λ currState, bool_decide (state = currState))).
  - eapply well_formed_kept; [exact IH|].
    rewrite isRegistered_cases. simpl.
    destruct (windowsWithShortcuts w !! WebContents win) as [o|];
      [destruct (read_state o state) as [[r|name]|];
       [destruct (toKeyEvent accelerator)|destruct (toKeyEvent accelerator)|]|];
      simpl; apply kept_checkAccelerator.
  - eapply well_formed_kept; [exact IH|by apply kept_same_store].
Qed.

(** In a reachable world the states of a window hold distinct arrays. *)
Corollary reachable_no_shared_array w k o s1 s2 r :
  reachable w →
  windowsWithShortcuts w !! k = Some o →
  o !! s1 = Some r → o !! s2 = Some r → s1 = s2.
Proof.
  intros Hreach Hk H1 H2.
  assert (group_of w k s1 = Some r) as Hg1 by (unfold group_of; by rewrite Hk).
  assert (group_of w k s2 = Some r) as Hg2 by (unfold group_of; by rewrite Hk).
  destruct (reachable_well_formed w Hreach k s1 r Hg1) as (_ & _ & Huniq).
  by destruct (Huniq k s2 Hg2) as [_ ->].
Qed.
End Invariant.
(** * Further properties of the module *)

(** ** What [register] leaves alone *)

Section RegisterFrame.
Context {collaborators : Collaborators}.

Lemma same_host_refl w : same_host w w.
Proof. done. Qed.

Lemma same_host_trans w1 w2 w3 : same_host w1 w2 → same_host w2 w3 → same_host w1 w3.
Proof. intros (? & ? & ?) (? & ? & ?). repeat split; congruence. Qed.

(** A sequence leaves the host alone when both of its parts do. *)
Lemma same_host_bind {A B} (m : M A) (k : A → M B) w :
  same_host w (world_of (m w)) →
  (∀ a w', same_host w' (world_of (k a w'))) →
  same_host w (world_of ((m ≫= k) w)).
Proof.
  intros Hm Hk. unfold mbind, M_bind. destruct (m w) as [a w'|e w']; simpl in *; [|done].
  eapply same_host_trans; [exact Hm|apply Hk].
Qed.

Lemma foldl_enableAppShortcuts_host h l w :
  same_host w (foldl (λ w' win, enableAppShortcuts h win w') w l).
Proof.
  revert w. induction l as [|win l IH]; intros w; simpl; [done|].
  eapply same_host_trans; [|apply IH]. done.
Qed.

Lemma install_listener_host wc v w : same_host w (world_of (install_listener wc v w)).
Proof.
  destruct wc as [|c]; unfold install_listener, mbind, M_bind, new_handler, gets.
  - rewrite forEach_modify. simpl.
    destruct (foldl_enableAppShortcuts_host
                {| handler_id := nextHandler w; handler_array := v |} (allWindows w)
                (with_nextHandler (S (nextHandler w)) w)) as (H1 & H2 & H3).
    destruct v; repeat split; simpl; done.
  - by destruct v.
Qed.

Lemma register_in_host wc o state accelerator cb w :
  same_host w (world_of (register_in wc o state accelerator cb w)).
Proof.
  unfold register_in. apply same_host_bind.
  { unfold group_for. destruct (read_state o state) as [v|]; [done|].
    apply same_host_bind; [done|]. intros r w'. by apply same_host_bind. }
  intros v w1. apply same_host_bind; [done|]. intros len w2.
  apply same_host_bind.
  { case_decide; [apply install_listener_host|done]. }
  intros [] w3. apply same_host_bind.
  { unfold call_toKeyEvent. by destruct (toKeyEvent accelerator). }
  intros ev w4. by destruct v.
Qed.

(** [register] changes neither the set of open windows nor the destroyed
    flags, and it writes to the console only through
    [_checkAccelerator], whichever way it ends. *)
Lemma register_string_host wc state accelerator cb w :
  same_host (world_of (_checkAccelerator accelerator w))
            (world_of (register_string (Some wc) state accelerator cb w)).
Proof.
  unfold register_string, mbind at 1, M_bind at 1. rewrite checkAccelerator_returns.
  set (w1 := world_of (_checkAccelerator accelerator w)).
  apply same_host_bind.
  - unfold bucket_for. by destruct (windowsWithShortcuts w1 !! wc).
  - intros o w2. apply register_in_host.
Qed.
End RegisterFrame.

(** ** Registering and unregistering *)

Section RoundTrip.
Context {collaborators : Collaborators}.

Lemma remove_last_snoc h l : remove_last h (l ++ [h]) = l.
Proof.
  unfold remove_last. rewrite rev_app_distr. simpl.
  rewrite decide_True by done. apply rev_involutive.
Qed.

Lemma remove_last_replicate h l n :
  Nat.iter n (remove_last h) (l ++ replicate n h) = l.
Proof.
  induction n as [|n IH]; [simpl; by rewrite app_nil_r|].
  by rewrite Nat.iter_succ_r, replicate_S_end, app_assoc, remove_last_snoc.
Qed.

Lemma listeners_of_wc_removeListener c h w v :
  listeners_of (wc_removeListener c h w) v
  = if decide (v = c) then remove_last h (listeners_of w v) else listeners_of w v.
Proof.
  unfold listeners_of at 1, wc_removeListener. simpl. case_decide as Hv.
  - subst v. by rewrite lookup_insert_eq.
  - by rewrite lookup_insert_ne.
Qed.

Lemma foldl_wc_removeListener h l w :
  let w' := foldl (λ w' win, wc_removeListener win h w') w l in
  appListeners w' = appListeners w ∧
  closedHooks w' = closedHooks w ∧
  ∀ v, listeners_of w' v
       = Nat.iter (length (filter (v =.) l)) (remove_last h) (listeners_of w v).
Proof.
  revert w. induction l as [|win l IH]; intros w; simpl; [done|].
  destruct (IH (wc_removeListener win h w)) as (Happ & Hhooks & Hls). simpl in *.
  split; [by rewrite Happ|]. split; [by rewrite Hhooks|].
  intros v. rewrite Hls, listeners_of_wc_removeListener.
  rewrite filter_cons. destruct (decide (v = win)) as [->|Hne]; [|done].
  change (length (win :: filter (win =.) l)) with (S (length (filter (win =.) l))).
  by rewrite Nat.iter_succ_r.
Qed.

(** A detaching closure leaves the ['closed'] listeners where they are. *)
Lemma run_teardown_closedHooks t w : closedHooks (run_teardown t w) = closedHooks w.
Proof.
  destruct t as [c h|h]; simpl; [done|].
  by destruct (foldl_wc_removeListener h (allWindows w) w) as (_ & Hhooks & _).
Qed.

(** Running the [removeListener] closure that [register] built undoes the
    attachment of the handler. *)
Lemma run_teardown_detaches wc h w w1 w2 :
  handler_attached wc h w w1 →
  allWindows w2 = allWindows w →
  keyListeners w2 = keyListeners w1 →
  appListeners w2 = appListeners w1 →
  (∀ v, listeners_of (run_teardown (teardown_for wc h) w2) v = listeners_of w v) ∧
  appListeners (run_teardown (teardown_for wc h) w2) = appListeners w.
Proof.
  intros Hatt Hwin Hkey Happ.
  assert (∀ v, listeners_of w2 v = listeners_of w1 v) as Hls.
  { intros v. unfold listeners_of. by rewrite Hkey. }
  destruct wc as [|c]; simpl in *.
  - destruct Hatt as (Happ1 & Hls1).
    destruct (foldl_wc_removeListener h (allWindows w2) w2) as (Happ2 & _ & Hls2).
    simpl in *. split.
    + intros v.
      change (listeners_of (foldl (λ w' win, wc_removeListener win h w') w2 (allWindows w2)) v
              = listeners_of w v).
      rewrite Hls2, Hls, Hls1, Hwin. apply remove_last_replicate.
    + rewrite Happ2, Happ, Happ1. apply remove_last_snoc.
  - destruct Hatt as (Hc & Hother & Happ1). split; [|by rewrite Happ].
    intros v. rewrite listeners_of_wc_removeListener, Hls.
    case_decide as Hv; [subst v|by apply Hother].
    rewrite Hc. apply remove_last_snoc.
Qed.

Lemma list_find_first_match {A} (P : A → Prop) `{∀ x, Decision (P x)} pre x post :
  Forall (λ y, ¬ P y) pre → P x →
  list_find P (pre ++ x :: post) = Some (length pre, x).
Proof.
  induction 1 as [|y pre Hy _ IH]; intros Hx; simpl.
  - by rewrite decide_True.
  - rewrite decide_False by done. by rewrite IH.
Qed.

Lemma delete_middle {A} (pre : list A) x post :
  delete (length pre) (pre ++ x :: post) = pre ++ post.
Proof. induction pre as [|y pre IH]; simpl; [done|]. by rewrite IH. Qed.

Lemma checkAccelerator_same_listeners accelerator w :
  keyListeners (world_of (_checkAccelerator accelerator w)) = keyListeners w ∧
  appListeners (world_of (_checkAccelerator accelerator w)) = appListeners w ∧
  allWindows (world_of (_checkAccelerator accelerator w)) = allWindows w ∧
  closedHooks (world_of (_checkAccelerator accelerator w)) = closedHooks w.
Proof. unfold _checkAccelerator. by destruct (isAccelerator accelerator). Qed.

(** X1.  Registering an accelerator and then unregistering it, with the
    same window and state, puts the shortcuts of that window and state
    back as they were and detaches the key handler that the registration
    attached: the key listeners of every window and the listeners of the
    app are as before.  Two things stay behind.  The one-shot ['closed']
    listeners that [register] added with the handler are still there,
    and the window keeps an object in [windowsWithShortcuts], also when it
    had none before.  The window must not be destroyed, the matcher must
    accept the accelerator's descriptor against itself, and no shortcut
    already there may match it (otherwise that older shortcut is the one
    removed). *)
Theorem register_unregister_round_trip (win : option Window) (state accelerator : string)
    (cb : Callback) (w w1 : World) (ev : KeyEvent) :
  (∀ v, win = Some v → v ∉ destroyed w) →
  toKeyEvent accelerator = Descriptor ev →
  equals ev ev = true →
  Forall (λ s, equals (eventStamp s) ev = false)
         (shortcuts_under w (key_of win) state) →
  register win state (AccString accelerator) cb w = Return tt w1 →
  let h := {| handler_id := nextHandler w;
              handler_array := OwnArray (array_for w (key_of win) state) |} in
  ∃ w2, unregister win state (AccString accelerator) w1 = Return tt w2 ∧
    shortcuts_under w2 (key_of win) state = shortcuts_under w (key_of win) state ∧
    (∀ v, listeners_of w2 v = listeners_of w v) ∧
    appListeners w2 = appListeners w ∧
    is_Some (windowsWithShortcuts w2 !! key_of win) ∧
    (shortcuts_under w (key_of win) state = [] → closed_hooks_added (key_of win) h w w2) ∧
    (shortcuts_under w (key_of win) state ≠ [] → closedHooks w2 = closedHooks w).
Proof.
  intros Hlive Hparse Hrefl Hfresh Hreg h.
  set (wc := key_of win) in *. set (before := shortcuts_under w wc state) in *.
  assert (register_string (Some wc) state accelerator cb w = Return tt w1) as Hrun.
  { by destruct win. }
  pose proof (register_string_returns_own _ _ _ _ _ _ Hrun) as Hown.
  destruct (register_string_spec wc state accelerator cb w Hown)
    as (w1' & Hrun' & Hregistry & Harrays & Hatt & Hsame & Hhooks).
  rewrite Hrun in Hrun'. unfold ends_with_parser in Hrun'. rewrite Hparse in Hrun'.
  injection Hrun' as <-.
  destruct (register_string_group _ _ _ _ _ _ Hrun) as (ev' & Hparse' & Hgroup & Hitems & _).
  rewrite Hparse in Hparse'. injection Hparse' as <-.
  pose proof (register_string_host wc state accelerator cb w) as (Hwins & Hdest & _).
  rewrite Hrun in Hwins, Hdest. simpl in Hwins, Hdest.
  set (r := array_for w wc state) in *. fold before in Hitems, Hatt, Hsame, Harrays, Hhooks.
  set (e := {| eventStamp := ev; callback := cb; enabled := true |}) in *.
  assert (unregister win state (AccString accelerator) w1
          = unregister_string wc state accelerator w1) as ->.
  { destruct win as [v|]; [|done]. simpl. apply unregister_on_live.
    rewrite Hdest, checkAccelerator_destroyed. by apply Hlive. }
  assert (windowsWithShortcuts w1 !! wc
          = Some (<[state := r]> (default ∅ (windowsWithShortcuts w !! wc)))) as Hwc.
  { by rewrite Hregistry, lookup_insert_eq. }
  rewrite (unregister_string_cases _ _ _ _ _ r Hwc) by apply lookup_insert_eq.
  simpl. rewrite Hparse, Hitems.
  rewrite (list_find_first_match _ before e []).
  2: { eapply Forall_impl; [exact Hfresh|]. intros s Hs. by rewrite Hs. }
  2: { exact Hrefl. }
  rewrite delete_middle, app_nil_r.
  set (w1c := world_of (_checkAccelerator accelerator w1)).
  destruct (checkAccelerator_same_listeners accelerator w1) as (Hk1 & Ha1 & Hw1 & Hh1).
  fold w1c in Hk1, Ha1, Hw1, Hh1.
  assert (shortcuts (write_items r (delete (length before)) w1c) r = before) as Hafter.
  { rewrite shortcuts_write_items_eq. unfold w1c.
    by rewrite checkAccelerator_shortcuts, Hitems, delete_middle, app_nil_r. }
  destruct (decide (length before = 0)) as [Hlen|Hlen].
  - apply length_zero_iff_nil in Hlen.
    assert (removeListener (read_array w1 r) = Some (teardown_for wc h)) as ->.
    { unfold read_array. rewrite Harrays, lookup_insert_eq. simpl.
      by rewrite decide_True. }
    eexists. split; [reflexivity|].
    destruct (run_teardown_detaches wc h w w1 (write_items r (delete (length before)) w1c))
      as (Hls & Happ).
    { by apply Hatt. }
    { simpl. rewrite Hw1. unfold w1c in *. by rewrite Hwins, (proj1 (proj2 (proj2
        (checkAccelerator_same_listeners accelerator w)))). }
    { done. } { done. }
    split; [|split; [exact Hls|split; [exact Happ|split; [|split]]]].
    + unfold shortcuts_under at 1, group_of. simpl.
      rewrite run_teardown_registry. simpl. unfold w1c.
      rewrite checkAccelerator_registry, lookup_alter_eq, Hwc. simpl.
      by rewrite lookup_delete_eq.
    + simpl. rewrite run_teardown_registry. simpl. unfold w1c.
      by rewrite checkAccelerator_registry, lookup_alter_eq, Hwc.
    + intros _ v. etransitivity; [|exact (proj1 (Hhooks Hlen) v)]. unfold hooks_of. simpl.
      rewrite run_teardown_closedHooks. simpl. by rewrite Hh1.
    + by intros [].
  - assert (before ≠ []) as Hne by (by intros ->).
    destruct (Hsame Hne) as (Hkey & Happ & Hclosed).
    eexists. split; [reflexivity|]. split; [|split; [|split; [|split; [|split]]]].
    + unfold shortcuts_under at 1, group_of. simpl. unfold w1c at 1.
      rewrite checkAccelerator_registry, Hwc. simpl. rewrite lookup_insert_eq.
      exact Hafter.
    + intros v. unfold listeners_of. simpl. by rewrite Hk1, Hkey.
    + simpl. by rewrite Ha1, Happ.
    + simpl. unfold w1c. by rewrite checkAccelerator_registry, Hwc.
    + by intros.
    + intros _. simpl. by rewrite Hh1, Hclosed.
Qed.
End RoundTrip.

(** ** What [unregister] does and does not do *)

Section UnregisterMore.
Context {collaborators : Collaborators}.

Lemma unregister_key_form win state accelerator w :
  (∀ v, win = Some v → v ∉ destroyed w) →
  unregister win state (AccString accelerator) w
  = unregister_string (key_of win) state accelerator w.
Proof.
  intros Hlive. destruct win as [v|]; [|done]. simpl.
  apply unregister_on_live. by apply Hlive.
Qed.

Lemma checkAccelerator_valid accelerator w :
  isAccelerator accelerator = true → _checkAccelerator accelerator w = Return tt w.
Proof. intros Hok. unfold _checkAccelerator. by rewrite Hok. Qed.

(** X4.  [unregister] removes the first shortcut of the array whose
    descriptor matches the accelerator, and only that one: the shortcuts
    before and after it stay in order, later duplicates included, and no
    other array changes.  The array stays under its state unless it has
    become empty, in which case it is dropped from the window's object. *)
Theorem unregister_removes_first_match (win : option Window) (state accelerator : string)
    (w : World) (o : gmap string Ref) (r : Ref) (pre post : list Shortcut) (x : Shortcut)
    (ev : KeyEvent) :
  (∀ v, win = Some v → v ∉ destroyed w) →
  windowsWithShortcuts w !! key_of win = Some o →
  o !! state = Some r →
  shortcuts w r = pre ++ x :: post →
  toKeyEvent accelerator = Descriptor ev →
  Forall (λ s, equals (eventStamp s) ev = false) pre →
  equals (eventStamp x) ev = true →
  (pre ++ post = [] → is_Some (removeListener (read_array w r))) →
  ∃ w', unregister win state (AccString accelerator) w = Return tt w' ∧
    shortcuts w' r = pre ++ post ∧
    (∀ r', r' ≠ r → shortcuts w' r' = shortcuts w r') ∧
    group_of w' (key_of win) state = (if decide (pre ++ post = []) then None else Some r).
Proof.
  intros Hlive Hwc Hstate Hitems Hparse Hpre Hx Htd.
  rewrite (unregister_key_form _ _ _ _ Hlive).
  assert (list_find (λ s, equals (eventStamp s) ev = true) (shortcuts w r)
          = Some (length pre, x)) as Hfind.
  { rewrite Hitems. apply list_find_first_match; [|done].
    eapply Forall_impl; [exact Hpre|]. intros s Hs. by rewrite Hs. }
  destruct (unregister_string_shortcuts _ _ _ _ _ _ _ _ _ Hwc Hstate Hparse Hfind)
    as [Hr Hother].
  simpl in Hr, Hother. rewrite Hitems, delete_middle in Hr.
  rewrite (unregister_string_cases _ _ _ _ _ _ Hwc Hstate) in Hr, Hother |- *.
  simpl in *. rewrite Hparse, Hfind in Hr, Hother |- *. rewrite Hitems, delete_middle in *.
  destruct (decide (length (pre ++ post) = 0)) as [Hlen|Hlen].
  - apply length_zero_iff_nil in Hlen. destruct (Htd Hlen) as [t Ht].
    rewrite Ht in Hr, Hother |- *. eexists. split; [reflexivity|].
    split; [exact Hr|]. split; [exact Hother|].
    rewrite decide_True by done. unfold group_of. simpl.
    rewrite run_teardown_registry. simpl.
    rewrite checkAccelerator_registry, lookup_alter_eq, Hwc. simpl.
    apply lookup_delete_eq.
  - eexists. split; [reflexivity|]. split; [exact Hr|]. split; [exact Hother|].
    rewrite decide_False by (by intros Hnil; rewrite Hnil in Hlen).
    unfold group_of. simpl. by rewrite checkAccelerator_registry, Hwc.
Qed.

(** X5.  [unregister] changes nothing in three cases: the window is
    destroyed (the call returns before anything else, whatever the
    accelerator is); reading the state name from the window's object gives
    [undefined]; the state holds an array, the parser accepts the
    accelerator, and no shortcut of the array has a descriptor equal to
    the accelerator's.  In the last two cases the only trace is the
    warning of [_checkAccelerator] for an accelerator that is not
    valid. *)
Theorem unregister_without_effect (win : Window) (state : string) (w : World) :
  (∀ accelerator, win ∈ destroyed w →
     unregister (Some win) state accelerator w = Return tt w) ∧
  (∀ accelerator o, win ∉ destroyed w →
     windowsWithShortcuts w !! WebContents win = Some o →
     match o !! state with
     | None => is_inherited state = false
     | Some r => ∃ ev, toKeyEvent accelerator = Descriptor ev ∧
                       Forall (λ s, equals (eventStamp s) ev = false) (shortcuts w r)
     end →
     unregister (Some win) state (AccString accelerator) w
     = Return tt (world_of (_checkAccelerator accelerator w)) ∧
     (isAccelerator accelerator = true →
      unregister (Some win) state (AccString accelerator) w = Return tt w)).
Proof.
  split.
  - intros accelerator Hdead. destruct accelerator as [a|l]; simpl.
    + unfold unregister_on, mbind, M_bind, gets. by rewrite bool_decide_eq_true_2.
    + unfold mbind, M_bind, gets. by rewrite bool_decide_eq_true_2.
  - intros accelerator o Hlive Hwc Hnone.
    assert (unregister (Some win) state (AccString accelerator) w
            = Return tt (world_of (_checkAccelerator accelerator w))) as Hrun.
    { simpl. rewrite (unregister_on_live _ _ _ _ Hlive).
      destruct (o !! state) as [r|] eqn:Hstate.
      - destruct Hnone as (ev & Hparse & Hnone).
        rewrite (unregister_string_cases _ _ _ _ _ _ Hwc Hstate). simpl. rewrite Hparse.
        assert (list_find (λ s, equals (eventStamp s) ev = true) (shortcuts w r) = None)
          as ->; [|done].
        apply list_find_None. eapply Forall_impl; [exact Hnone|].
        intros s Hs. by rewrite Hs.
      - rewrite (unregister_string_no_array _ _ _ _ _ Hwc Hstate). simpl.
        by rewrite Hnone. }
    split; [exact Hrun|]. intros Hok. rewrite Hrun.
    by rewrite (checkAccelerator_valid _ _ Hok).
Qed.

(** [unregister] never takes a key out of [windowsWithShortcuts]. *)
Lemma unregister_string_keys wc state accelerator w :
  dom (windowsWithShortcuts (world_of (unregister_string wc state accelerator w)))
  = dom (windowsWithShortcuts w).
Proof.
  destruct (windowsWithShortcuts w !! wc) as [o|] eqn:Hwc.
  2: { rewrite (unregister_string_no_object _ _ _ _ Hwc). simpl.
       by rewrite checkAccelerator_registry. }
  destruct (o !! state) as [r|] eqn:Hstate.
  2: { rewrite (unregister_string_no_array _ _ _ _ _ Hwc Hstate). simpl.
       destruct (is_inherited state); [destruct (toKeyEvent accelerator)|]; simpl;
         by rewrite checkAccelerator_registry. }
  rewrite (unregister_string_cases _ _ _ _ _ _ Hwc Hstate). simpl.
  destruct (toKeyEvent accelerator) as [ev|e]; simpl;
    [|by rewrite checkAccelerator_registry].
  destruct (list_find _ (shortcuts w r)) as [[n x]|]; simpl;
    [|by rewrite checkAccelerator_registry].
  case_decide; [destruct (removeListener (read_array w r)) as [t|]|]; simpl;
    rewrite ?run_teardown_registry; simpl; rewrite ?dom_alter_L;
    by rewrite checkAccelerator_registry.
Qed.

Lemma unregister_on_keys win state accelerator w :
  dom (windowsWithShortcuts (world_of (unregister_on win state accelerator w)))
  = dom (windowsWithShortcuts w).
Proof.
  unfold unregister_on, mbind, M_bind, gets.
  destruct (bool_decide (win ∈ destroyed w)); [done|]. apply unregister_string_keys.
Qed.

(** X16.  No call of [unregister], in any of its forms and whatever its
    outcome, removes a window's object from [windowsWithShortcuts] or adds
    one: the keys of the registry are the same before and after.  Only
    [unregisterAll] removes a key. *)
Theorem unregister_keeps_registry_keys (win : option Window) (state : string)
    (accelerator : Accelerator) (w : World) :
  dom (windowsWithShortcuts (world_of (unregister win state accelerator w)))
  = dom (windowsWithShortcuts w).
Proof.
  destruct win as [win|], accelerator as [a|l]; simpl.
  - apply unregister_on_keys.
  - unfold mbind, M_bind, gets.
    destruct (bool_decide (win ∈ destroyed w)); [done|].
    apply (forEach_invariant
             (λ w', dom (windowsWithShortcuts w') = dom (windowsWithShortcuts w))); [|done].
    intros [a|] w' Hdom; [|done]. by rewrite unregister_on_keys.
  - apply unregister_string_keys.
  - apply (forEach_invariant
             (λ w', dom (windowsWithShortcuts w') = dom (windowsWithShortcuts w))); [|done].
    by intros [a|] w' Hdom.
Qed.

(** The body of [unregister] in a well-formed world where the key has an
    object: it returns unless the parser throws or the state name reads
    as a member of [Object.prototype]. *)
Lemma unregister_string_returns wc state accelerator w :
  well_formed w → is_Some (windowsWithShortcuts w !! wc) →
  is_inherited state = false →
  (∃ ev, toKeyEvent accelerator = Descriptor ev) →
  ∃ w', unregister_string wc state accelerator w = Return tt w'.
Proof.
  intros Hwf [o Hwc] Hin [ev Hparse].
  destruct (o !! state) as [r|] eqn:Hstate.
  - rewrite (unregister_string_cases _ _ _ _ _ _ Hwc Hstate). simpl. rewrite Hparse.
    destruct (list_find _ (shortcuts w r)) as [[n x]|]; [|by eexists].
    case_decide; [|by eexists].
    assert (group_of w wc state = Some r) as Hg.
    { unfold group_of. by rewrite Hwc. }
    destruct (Hwf _ _ _ Hg) as (_ & [t ->] & _). by eexists.
  - rewrite (unregister_string_no_array _ _ _ _ _ Hwc Hstate). simpl. rewrite Hin.
    by eexists.
Qed.

(** X3.  How [unregister] ends in a well-formed world, and so in every
    reachable one, when the window is live and has an object in
    [windowsWithShortcuts] (or, without a window, when [ANY_WINDOW] has
    one).  With one accelerator string it returns normally when reading
    the state name gives [undefined], and when the state holds an array
    and the parser accepts the accelerator.  It throws what the parser
    throws when the state name reads as any value and the parser rejects
    the accelerator, and a [TypeError] when the state name reads as a
    member of [Object.prototype] and the parser accepts it.  With a
    window and an array of accelerators it returns normally when the
    parser accepts every string of the array and the state name is not
    the name of a member of [Object.prototype]. *)
Theorem unregister_returns_when_window_known (win : option Window)
    (state accelerator : string) (w : World) (o : gmap string Ref) :
  well_formed w →
  (∀ v, win = Some v → v ∉ destroyed w) →
  windowsWithShortcuts w !! key_of win = Some o →
  let w1 := world_of (_checkAccelerator accelerator w) in
  (o !! state = None → is_inherited state = false →
     unregister win state (AccString accelerator) w = Return tt w1) ∧
  (∀ r ev, o !! state = Some r → toKeyEvent accelerator = Descriptor ev →
     ∃ w', unregister win state (AccString accelerator) w = Return tt w') ∧
  (∀ e, is_Some (read_state o state) → toKeyEvent accelerator = Rejected e →
     unregister win state (AccString accelerator) w = Raise e w1) ∧
  (∀ ev, o !! state = None → is_inherited state = true →
     toKeyEvent accelerator = Descriptor ev →
     unregister win state (AccString accelerator) w
     = Raise (TypeError "shortcutsOfWindow is not iterable") w1) ∧
  (∀ v l, win = Some v → is_inherited state = false →
     Forall (λ a, ∃ ev, toKeyEvent a = Descriptor ev) (omap id l) →
     ∃ w', unregister (Some v) state (AccArray l) w = Return tt w').
Proof.
  intros Hwf Hlive Hwc w1. rewrite (unregister_key_form _ _ _ _ Hlive).
  split; [|split; [|split; [|split]]].
  - intros Hstate Hin. rewrite (unregister_string_no_array _ _ _ _ _ Hwc Hstate). simpl.
    by rewrite Hin.
  - intros r ev Hstate Hparse.
    rewrite (unregister_string_cases _ _ _ _ _ _ Hwc Hstate). simpl. rewrite Hparse.
    destruct (list_find _ (shortcuts w r)) as [[n x]|]; [|by eexists].
    case_decide; [|by eexists].
    assert (group_of w (key_of win) state = Some r) as Hg.
    { unfold group_of. by rewrite Hwc. }
    destruct (Hwf _ _ _ Hg) as (_ & [t ->] & _). by eexists.
  - intros e [v Hv] Hparse. unfold read_state in Hv.
    destruct (o !! state) as [r|] eqn:Hstate.
    + rewrite (unregister_string_cases _ _ _ _ _ _ Hwc Hstate). simpl. by rewrite Hparse.
    + rewrite (unregister_string_no_array _ _ _ _ _ Hwc Hstate). simpl.
      destruct (is_inherited state); [|done]. by rewrite Hparse.
  - intros ev Hstate Hin Hparse.
    rewrite (unregister_string_no_array _ _ _ _ _ Hwc Hstate). simpl.
    by rewrite Hin, Hparse.
  - intros v l -> Hin Hall. simpl in *. unfold mbind, M_bind, gets.
    destruct (bool_decide (v ∈ destroyed w)); [by eexists|].
    assert (is_Some (windowsWithShortcuts w !! WebContents v)) as Hsome by eauto.
    clear Hwc Hlive w1. revert w Hwf Hsome.
    induction l as [|[a|] l IH]; intros w Hwf Hwc; simpl.
    + by eexists.
    + simpl in Hall. apply Forall_cons in Hall as [Ha Hall].
      assert (∃ w1, unregister_on v state a w = Return tt w1) as (w1 & Hrun).
      { unfold unregister_on, mbind, M_bind, gets.
        destruct (bool_decide (v ∈ destroyed w)); [by eexists|].
        by apply unregister_string_returns. }
      unfold mbind, M_bind. rewrite Hrun. apply IH; [exact Hall| |].
      * pose proof (well_formed_unregister_on v state a w Hwf) as Hwf1.
        by rewrite Hrun in Hwf1.
      * pose proof (unregister_on_keys v state a w) as Hdom.
        rewrite Hrun in Hdom. simpl in Hdom.
        apply elem_of_dom. rewrite Hdom. by apply elem_of_dom.
    + unfold mbind, M_bind. simpl. by apply IH.
Qed.

(** X2.  The invariant of the registry.  In every world reached through
    the exported functions, whether the calls returned or threw, an array
    stored for a state is in the store, carries the [removeListener] that
    [register] gave it, and is stored under that one window and state
    only. *)
Theorem reachable_registry_invariant (w : World) (k : WeakKey) (s : string) (r : Ref) :
  reachable w →
  group_of w k s = Some r →
  r ∈ dom (arrays w) ∧
  is_Some (removeListener (read_array w r)) ∧
  (∀ k' s', group_of w k' s' = Some r → k' = k ∧ s' = s).
Proof.
  intros Hreach Hg. exact (reachable_well_formed w Hreach k s r Hg).
Qed.
End UnregisterMore.

(** ** [unregisterAll] *)

Section UnregisterAll.
Context {collaborators : Collaborators}.

Lemma unregisterAll_loop wc l w w0 :
  (∀ s r, (s, r) ∈ l → is_Some (removeListener (read_array w0 r))) →
  arrays w = arrays w0 →
  delete wc (windowsWithShortcuts w) = delete wc (windowsWithShortcuts w0) →
  ∃ w', forEach (λ '(state, r),
                   call_removeListener r ;;
                   modify (with_registry (alter (delete state) wc))) l w = Return tt w' ∧
        arrays w' = arrays w0 ∧
        delete wc (windowsWithShortcuts w') = delete wc (windowsWithShortcuts w0).
Proof.
  revert w. induction l as [|[state r] l IH]; intros w Htd Harr Hreg; simpl.
  - by exists w.
  - destruct (Htd state r) as [t Ht]; [apply elem_of_cons; by left|].
    unfold mbind at 1, M_bind at 1. unfold mbind at 1, M_bind at 1.
    unfold call_removeListener at 1, read_array. rewrite Harr.
    fold (read_array w0 r). rewrite Ht. unfold modify at 1.
    apply IH.
    + intros s r' Hin. apply (Htd s r'). apply elem_of_cons. by right.
    + simpl. by rewrite run_teardown_arrays.
    + simpl. rewrite run_teardown_registry.
      rewrite <- Hreg. apply map_eq. intros k.
      destruct (decide (k = wc)) as [->|Hne].
      * by rewrite !lookup_delete_eq.
      * by rewrite !lookup_delete_ne, lookup_alter_ne.
Qed.

(** X6.  [unregisterAll(win)] returns normally when every array of the
    window carries its [removeListener] (as in every reachable world), and
    then the window has no object left in [windowsWithShortcuts], the
    objects of other windows and of [ANY_WINDOW] are as before, no array
    has changed, and [isRegistered] on the window throws for every state
    and accelerator. *)
Theorem unregisterAll_removes_window (win : Window) (w : World) :
  (∀ s r, group_of w (WebContents win) s = Some r →
     is_Some (removeListener (read_array w r))) →
  ∃ w', unregisterAll win w = Return tt w' ∧
    windowsWithShortcuts w' = delete (WebContents win) (windowsWithShortcuts w) ∧
    arrays w' = arrays w ∧
    ∀ state accelerator,
      isRegistered win state accelerator w'
      = Raise (Error "No shortcuts registered for this window")
              (world_of (_checkAccelerator accelerator w')).
Proof.
  intros Htd.
  assert (∃ w1, for_in (windowsWithShortcuts w !! WebContents win)
                  (λ state r, call_removeListener r ;;
                     modify (with_registry (alter (delete state) (WebContents win)))) w
                = Return tt w1 ∧
                arrays w1 = arrays w ∧
                delete (WebContents win) (windowsWithShortcuts w1)
                = delete (WebContents win) (windowsWithShortcuts w)) as (w1 & Hrun & Harr & Hreg).
  { destruct (windowsWithShortcuts w !! WebContents win) as [o|] eqn:Hwc; simpl.
    - apply unregisterAll_loop; [|done|done].
      intros s r Hin%elem_of_map_to_list. apply (Htd s r).
      unfold group_of. by rewrite Hwc.
    - by exists w. }
  unfold unregisterAll, gets. unfold mbind, M_bind in Hrun |- *.
  rewrite Hrun. unfold modify.
  eexists. split; [reflexivity|]. simpl. split; [by rewrite Hreg|]. split; [exact Harr|].
  intros state accelerator. rewrite isRegistered_cases. simpl.
  by rewrite Hreg, lookup_delete_eq.
Qed.
End UnregisterAll.

(** ** The flags *)

Section Flags.
Context {collaborators : Collaborators} {callbacks : Callbacks}.

Lemma set_enabled_same (b : bool) (s : Shortcut) : enabled s = b → set_enabled b s = s.
Proof. intros <-. by destruct s. Qed.

Lemma map_set_enabled_over b b' l :
  map (set_enabled b) (map (set_enabled b') l) = map (set_enabled b) l.
Proof. rewrite map_map. by apply map_ext. Qed.

Lemma map_set_enabled_same b l :
  Forall (λ s, enabled s = b) l → map (set_enabled b) l = l.
Proof.
  induction 1 as [|s l Hs _ IH]; simpl; [done|].
  by rewrite IH, (set_enabled_same b s Hs).
Qed.

Lemma find_hits_all_enabled event l :
  find (hits event) (map (set_enabled true) l)
  = set_enabled true <$> find (λ s, equals (eventStamp s) event) l.
Proof.
  induction l as [|s l IH]; simpl; [done|].
  unfold hits at 1. simpl. by destruct (equals (eventStamp s) event).
Qed.

(** X7.  [disableAll(win)] and [enableAll(win)] change nothing but the
    flags: in every array of the window's object the shortcuts keep their
    order, descriptors and callbacks and get [enabled = false], or
    [enabled = true].  After [enableAll] a handler of the window fires the
    first shortcut whose descriptor equals the event, whatever the flags
    were before. *)
Theorem disableAll_enableAll_flags (win : Window) (w : World) (o : gmap string Ref) :
  windowsWithShortcuts w !! WebContents win = Some o →
  ∃ w_off w_on,
    disableAll win w = Return tt w_off ∧
    enableAll win w = Return tt w_on ∧
    windowsWithShortcuts w_off = windowsWithShortcuts w ∧
    windowsWithShortcuts w_on = windowsWithShortcuts w ∧
    (∀ s r, o !! s = Some r →
       shortcuts w_off r = map (set_enabled false) (shortcuts w r) ∧
       shortcuts w_on r = map (set_enabled true) (shortcuts w r)) ∧
    (∀ s r input, o !! s = Some r → input_type input ≠ "keyUp" →
       _onBeforeInput (OwnArray r) input w_on
       = match find (λ x, equals (eventStamp x) (_normalizeEvent input)) (shortcuts w r) with
         | Some x => ([callback x], run_callback (callback x) w_on)
         | None => ([], Return tt w_on)
         end).
Proof.
  intros Hwc.
  destruct (for_in_enable_each (λ _, false) o w) as (w_off & Hoff & Hreg_off & Hflags_off);
    [done|].
  destruct (for_in_enable_each (λ _, true) o w) as (w_on & Hon & Hreg_on & Hflags_on);
    [done|].
  exists w_off, w_on.
  split. { unfold disableAll, mbind, M_bind, gets. rewrite Hwc. exact Hoff. }
  split. { unfold enableAll, mbind, M_bind, gets. rewrite Hwc. exact Hon. }
  split; [exact Hreg_off|]. split; [exact Hreg_on|]. split.
  - intros s r Hs. split; [by apply (Hflags_off s)|by apply (Hflags_on s)].
  - intros s r input Hs Hdown. rewrite onBeforeInput_find, decide_False by done.
    rewrite (Hflags_on s r Hs). simpl. rewrite find_hits_all_enabled.
    by destruct (find _ (shortcuts w r)).
Qed.

(** X8.  [enableAll] undoes [disableAll]: when every shortcut of the
    window was enabled, [disableAll(win)] followed by [enableAll(win)]
    gives back every array of the window exactly as it was.  In general it
    gives the arrays with every flag set. *)
Theorem disableAll_enableAll_round_trip (win : Window) (w : World) (o : gmap string Ref) :
  windowsWithShortcuts w !! WebContents win = Some o →
  ∃ w1 w2,
    disableAll win w = Return tt w1 ∧
    enableAll win w1 = Return tt w2 ∧
    (∀ s r, o !! s = Some r →
       shortcuts w2 r = map (set_enabled true) (shortcuts w r) ∧
       (Forall (λ x, enabled x = true) (shortcuts w r) → shortcuts w2 r = shortcuts w r)).
Proof.
  intros Hwc.
  destruct (for_in_enable_each (λ _, false) o w) as (w1 & Hoff & Hreg1 & Hflags1); [done|].
  destruct (for_in_enable_each (λ _, true) o w1) as (w2 & Hon & Hreg2 & Hflags2); [done|].
  exists w1, w2.
  split. { unfold disableAll, mbind, M_bind, gets. rewrite Hwc. exact Hoff. }
  split. { unfold enableAll, mbind, M_bind, gets. rewrite Hreg1, Hwc. exact Hon. }
  intros s r Hs.
  assert (shortcuts w2 r = map (set_enabled true) (shortcuts w r)) as Heq.
  { rewrite (Hflags2 s r Hs), (Hflags1 s r Hs). apply map_set_enabled_over. }
  split; [exact Heq|]. intros Hall. rewrite Heq. by apply map_set_enabled_same.
Qed.

(** X9.  The last [enableOnlyForState] wins: after
    [enableOnlyForState(win, s1)] and then [enableOnlyForState(win, s2)]
    the shortcuts of the window are flagged as one call with [s2] flags
    them, so switching to a state and back re-enables what the first
    switch disabled.  The states of the window hold distinct arrays. *)
Theorem enableOnlyForState_last_wins (win : Window) (s1 s2 : string) (w : World)
    (o : gmap string Ref) :
  windowsWithShortcuts w !! WebContents win = Some o →
  (∀ a b r, o !! a = Some r → o !! b = Some r → a = b) →
  ∃ w1 w2,
    enableOnlyForState win s1 w = Return tt w1 ∧
    enableOnlyForState win s2 w1 = Return tt w2 ∧
    (∀ currState r, o !! currState = Some r →
       shortcuts w2 r
       = map (set_enabled (bool_decide (s2 = currState))) (shortcuts w r)).
Proof.
  intros Hwc Hinj.
  assert (∀ s : string, ∀ a b r, o !! a = Some r → o !! b = Some r →
            bool_decide (s = a) = bool_decide (s = b)) as Hagree.
  { intros s a b r Ha Hb. by rewrite (Hinj a b r Ha Hb). }
  destruct (for_in_enable_each (λ c, bool_decide (s1 = c)) o w (Hagree s1))
    as (w1 & Hrun1 & Hreg1 & Hflags1).
  destruct (for_in_enable_each (λ c, bool_decide (s2 = c)) o w1 (Hagree s2))
    as (w2 & Hrun2 & Hreg2 & Hflags2).
  exists w1, w2.
  split. { unfold enableOnlyForState, mbind, M_bind, gets. rewrite Hwc. exact Hrun1. }
  split. { unfold enableOnlyForState, mbind, M_bind, gets. rewrite Hreg1, Hwc. exact Hrun2. }
  intros currState r Hr.
  rewrite (Hflags2 currState r Hr), (Hflags1 currState r Hr).
  apply map_set_enabled_over.
Qed.

(** X10.  [_findShortcut] returns [-1] exactly when no element of the
    array has a descriptor equal to the event.  Otherwise it returns the
    index of the first such element: the index is within the array, the
    element there matches, and no element before it does. *)
Theorem findShortcut_first_match (event : KeyEvent) (l : list Shortcut) :
  (_findShortcut event l = (-1)%Z ↔
   Forall (λ s, equals (eventStamp s) event = false) l) ∧
  (_findShortcut event l ≠ (-1)%Z →
   ∃ i s, _findShortcut event l = Z.of_nat i ∧ i < length l ∧
          l !! i = Some s ∧ equals (eventStamp s) event = true ∧
          ∀ j y, j < i → l !! j = Some y → equals (eventStamp y) event = false).
Proof.
  pose proof (findShortcut_spec event l) as Hspec.
  destruct (list_find _ l) as [[i s]|] eqn:Hfind.
  - apply list_find_Some in Hfind as (Hi & Hs & Hbefore). split.
    + split.
      * intros Hminus. rewrite Hspec in Hminus. lia.
      * intros Hnone. rewrite Forall_forall in Hnone.
        assert (s ∈ l) as Hin by (apply list_elem_of_lookup; eauto).
        by rewrite (Hnone s Hin) in Hs.
    + intros _. exists i, s. split; [exact Hspec|].
      split; [by eapply lookup_lt_Some|]. split; [exact Hi|]. split; [exact Hs|].
      intros j y Hj Hy. apply not_true_is_false. by apply (Hbefore j y Hy Hj).
  - apply list_find_None in Hfind. split; [|done].
    split; [intros _|done]. eapply Forall_impl; [exact Hfind|].
    intros s Hs. by apply not_true_is_false.
Qed.
End Flags.


(** ** More on [register] *)

Section RegisterMore.
Context {collaborators : Collaborators} {callbacks : Callbacks}.

Lemma register_string_under wc state accelerator cb w :
  (group_of w wc state = None → is_inherited state = false) →
  shortcuts_under (world_of (register_string (Some wc) state accelerator cb w)) wc state
  = shortcuts_under w wc state ++ pushed accelerator cb.
Proof.
  intros Hown.
  destruct (register_string_after wc state accelerator cb w Hown) as (Hgroup & Hitems & _).
  unfold shortcuts_under at 1. by rewrite Hgroup.
Qed.

Lemma register_string_ends wc state accelerator cb w :
  (group_of w wc state = None → is_inherited state = false) →
  register_string (Some wc) state accelerator cb w
  = ends_with_parser accelerator
      (world_of (register_string (Some wc) state accelerator cb w)).
Proof.
  intros Hown.
  destruct (register_string_spec wc state accelerator cb w Hown) as (w' & Hrun & _).
  rewrite Hrun. unfold ends_with_parser. by destruct (toKeyEvent accelerator).
Qed.

Lemma register_string_accepted wc state accelerator cb w ev :
  (group_of w wc state = None → is_inherited state = false) →
  toKeyEvent accelerator = Descriptor ev →
  ∃ w', register_string (Some wc) state accelerator cb w = Return tt w' ∧
    shortcuts_under w' wc state
    = shortcuts_under w wc state ++ [ {| eventStamp := ev; callback := cb; enabled := true |} ].
Proof.
  intros Hown Hparse.
  pose proof (register_string_ends wc state accelerator cb w Hown) as Hrun.
  pose proof (register_string_under wc state accelerator cb w Hown) as Hunder.
  unfold ends_with_parser in Hrun. unfold pushed in Hunder. rewrite Hparse in Hrun, Hunder.
  eauto.
Qed.

Lemma register_string_rejected wc state accelerator cb w e :
  (group_of w wc state = None → is_inherited state = false) →
  toKeyEvent accelerator = Rejected e →
  ∃ w', register_string (Some wc) state accelerator cb w = Raise e w' ∧
    shortcuts_under w' wc state = shortcuts_under w wc state.
Proof.
  intros Hown Hparse.
  pose proof (register_string_ends wc state accelerator cb w Hown) as Hrun.
  pose proof (register_string_under wc state accelerator cb w Hown) as Hunder.
  unfold ends_with_parser in Hrun. unfold pushed in Hunder. rewrite Hparse in Hrun, Hunder.
  rewrite app_nil_r in Hunder. eauto.
Qed.

(** X11.  [register] with a window and an array of accelerators, under a
    state name that is not the name of a member of [Object.prototype],
    registers the strings of the array one after the other, in the order
    of the array, and skips the elements that are not strings.  When the
    parser accepts every string, the call returns and the shortcuts of the
    window and state are the old ones followed by one enabled shortcut per
    string, all with the same callback.  When the parser throws for a
    string, the call throws the same exception there: the strings before
    it are registered and the ones after it are not. *)
Theorem register_array_appends_in_order (win : Window) (state : string)
    (cb : Callback) (w : World) :
  is_inherited state = false →
  (∀ l evs,
     Forall2 (λ a ev, toKeyEvent a = Descriptor ev) (omap id l) evs →
     ∃ w', register (Some win) state (AccArray l) cb w = Return tt w' ∧
       shortcuts_under w' (WebContents win) state
       = shortcuts_under w (WebContents win) state
         ++ map (λ ev, {| eventStamp := ev; callback := cb; enabled := true |}) evs) ∧
  (∀ pre a post evs e,
     Forall2 (λ a ev, toKeyEvent a = Descriptor ev) (omap id pre) evs →
     toKeyEvent a = Rejected e →
     ∃ w', register (Some win) state (AccArray (pre ++ Some a :: post)) cb w = Raise e w' ∧
       shortcuts_under w' (WebContents win) state
       = shortcuts_under w (WebContents win) state
         ++ map (λ ev, {| eventStamp := ev; callback := cb; enabled := true |}) evs).
Proof.
  intros Hin. split.
  - intros l. simpl. revert w. induction l as [|[a|] l IH]; intros w evs Hevs; simpl in *.
    + apply Forall2_nil_inv_l in Hevs as ->. exists w. split; [done|].
      by rewrite app_nil_r.
    + apply Forall2_cons_inv_l in Hevs as (ev & evs' & Hparse & Hevs & ->).
      destruct (register_string_accepted (WebContents win) state a cb w ev (λ _, Hin) Hparse)
        as (w1 & Hrun & Hunder).
      unfold mbind, M_bind. rewrite Hrun.
      destruct (IH w1 evs' Hevs) as (w' & Hrest & Hitems). exists w'. split; [exact Hrest|].
      rewrite Hitems, Hunder. simpl. by rewrite <- app_assoc.
    + unfold mbind, M_bind. simpl. by apply IH.
  - intros pre. revert w. simpl.
    induction pre as [|[b|] pre IH]; intros w a post evs e Hevs Hparse; simpl in *.
    + apply Forall2_nil_inv_l in Hevs as ->.
      destruct (register_string_rejected (WebContents win) state a cb w e (λ _, Hin) Hparse)
        as (w1 & Hrun & Hunder).
      unfold mbind, M_bind. rewrite Hrun. exists w1. split; [done|].
      simpl. by rewrite app_nil_r.
    + apply Forall2_cons_inv_l in Hevs as (ev & evs' & Hb & Hevs & ->).
      destruct (register_string_accepted (WebContents win) state b cb w ev (λ _, Hin) Hb)
        as (w1 & Hrun & Hunder).
      unfold mbind at 1, M_bind at 1. rewrite Hrun.
      destruct (IH w1 a post evs' e Hevs Hparse) as (w' & Hrest & Hitems).
      exists w'. split; [exact Hrest|].
      rewrite Hitems, Hunder. simpl. by rewrite <- app_assoc.
    + unfold mbind at 1, M_bind at 1. simpl. by apply IH.
Qed.

Lemma forEach_skip {A} (f : A → M unit) (pre : list A) x post w :
  Forall (λ y, ∀ w, f y w = Return tt w) pre →
  forEach f (pre ++ x :: post) w = (f x ;; forEach f post) w.
Proof.
  induction 1 as [|y pre Hy _ IH]; simpl; [done|].
  unfold mbind at 1, M_bind at 1. by rewrite Hy.
Qed.

(** X12.  The array forms without a window do not work.
    [register(accelerators, state, callback)] calls itself with the array
    in the place of the window and throws a [TypeError] at the first
    string of the array, when it stores the window's object under an
    [undefined] key; nothing has been registered by then.
    [unregister(accelerators, state)] throws at the first string too, when
    it calls [isDestroyed] on the array.  An array with no string is a
    no-op for both. *)
Theorem any_window_array_form_throws (state : string) (cb : Callback) (w : World)
    (pre post : list (option string)) (a : string) :
  Forall (λ x, x = None) pre →
  register None state (AccArray (pre ++ Some a :: post)) cb w
  = Raise (TypeError "Invalid value used as weak map key")
          (world_of (_checkAccelerator a w)) ∧
  unregister None state (AccArray (pre ++ Some a :: post)) w
  = Raise (TypeError "win.isDestroyed is not a function") w ∧
  register None state (AccArray pre) cb w = Return tt w ∧
  unregister None state (AccArray pre) w = Return tt w.
Proof.
  intros Hpre. split; [|split; [|split]].
  - simpl. rewrite forEach_skip.
    + unfold mbind, M_bind, register_string, mbind, M_bind.
      by rewrite checkAccelerator_returns.
    + eapply Forall_impl; [exact Hpre|]. by intros x ->.
  - simpl. rewrite forEach_skip; [done|].
    eapply Forall_impl; [exact Hpre|]. by intros x ->.
  - simpl. induction Hpre as [|x pre -> _ IH]; simpl; [done|].
    unfold mbind, M_bind. simpl. exact IH.
  - simpl. induction Hpre as [|x pre -> _ IH]; simpl; [done|].
    unfold mbind, M_bind. simpl. exact IH.
Qed.

(** X14.  A registered shortcut fires.  After [register], a key event
    that is not a key-release and whose normalized form the matcher
    accepts against the accelerator's descriptor makes the handler of the
    state's array call the new callback, and only it, provided no
    shortcut registered earlier under the same window and state is
    enabled and matches the event too (the earlier one would win). *)
Theorem registered_shortcut_fires (win : option Window) (state accelerator : string)
    (cb : Callback) (w w' : World) (input : Input) (ev : KeyEvent) :
  register win state (AccString accelerator) cb w = Return tt w' →
  input_type input ≠ "keyUp" →
  toKeyEvent accelerator = Descriptor ev →
  equals ev (_normalizeEvent input) = true →
  Forall (λ s, hits (_normalizeEvent input) s = false)
         (shortcuts_under w (key_of win) state) →
  ∃ r, group_of w' (key_of win) state = Some r ∧
       _onBeforeInput (OwnArray r) input w' = ([cb], run_callback cb w').
Proof.
  intros Hreg Hdown Hparse Hmatch Hearlier.
  assert (register_string (Some (key_of win)) state accelerator cb w = Return tt w') as Hrun.
  { by destruct win. }
  destruct (register_string_group _ _ _ _ _ _ Hrun) as (ev' & Hparse' & Hgroup & Hitems & _).
  rewrite Hparse in Hparse'. injection Hparse' as <-.
  exists (array_for w (key_of win) state). split; [exact Hgroup|].
  rewrite onBeforeInput_find, decide_False by done. rewrite Hitems.
  rewrite (find_first_hit _ _ _ [] Hearlier); [done|].
  unfold hits. simpl. exact Hmatch.
Qed.

(** X15.  What is registered is found: after [register] on a window,
    [isRegistered] with the same window, state and accelerator returns
    [true], provided the matcher accepts the accelerator's descriptor
    against itself. *)
Theorem isRegistered_after_register (win : Window) (state accelerator : string)
    (cb : Callback) (w w' : World) (ev : KeyEvent) :
  toKeyEvent accelerator = Descriptor ev →
  equals ev ev = true →
  register (Some win) state (AccString accelerator) cb w = Return tt w' →
  isRegistered win state accelerator w'
  = Return true (world_of (_checkAccelerator accelerator w')).
Proof.
  intros Hparse Hrefl Hrun. simpl in Hrun.
  destruct (register_string_group _ _ _ _ _ _ Hrun) as (ev' & Hparse' & Hgroup & Hitems & _).
  rewrite Hparse in Hparse'. injection Hparse' as <-.
  unfold group_of in Hgroup. rewrite isRegistered_cases. simpl.
  destruct (windowsWithShortcuts w' !! WebContents win) as [o|]; [|done].
  simpl in Hgroup. rewrite (read_state_own _ _ _ Hgroup), Hparse, Hitems, existsb_app.
  simpl. by rewrite Hrefl, orb_true_r.
Qed.

(** X17.  The validity check of [register] only warns.  Whichever way
    the call ends, the console has got one warning when [isAccelerator]
    refuses the accelerator, and nothing when it accepts it.  Whether
    the call returns is for the parser alone to decide: under a state name
    that is not the name of a member of [Object.prototype], [register]
    returns exactly when [toKeyEvent] accepts the accelerator, with or
    without a warning, and otherwise throws what [toKeyEvent] throws. *)
Theorem register_warns_and_proceeds (win : option Window) (state accelerator : string)
    (cb : Callback) (w : World) :
  console (world_of (register win state (AccString accelerator) cb w))
  = (if isAccelerator accelerator then console w else warning accelerator :: console w) ∧
  (is_inherited state = false →
   (∀ ev, toKeyEvent accelerator = Descriptor ev →
      ∃ w', register win state (AccString accelerator) cb w = Return tt w') ∧
   (∀ e, toKeyEvent accelerator = Rejected e →
      ∃ w', register win state (AccString accelerator) cb w = Raise e w')).
Proof.
  rewrite register_key_form. split.
  - destruct (register_string_host (key_of win) state accelerator cb w) as (_ & _ & ->).
    unfold _checkAccelerator. by destruct (isAccelerator accelerator).
  - intros Hin. split.
    + intros ev Hparse.
      destruct (register_string_accepted (key_of win) state accelerator cb w ev
                  (λ _, Hin) Hparse) as (w' & Hrun & _). eauto.
    + intros e Hparse.
      destruct (register_string_rejected (key_of win) state accelerator cb w e
                  (λ _, Hin) Hparse) as (w' & Hrun & _). eauto.
Qed.
End RegisterMore.

(** ** Other windows and other states *)

Section Isolation.
Context {collaborators : Collaborators}.

Lemma group_of_drop_other_state w wc state k s :
  ¬ (k = wc ∧ s = state) →
  group_of (with_registry (alter (delete state) wc) w) k s = group_of w k s.
Proof.
  intros Hks. unfold group_of. simpl. destruct (decide (k = wc)) as [->|Hk].
  - rewrite lookup_alter_eq. destruct (windowsWithShortcuts w !! wc) as [o|]; [|done].
    simpl. apply lookup_delete_ne. intros <-. by apply Hks.
  - by rewrite lookup_alter_ne.
Qed.

Lemma unregister_string_elsewhere wc state accelerator w k s :
  well_formed w → ¬ (k = wc ∧ s = state) →
  let w' := world_of (unregister_string wc state accelerator w) in
  group_of w' k s = group_of w k s ∧ shortcuts_under w' k s = shortcuts_under w k s.
Proof.
  intros Hwf Hks. simpl.
  assert (∀ w1, windowsWithShortcuts w1 = windowsWithShortcuts w → arrays w1 = arrays w →
            group_of w1 k s = group_of w k s ∧
            shortcuts_under w1 k s = shortcuts_under w k s) as Hsame.
  { intros w1 Hreg Harr. unfold shortcuts_under, group_of, shortcuts, read_array.
    by rewrite Hreg, Harr. }
  pose proof (Hsame _ (checkAccelerator_registry accelerator w)
                (checkAccelerator_arrays accelerator w)) as Hchecked.
  destruct (windowsWithShortcuts w !! wc) as [o|] eqn:Hwc.
  2: { by rewrite (unregister_string_no_object _ _ _ _ Hwc). }
  destruct (o !! state) as [r|] eqn:Hstate.
  2: { rewrite (unregister_string_no_array _ _ _ _ _ Hwc Hstate). simpl.
       destruct (is_inherited state); [|done]. by destruct (toKeyEvent accelerator). }
  rewrite (unregister_string_cases _ _ _ _ _ _ Hwc Hstate). simpl.
  destruct (toKeyEvent accelerator) as [ev|e]; [|done].
  set (w1 := world_of (_checkAccelerator accelerator w)) in *.
  assert (group_of w wc state = Some r) as Hgroup by (unfold group_of; by rewrite Hwc).
  destruct (Hwf _ _ _ Hgroup) as (_ & _ & Huniq).
  destruct (list_find _ (shortcuts w r)) as [[n x]|]; [|done].
  (* the world after the splice *)
  assert (group_of (write_items r (delete n) w1) k s = group_of w k s ∧
          shortcuts_under (write_items r (delete n) w1) k s = shortcuts_under w k s)
    as [Hg2 Hs2].
  { assert (group_of (write_items r (delete n) w1) k s = group_of w k s) as Hg.
    { unfold group_of. simpl. unfold w1. by rewrite checkAccelerator_registry. }
    split; [exact Hg|]. unfold shortcuts_under. rewrite Hg.
    destruct (group_of w k s) as [r'|] eqn:Hg'; [|done].
    assert (r ≠ r') as Hne.
    { intros <-. apply Hks. by apply Huniq. }
    rewrite shortcuts_write_items_ne by done. apply checkAccelerator_shortcuts. }
  case_decide; [destruct (removeListener (read_array w r)) as [t|]|]; simpl;
    [|done|done].
  set (w2 := write_items r (delete n) w1) in *.
  assert (group_of (with_registry (alter (delete state) wc) (run_teardown t w2)) k s
          = group_of w2 k s) as Hg3.
  { rewrite (group_of_drop_other_state _ _ _ _ _ Hks).
    unfold group_of. by rewrite run_teardown_registry. }
  split; [by rewrite Hg3|].
  rewrite <- Hs2. unfold shortcuts_under. rewrite Hg3.
  destruct (group_of w2 k s); [|done].
  unfold shortcuts, read_array. simpl. by rewrite run_teardown_arrays.
Qed.

Lemma register_string_elsewhere wc state accelerator cb w k s :
  well_formed w → ¬ (k = wc ∧ s = state) →
  let w' := world_of (register_string (Some wc) state accelerator cb w) in
  group_of w' k s = group_of w k s ∧ shortcuts_under w' k s = shortcuts_under w k s.
Proof.
  intros Hwf Hks. simpl.
  destruct (decide (group_of w wc state = None ∧ is_inherited state = true))
    as [[Hnone Hin]|Hown].
  - destruct (group_of_register_inherited wc state accelerator cb w k s Hnone Hin)
      as [Hg Harr].
    split; [exact Hg|]. unfold shortcuts_under, shortcuts, read_array. by rewrite Hg, Harr.
  - assert (group_of w wc state = None → is_inherited state = false) as Hown'.
    { intros Hnone. destruct (is_inherited state); [|done]. by destruct Hown. }
    pose proof (group_of_register wc state accelerator cb w k s Hown') as Hg.
    rewrite decide_False in Hg by done.
    destruct (register_string_after wc state accelerator cb w Hown') as (_ & _ & Hother).
    split; [exact Hg|]. unfold shortcuts_under. rewrite Hg.
    destruct (group_of w k s) as [r'|] eqn:Hg'; [|done].
    unfold shortcuts. rewrite Hother; [done|].
    intros ->. by apply Hks, (array_for_fresh w wc state k s).
Qed.

(** X13.  [register] and [unregister] with one accelerator string touch
    one window and one state: in a well-formed world the shortcuts stored
    under any other window, under [ANY_WINDOW] when a window is given, or
    under any other state of the same window are the same arrays with the
    same contents after the call. *)
Theorem register_unregister_leave_other_groups (win : option Window)
    (state accelerator : string) (cb : Callback) (w : World) (k : WeakKey) (s : string) :
  well_formed w →
  ¬ (k = key_of win ∧ s = state) →
  (group_of (world_of (register win state (AccString accelerator) cb w)) k s
   = group_of w k s ∧
   shortcuts_under (world_of (register win state (AccString accelerator) cb w)) k s
   = shortcuts_under w k s) ∧
  (group_of (world_of (unregister win state (AccString accelerator) w)) k s
   = group_of w k s ∧
   shortcuts_under (world_of (unregister win state (AccString accelerator) w)) k s
   = shortcuts_under w k s).
Proof.
  intros Hwf Hks. split.
  - rewrite register_key_form. by apply register_string_elsewhere.
  - destruct win as [v|]; simpl.
    + unfold unregister_on, mbind, M_bind, gets.
      destruct (bool_decide (v ∈ destroyed w)); [done|].
      by apply unregister_string_elsewhere.
    + by apply unregister_string_elsewhere.
Qed.

(** X18.  When [register] attaches a handler for a window, it also leaves
    a one-shot ['closed'] listener on the window.  Running that listener
    detaches the handler, so that the listeners of every window are as
    before the registration, but it leaves the registry and the arrays
    alone: the shortcuts of a closed window stay registered. *)
Theorem closed_hook_detaches_handler (win : Window) (state accelerator : string)
    (cb : Callback) (w w' : World) (ev : KeyEvent) :
  shortcuts_under w (WebContents win) state = [] →
  toKeyEvent accelerator = Descriptor ev →
  register (Some win) state (AccString accelerator) cb w = Return tt w' →
  let h := {| handler_id := nextHandler w;
              handler_array := OwnArray (array_for w (WebContents win) state) |} in
  let w'' := run_teardown (DetachFromWindow win h) w' in
  hooks_of w' win = hooks_of w win ++ [DetachFromWindow win h] ∧
  (∀ v, listeners_of w'' v = listeners_of w v) ∧
  windowsWithShortcuts w'' = windowsWithShortcuts w' ∧
  arrays w'' = arrays w' ∧
  shortcuts_under w'' (WebContents win) state
  = [ {| eventStamp := ev; callback := cb; enabled := true |} ].
Proof.
  intros Hempty Hparse Hrun h w''. simpl in Hrun.
  pose proof (register_string_returns_own _ _ _ _ _ _ Hrun) as Hown.
  destruct (register_string_spec (WebContents win) state accelerator cb w Hown)
    as (w1 & Hrun' & _ & _ & Hatt & _ & Hhooks).
  rewrite Hrun in Hrun'. unfold ends_with_parser in Hrun'. rewrite Hparse in Hrun'.
  injection Hrun' as <-.
  split.
  { rewrite (proj1 (Hhooks Hempty) win). by rewrite decide_True. }
  pose proof (register_string_host (WebContents win) state accelerator cb w) as (Hwins & _).
  rewrite Hrun in Hwins. simpl in Hwins.
  destruct (run_teardown_detaches (WebContents win) h w w' w' (Hatt Hempty)) as (Hls & _);
    [|done|done|].
  { rewrite Hwins. apply checkAccelerator_same_listeners. }
  split; [exact Hls|]. split; [done|]. split; [done|].
  pose proof (register_string_under (WebContents win) state accelerator cb w Hown) as Hunder.
  rewrite Hrun in Hunder. simpl in Hunder. unfold pushed in Hunder.
  rewrite Hparse, Hempty in Hunder. exact Hunder.
Qed.
End Isolation.

(** ** Calls of [register] that throw *)

Section ThrowingRegister.
Context {collaborators : Collaborators} {callbacks : Callbacks}.

Lemma same_host_destroyed w w' : same_host w w' → destroyed w' = destroyed w.
Proof. by intros (_ & ? & _). Qed.

(** X19.  A state name that is the name of a member of [Object.prototype]
    cannot be used.  [register] with such a name, on a window that holds
    no array under it, finds the member where it looks for the array: it
    makes no array and stores none, and throws a [TypeError] at [push]
    when the parser has accepted the accelerator.  Before that it has
    attached a key handler over the member when the member's [length] is
    0 (as for [toString]), and none otherwise (as for [constructor]);
    such a handler throws for every event that is not a key-release.
    Afterwards [isRegistered] and [unregister] with that name throw a
    [TypeError] too, from the loop of [_findShortcut]. *)
Theorem inherited_state_name_throws (win : Window) (state accelerator : string)
    (cb : Callback) (w : World) (ev : KeyEvent) :
  is_inherited state = true →
  group_of w (WebContents win) state = None →
  toKeyEvent accelerator = Descriptor ev →
  let h := {| handler_id := nextHandler w; handler_array := Inherited state |} in
  ∃ w',
    register (Some win) state (AccString accelerator) cb w
    = Raise (TypeError "shortcutsOfWindow.push is not a function") w' ∧
    (∀ k s, group_of w' k s = group_of w k s) ∧
    arrays w' = arrays w ∧
    (length_of w (Inherited state) = Some 0 →
       handler_attached (WebContents win) h w w' ∧
       ∀ input, input_type input ≠ "keyUp" →
         _onBeforeInput (handler_array h) input w'
         = ([], Raise (TypeError "shortcutsOfWindow is not iterable") w')) ∧
    (length_of w (Inherited state) ≠ Some 0 → listeners_unchanged w w') ∧
    isRegistered win state accelerator w'
    = Raise (TypeError "shortcutsOfWindow is not iterable")
            (world_of (_checkAccelerator accelerator w')) ∧
    (win ∉ destroyed w →
     unregister (Some win) state (AccString accelerator) w'
     = Raise (TypeError "shortcutsOfWindow is not iterable")
             (world_of (_checkAccelerator accelerator w'))).
Proof.
  intros Hin Hgroup Hparse h.
  destruct (register_string_inherited (WebContents win) state accelerator cb w Hgroup Hin)
    as (w' & Hrun & Hreg & Harr & Hzero & Hnot).
  rewrite Hparse in Hrun. exists w'. split; [exact Hrun|].
  pose proof (λ k s, proj1 (group_of_register_inherited (WebContents win) state accelerator
                              cb w k s Hgroup Hin)) as Hgroups.
  rewrite Hrun in Hgroups. simpl in Hgroups.
  assert (∃ o, windowsWithShortcuts w' !! WebContents win = Some o ∧ o !! state = None)
    as (o & Hwc & Hstate).
  { rewrite Hreg, lookup_insert_eq. eexists. split; [done|].
    unfold group_of in Hgroup. by destruct (windowsWithShortcuts w !! WebContents win). }
  split; [exact Hgroups|]. split; [exact Harr|]. split; [|split; [|split]].
  - intros Hlen. destruct (Hzero Hlen) as [Hatt _]. split; [exact Hatt|].
    intros input Hdown. unfold _onBeforeInput. by rewrite decide_False.
  - intros Hlen. by destruct (Hnot Hlen).
  - rewrite isRegistered_cases. simpl.
    by rewrite Hwc, (read_state_inherited _ _ Hstate Hin), Hparse.
  - intros Hlive. simpl. rewrite unregister_on_live.
    + rewrite (unregister_string_no_array _ _ _ _ _ Hwc Hstate). simpl.
      by rewrite Hin, Hparse.
    + pose proof (register_string_host (WebContents win) state accelerator cb w) as Hhost.
      simpl in Hrun. rewrite Hrun in Hhost. simpl in Hhost.
      rewrite (same_host_destroyed _ _ Hhost), checkAccelerator_destroyed. exact Hlive.
Qed.

(** X20.  A call of [register] that throws in the parser has already
    done half of its work.  On a window and state with no shortcut, the
    array of the state is stored, empty, and its key handler is attached;
    [isRegistered] then answers [false] for that state where it would
    have thrown before.  The next [register] with the same window and
    state finds the array empty and attaches a second handler over it, so
    that one key event matching the new shortcut calls its callback
    twice.  [unregister] detaches the second handler only: the first
    stays on the window. *)
Theorem rejected_accelerator_leaves_handler (win : Window) (state bad good : string)
    (cb cb' : Callback) (w : World) (e : Exception) (ev : KeyEvent) :
  is_inherited state = false →
  win ∉ destroyed w →
  shortcuts_under w (WebContents win) state = [] →
  toKeyEvent bad = Rejected e →
  toKeyEvent good = Descriptor ev →
  equals ev ev = true →
  let r := array_for w (WebContents win) state in
  let h0 := {| handler_id := nextHandler w; handler_array := OwnArray r |} in
  let h1 := {| handler_id := S (nextHandler w); handler_array := OwnArray r |} in
  ∃ w1 w2 w3,
    register (Some win) state (AccString bad) cb w = Raise e w1 ∧
    group_of w1 (WebContents win) state = Some r ∧
    shortcuts w1 r = [] ∧
    listeners_of w1 win = listeners_of w win ++ [h0] ∧
    isRegistered win state good w1
    = Return false (world_of (_checkAccelerator good w1)) ∧
    register (Some win) state (AccString good) cb' w1 = Return tt w2 ∧
    shortcuts w2 r = [ {| eventStamp := ev; callback := cb'; enabled := true |} ] ∧
    listeners_of w2 win = listeners_of w win ++ [h0; h1] ∧
    (∀ input, input_type input ≠ "keyUp" →
       equals ev (_normalizeEvent input) = true →
       (∀ w0, run_callback cb' w0 = Return tt w0) →
       call_listeners [h0; h1] input w2 = ([cb'; cb'], Return tt w2)) ∧
    unregister (Some win) state (AccString good) w2 = Return tt w3 ∧
    group_of w3 (WebContents win) state = None ∧
    listeners_of w3 win = listeners_of w win ++ [h0].
Proof.
  intros Hin Hlive Hempty Hbad Hgood Hrefl r h0 h1.
  (* the call that throws *)
  destruct (register_string_spec (WebContents win) state bad cb w (λ _, Hin))
    as (w1 & Hrun1 & Hreg1 & Harr1 & Hatt1 & _ & Hnext).
  unfold ends_with_parser, pushed in Hrun1, Harr1. rewrite Hbad in Hrun1, Harr1.
  fold r h0 in Harr1, Hatt1. rewrite Hempty in Harr1. rewrite decide_True in Harr1 by done.
  specialize (Hatt1 Hempty). destruct Hatt1 as (Hls1 & Hothers1 & _).
  destruct (Hnext Hempty) as [_ Hnext1]. clear Hnext.
  assert (group_of w1 (WebContents win) state = Some r) as Hgroup1.
  { unfold group_of. rewrite Hreg1, lookup_insert_eq. simpl. apply lookup_insert_eq. }
  assert (shortcuts w1 r = []) as Hitems1.
  { unfold shortcuts, read_array. by rewrite Harr1, lookup_insert_eq. }
  assert (windowsWithShortcuts w1 !! (WebContents win)
          = Some (<[state := r]> (default ∅ (windowsWithShortcuts w !! (WebContents win))))) as Hwc1.
  { by rewrite Hreg1, lookup_insert_eq. }
  (* the call that returns *)
  assert (array_for w1 (WebContents win) state = r) as Hr1 by (unfold array_for; by rewrite Hgroup1).
  assert (shortcuts_under w1 (WebContents win) state = []) as Hunder1.
  { unfold shortcuts_under. by rewrite Hgroup1. }
  destruct (register_string_spec (WebContents win) state good cb' w1 (λ _, Hin))
    as (w2 & Hrun2 & Hreg2 & Harr2 & Hatt2 & _ & _).
  unfold ends_with_parser, pushed in Hrun2, Harr2. rewrite Hgood in Hrun2, Harr2.
  rewrite Hr1 in Hreg2. rewrite Hr1, Hunder1, Hnext1 in Harr2, Hatt2. fold h1 in Harr2, Hatt2.
  rewrite decide_True in Harr2 by done.
  specialize (Hatt2 eq_refl). destruct Hatt2 as (Hls2 & Hothers2 & Happ2).
  assert (shortcuts w2 r = [ {| eventStamp := ev; callback := cb'; enabled := true |} ])
    as Hitems2.
  { unfold shortcuts, read_array. by rewrite Harr2, lookup_insert_eq. }
  assert (listeners_of w2 win = listeners_of w win ++ [h0; h1]) as Hls.
  { rewrite Hls2, Hls1. by rewrite <- app_assoc. }
  assert (windowsWithShortcuts w2 !! (WebContents win)
          = Some (<[state := r]> (default ∅ (windowsWithShortcuts w1 !! (WebContents win))))) as Hwc2.
  { by rewrite Hreg2, lookup_insert_eq. }
  (* the unregistration *)
  pose proof (register_string_host (WebContents win) state bad cb w) as Hhost1.
  pose proof (register_string_host (WebContents win) state good cb' w1) as Hhost2.
  rewrite Hrun1 in Hhost1. rewrite Hrun2 in Hhost2. simpl in Hhost1, Hhost2.
  assert (win ∉ destroyed w2) as Hlive2.
  { rewrite (same_host_destroyed _ _ Hhost2), checkAccelerator_destroyed.
    rewrite (same_host_destroyed _ _ Hhost1), checkAccelerator_destroyed. exact Hlive. }
  assert (unregister (Some win) state (AccString good) w2
          = Return tt (with_registry (alter (delete state) (WebContents win))
              (run_teardown (teardown_for (WebContents win) h1)
                 (write_items r (delete 0) (world_of (_checkAccelerator good w2))))))
    as Hrun3.
  { simpl. rewrite (unregister_on_live _ _ _ _ Hlive2).
    rewrite (unregister_string_cases _ _ _ _ _ r Hwc2) by apply lookup_insert_eq.
    simpl. rewrite Hgood, Hitems2. simpl. rewrite decide_True by exact Hrefl. simpl.
    unfold read_array. rewrite Harr2, lookup_insert_eq. done. }
  eexists w1, w2, _.
  split; [exact Hrun1|]. split; [exact Hgroup1|]. split; [exact Hitems1|].
  split; [exact Hls1|]. split.
  { rewrite isRegistered_cases. simpl.
    rewrite Hwc1, (read_state_own _ state r) by apply lookup_insert_eq.
    by rewrite Hgood, Hitems1. }
  split; [exact Hrun2|]. split; [exact Hitems2|]. split; [exact Hls|]. split.
  { intros input Hdown Hmatch Hidle. simpl.
    rewrite onBeforeInput_find, decide_False by done. rewrite Hitems2. simpl.
    unfold hits. simpl. rewrite Hmatch. simpl. rewrite Hidle.
    rewrite onBeforeInput_find, decide_False by done. rewrite Hitems2. simpl.
    unfold hits. simpl. rewrite Hmatch. simpl. by rewrite Hidle. }
  split; [exact Hrun3|]. split.
  - unfold group_of. simpl.
    change (windowsWithShortcuts (wc_removeListener win h1
              (write_items r (delete 0) (world_of (_checkAccelerator good w2)))))
      with (windowsWithShortcuts (world_of (_checkAccelerator good w2))).
    rewrite checkAccelerator_registry, lookup_alter_eq, Hwc2. simpl.
    apply lookup_delete_eq.
  - change (listeners_of (wc_removeListener win h1
              (write_items r (delete 0) (world_of (_checkAccelerator good w2)))) win
            = listeners_of w win ++ [h0]).
    rewrite listeners_of_wc_removeListener, decide_True by done.
    assert (listeners_of (write_items r (delete 0) (world_of (_checkAccelerator good w2))) win
            = listeners_of w2 win) as ->.
    { unfold listeners_of. simpl.
      by rewrite (proj1 (checkAccelerator_same_listeners good w2)). }
    rewrite Hls. change [h0; h1] with ([h0] ++ [h1]).
    by rewrite app_assoc, remove_last_snoc.
Qed.
End ThrowingRegister.
(** ** The statements at concrete worlds *)

Lemma onBeforeInput_first_enabled_match_witness :
  _onBeforeInput (collaborators := example_collaborators) (callbacks := idle_callbacks)
    (OwnArray 0) (keyUp "A" true) mixed_flags_world = ([], Return tt mixed_flags_world) ∧
  _onBeforeInput (collaborators := example_collaborators) (callbacks := idle_callbacks)
    (OwnArray 0) (keyDown "A" true) mixed_flags_world
  = ([callback shortcut_a12], Return tt mixed_flags_world) ∧
  _onBeforeInput (collaborators := example_collaborators) (callbacks := idle_callbacks)
    (OwnArray 0) (keyDown "C" true) mixed_flags_world = ([], Return tt mixed_flags_world).
Proof.
  split; [|split].
  - destruct (onBeforeInput_first_enabled_match
                (collaborators := example_collaborators) (callbacks := idle_callbacks)
                0 (keyUp "A" true) mixed_flags_world) as (Hup & _).
    apply Hup. reflexivity.
  - destruct (onBeforeInput_first_enabled_match
                (collaborators := example_collaborators) (callbacks := idle_callbacks)
                0 (keyDown "A" true) mixed_flags_world) as (_ & Hdown & _).
    destruct (Hdown ltac:(vm_compute; discriminate)) as [Hfirst _].
    refine (Hfirst [shortcut_a10_off; shortcut_b13] shortcut_a12 [] _ _ _ _).
    + vm_compute. reflexivity.
    + constructor; [left; reflexivity|].
      constructor; [right; vm_compute; reflexivity|]. constructor.
    + reflexivity.
    + vm_compute. reflexivity.
  - destruct (onBeforeInput_first_enabled_match
                (collaborators := example_collaborators) (callbacks := idle_callbacks)
                0 (keyDown "C" true) mixed_flags_world) as (_ & Hdown & _).
    destruct (Hdown ltac:(vm_compute; discriminate)) as [_ Hnone].
    apply Hnone. vm_compute.
    constructor; [left; reflexivity|].
    constructor; [right; reflexivity|].
    constructor; [right; reflexivity|]. constructor.
Defined.

(** C1, as the specification has it, fails for the event: window 1 holds
    [Ctrl+A] under ["normal"] and under ["edit"], each state has its own
    handler on the window, and one press of [Ctrl+A] calls both
    callbacks. *)
Lemma one_event_calls_two_callbacks :
  listeners_of same_key_world 1 = [handler_normal; handler_edit] ∧
  emit_before_input (collaborators := example_collaborators) (callbacks := idle_callbacks)
    1 (keyDown "A" true) same_key_world
  = ([10; 11], Return tt same_key_world).
Proof.
  split; [vm_compute; reflexivity|].
  unfold emit_before_input.
  replace (listeners_of same_key_world 1) with [handler_normal; handler_edit]
    by (vm_compute; reflexivity).
  cbn [call_listeners handler_array handler_normal handler_edit].
  rewrite !onBeforeInput_find. vm_compute. reflexivity.
Qed.

Lemma unregister_unknown_window_throws_witness :
  unregister (collaborators := example_collaborators)
    (Some 1) "normal" (AccString "Ctrl+A") (initial_world [1; 2])
  = Raise (TypeError "Cannot read properties of undefined") (initial_world [1; 2]).
Proof.
  refine (proj1 (unregister_unknown_window_throws (collaborators := example_collaborators)
                   1 "normal" "Ctrl+A" (initial_world [1; 2])) _ _).
  - apply not_elem_of_empty.
  - reflexivity.
Defined.

Lemma unregister_last_keeps_bucket_witness :
  ∃ w', unregister (collaborators := example_collaborators)
          (Some 1) "normal" (AccString "Ctrl+A") one_shortcut_world = Return tt w' ∧
        shortcuts w' 0 = [] ∧
        windowsWithShortcuts w' !! WebContents 1 = Some ∅.
Proof.
  refine (unregister_last_keeps_bucket (collaborators := example_collaborators)
            1 "normal" "Ctrl+A" one_shortcut_world 0 shortcut_a10
            (DetachFromWindow 1 handler_normal) (example_descriptor "Ctrl+A") _ _ _ _ _ _).
  - apply (bool_decide_unpack _). vm_compute. exact I.
  - vm_compute. reflexivity.
  - vm_compute. reflexivity.
  - vm_compute. reflexivity.
  - vm_compute. reflexivity.
  - vm_compute. reflexivity.
Defined.

(** C4, as the specification has it, fails: window 1 holds a shortcut
    under ["normal"], so its object is not empty, and registering under the
    new state ["edit"] still attaches a second key handler to the window. *)
Lemma register_second_state_installs_listener :
  shortcuts_under one_shortcut_world (WebContents 1) "normal" = [shortcut_a10] ∧
  listeners_of one_shortcut_world 1 = [handler_normal] ∧
  listeners_of (world_of (register (collaborators := example_collaborators)
                            (Some 1) "edit" (AccString "Ctrl+B") 11 one_shortcut_world)) 1
  = [handler_normal; handler_edit].
Proof. vm_compute. repeat split. Qed.

Lemma register_installs_listener_iff_group_empty_witness :
  (∃ w' r,
     register (collaborators := example_collaborators)
       (Some 1) "edit" (AccString "Ctrl+B") 11 one_shortcut_world = Return tt w' ∧
     group_of w' (WebContents 1) "edit" = Some r ∧
     handler_attached (WebContents 1) {| handler_id := 1; handler_array := OwnArray r |}
       one_shortcut_world w') ∧
  (∃ w' r,
     register (collaborators := example_collaborators)
       (Some 1) "edit" (AccString "Ctrl+Ctrl+B") 11 one_shortcut_world
     = Raise double_modifier w' ∧
     group_of w' (WebContents 1) "edit" = Some r ∧
     handler_attached (WebContents 1) {| handler_id := 1; handler_array := OwnArray r |}
       one_shortcut_world w') ∧
  (∃ w',
     register (collaborators := example_collaborators)
       (Some 1) "normal" (AccString "Ctrl+A") 12 two_state_world = Return tt w' ∧
     listeners_unchanged two_state_world w').
Proof.
  split; [|split].
  - destruct (register_installs_listener_iff_group_empty
                (collaborators := example_collaborators)
                (Some 1) "edit" "Ctrl+B" 11 one_shortcut_world eq_refl)
      as (w' & r & Hrun & Hgroup & Hatt & _).
    exists w', r. split; [exact Hrun|]. split; [exact Hgroup|].
    apply Hatt. vm_compute. reflexivity.
  - destruct (register_installs_listener_iff_group_empty
                (collaborators := example_collaborators)
                (Some 1) "edit" "Ctrl+Ctrl+B" 11 one_shortcut_world eq_refl)
      as (w' & r & Hrun & Hgroup & Hatt & _).
    exists w', r. split; [exact Hrun|]. split; [exact Hgroup|].
    apply Hatt. vm_compute. reflexivity.
  - destruct (register_installs_listener_iff_group_empty
                (collaborators := example_collaborators)
                (Some 1) "normal" "Ctrl+A" 12 two_state_world eq_refl)
      as (w' & r & Hrun & _ & _ & Hsame).
    exists w'. split; [exact Hrun|].
    apply Hsame. vm_compute. discriminate.
Defined.

Lemma onBeforeInput_scan_is_snapshot_witness :
  let dispatch := _onBeforeInput (collaborators := example_collaborators)
                    (callbacks := self_removing_callbacks) in
  let w' := world_of (snd (dispatch (OwnArray 0) (keyDown "A" true) example_world)) in
  fst (dispatch (OwnArray 0) (keyDown "A" true) example_world) = [10] ∧
  shortcuts w' 0 = delete 0 (shortcuts example_world 0) ∧
  (∀ r', r' ≠ 0 → shortcuts w' r' = shortcuts example_world r') ∧
  (∀ input', input_type input' ≠ "keyUp" →
     dispatch (OwnArray 0) input' w'
     = scan_snapshot (collaborators := example_collaborators)
         (callbacks := self_removing_callbacks)
         (_normalizeEvent input') (delete 0 (shortcuts example_world 0)) w').
Proof.
  refine (proj2 (onBeforeInput_scan_is_snapshot (collaborators := example_collaborators)
                   (callbacks := self_removing_callbacks))
            1 "normal" "Ctrl+A" example_world example_bucket 0 shortcut_a10
            (example_descriptor "Ctrl+A") 0 shortcut_a10
            (keyDown "A" true) _ _ _ _ _ _ _ _).
  - apply (bool_decide_unpack _). vm_compute. exact I.
  - vm_compute. reflexivity.
  - vm_compute. reflexivity.
  - vm_compute. discriminate.
  - vm_compute. reflexivity.
  - reflexivity.
  - vm_compute. reflexivity.
  - vm_compute. reflexivity.
Defined.

Lemma example_bucket_no_shared_array (s1 s2 : string) (r : Ref) :
  example_bucket !! s1 = Some r → example_bucket !! s2 = Some r → s1 = s2.
Proof.
  unfold example_bucket. intros H1 H2.
  apply lookup_insert_Some in H1 as [[<- <-]|[Hn1 H1]];
    apply lookup_insert_Some in H2 as [[<- Hr]|[Hn2 H2]]; try done.
  - apply lookup_insert_Some in H2 as [[<- Hr]|[_ H2]]; [done|].
    by rewrite lookup_empty in H2.
  - apply lookup_insert_Some in H1 as [[<- Hr']|[_ H1]]; [congruence|].
    by rewrite lookup_empty in H1.
  - apply lookup_insert_Some in H1 as [[<- <-]|[_ H1]];
      [|by rewrite lookup_empty in H1].
    apply lookup_insert_Some in H2 as [[<- _]|[_ H2]]; [done|].
    by rewrite lookup_empty in H2.
Defined.

Lemma enableOnlyForState_flags_witness :
  ∃ w', enableOnlyForState 1 "edit" example_world = Return tt w' ∧
    windowsWithShortcuts w' = windowsWithShortcuts example_world ∧
    (∀ currState r, example_bucket !! currState = Some r →
       shortcuts w' r
       = map (set_enabled (bool_decide ("edit" = currState))) (shortcuts example_world r) ∧
       Forall (λ s, enabled s = bool_decide ("edit" = currState)) (shortcuts w' r)) ∧
    (∀ currState r input, example_bucket !! currState = Some r → currState ≠ "edit" →
       _onBeforeInput (collaborators := example_collaborators) (callbacks := idle_callbacks)
         (OwnArray r) input w' = ([], Return tt w')).
Proof.
  refine (enableOnlyForState_flags (collaborators := example_collaborators)
            (callbacks := idle_callbacks) 1 "edit" example_world example_bucket _ _).
  - vm_compute. reflexivity.
  - exact example_bucket_no_shared_array.
Defined.



(** C8, as the specification has it, fails: for an accelerator that the
    parser rejects, [register] throws and the shortcuts of the window
    and state are as before; under the state name ["constructor"] it
    throws at [push] and no array is stored for the name. *)
Lemma register_throws_and_appends_nothing :
  (∃ w', register (collaborators := example_collaborators)
           (Some 1) "normal" (AccString "Ctrl+Ctrl+A") 12 one_shortcut_world
         = Raise double_modifier w' ∧
         shortcuts_under w' (WebContents 1) "normal" = [shortcut_a10]) ∧
  (∃ w', register (collaborators := example_collaborators)
           (Some 1) "constructor" (AccString "Ctrl+A") 12 one_shortcut_world
         = Raise (TypeError "shortcutsOfWindow.push is not a function") w' ∧
         group_of w' (WebContents 1) "constructor" = None).
Proof.
  split; eexists; (split; [vm_compute; reflexivity|vm_compute; reflexivity]).
Qed.

Lemma register_appends_enabled_entry_witness :
  (∃ w' r,
     register (collaborators := example_collaborators)
       (Some 1) "normal" (AccString "Ctrl+A") 12 two_state_world = Return tt w' ∧
     group_of w' (key_of (Some 1)) "normal" = Some r ∧
     shortcuts_under w' (key_of (Some 1)) "normal"
     = shortcuts_under two_state_world (key_of (Some 1)) "normal" ++ [shortcut_a12] ∧
     length (shortcuts_under w' (key_of (Some 1)) "normal")
     = S (length (shortcuts_under two_state_world (key_of (Some 1)) "normal")) ∧
     (∀ r', r' ≠ r → shortcuts w' r' = shortcuts two_state_world r')) ∧
  (∃ w',
     register (collaborators := example_collaborators)
       (Some 1) "normal" (AccString "Ctrl+Ctrl+A") 12 two_state_world
     = Raise double_modifier w' ∧
     shortcuts_under w' (key_of (Some 1)) "normal"
     = shortcuts_under two_state_world (key_of (Some 1)) "normal" ∧
     (∀ r', shortcuts w' r' = shortcuts two_state_world r')).
Proof.
  split.
  - refine (proj1 (register_appends_enabled_entry (collaborators := example_collaborators)
                     (Some 1) "normal" "Ctrl+A" 12 two_state_world _)
                  (example_descriptor "Ctrl+A") _).
    + reflexivity.
    + vm_compute. reflexivity.
  - refine (proj2 (register_appends_enabled_entry (collaborators := example_collaborators)
                     (Some 1) "normal" "Ctrl+Ctrl+A" 12 two_state_world _)
                  double_modifier _).
    + reflexivity.
    + vm_compute. reflexivity.
Defined.

Lemma flag_operations_noop_on_unknown_window_witness :
  disableAll 2 example_world = Return tt example_world ∧
  enableAll 2 example_world = Return tt example_world ∧
  enableOnlyForState 2 "edit" example_world = Return tt example_world.
Proof.
  refine (flag_operations_noop_on_unknown_window 2 "edit" example_world _).
  vm_compute. reflexivity.
Defined.

Lemma isRegistered_ignores_enabled_witness :
  (∃ w', isRegistered (collaborators := example_collaborators)
           1 "edit" "Ctrl+B" example_world = Return true w') ∧
  (∃ w1, disableAll 1 example_world = Return tt w1 ∧
     Forall (λ x, enabled x = false) (shortcuts w1 1) ∧
     (∃ w', isRegistered (collaborators := example_collaborators)
              1 "edit" "Ctrl+B" w1 = Return true w') ∧
     (∀ input, _onBeforeInput (collaborators := example_collaborators)
                 (callbacks := idle_callbacks) (OwnArray 1) input w1 = ([], Return tt w1))).
Proof.
  refine (isRegistered_ignores_enabled (collaborators := example_collaborators)
            (callbacks := idle_callbacks) 1 "edit" "Ctrl+B" example_world
            example_bucket 1 shortcut_b11 (example_descriptor "Ctrl+B") _ _ _ _ _).
  - vm_compute. reflexivity.
  - vm_compute. reflexivity.
  - vm_compute. apply elem_of_cons. by left.
  - vm_compute. reflexivity.
  - vm_compute. reflexivity.
Defined.
(** ** The further properties at concrete worlds *)

Lemma example_world_reachable :
  reachable (collaborators := example_collaborators) example_world.
Proof.
  unfold example_world, two_state_world, one_shortcut_world.
  repeat apply reachable_register. apply reachable_initial.
Defined.

Lemma example_world_well_formed : well_formed example_world.
Proof.
  exact (reachable_well_formed (collaborators := example_collaborators)
           example_world example_world_reachable).
Defined.

Lemma half_registered_world_reachable :
  reachable (collaborators := example_collaborators) half_registered_world.
Proof.
  unfold half_registered_world, one_shortcut_world.
  repeat apply reachable_register. apply reachable_initial.
Defined.

Lemma register_unregister_round_trip_witness :
  let h := {| handler_id := nextHandler one_shortcut_world;
              handler_array :=
                OwnArray (array_for one_shortcut_world (key_of (Some 1)) "edit") |} in
  ∃ w2, unregister (collaborators := example_collaborators)
          (Some 1) "edit" (AccString "Ctrl+B") two_state_world = Return tt w2 ∧
    shortcuts_under w2 (key_of (Some 1)) "edit"
    = shortcuts_under one_shortcut_world (key_of (Some 1)) "edit" ∧
    (∀ v, listeners_of w2 v = listeners_of one_shortcut_world v) ∧
    appListeners w2 = appListeners one_shortcut_world ∧
    is_Some (windowsWithShortcuts w2 !! key_of (Some 1)) ∧
    (shortcuts_under one_shortcut_world (key_of (Some 1)) "edit" = [] →
     closed_hooks_added (key_of (Some 1)) h one_shortcut_world w2) ∧
    (shortcuts_under one_shortcut_world (key_of (Some 1)) "edit" ≠ [] →
     closedHooks w2 = closedHooks one_shortcut_world).
Proof.
  refine (register_unregister_round_trip (collaborators := example_collaborators)
            (Some 1) "edit" "Ctrl+B" 11 one_shortcut_world two_state_world
            (example_descriptor "Ctrl+B") _ _ _ _ _).
  - intros v [= <-]. apply (bool_decide_unpack _). vm_compute. exact I.
  - vm_compute. reflexivity.
  - vm_compute. reflexivity.
  - vm_compute. constructor.
  - vm_compute. reflexivity.
Defined.

Lemma reachable_registry_invariant_witness :
  shortcuts half_registered_world 1 = [] ∧
  1 ∈ dom (arrays half_registered_world) ∧
  is_Some (removeListener (read_array half_registered_world 1)) ∧
  (∀ k' s', group_of half_registered_world k' s' = Some 1 →
            k' = WebContents 1 ∧ s' = "edit").
Proof.
  split; [vm_compute; reflexivity|].
  refine (reachable_registry_invariant (collaborators := example_collaborators)
            half_registered_world (WebContents 1) "edit" 1
            half_registered_world_reachable _).
  vm_compute. reflexivity.
Defined.

Lemma unregister_returns_when_window_known_witness :
  unregister (collaborators := example_collaborators)
    (Some 1) "other" (AccString "Ctrl+A") example_world
  = Return tt (world_of (_checkAccelerator (collaborators := example_collaborators)
                           "Ctrl+A" example_world)) ∧
  (∃ w', unregister (collaborators := example_collaborators)
           (Some 1) "normal" (AccString "Ctrl+A") example_world = Return tt w') ∧
  unregister (collaborators := example_collaborators)
    (Some 1) "normal" (AccString "Ctrl+Ctrl+A") example_world
  = Raise double_modifier
          (world_of (_checkAccelerator (collaborators := example_collaborators)
                       "Ctrl+Ctrl+A" example_world)) ∧
  unregister (collaborators := example_collaborators)
    (Some 1) "toString" (AccString "Ctrl+A") example_world
  = Raise (TypeError "shortcutsOfWindow is not iterable")
          (world_of (_checkAccelerator (collaborators := example_collaborators)
                       "Ctrl+A" example_world)) ∧
  (∃ w', unregister (collaborators := example_collaborators)
           (Some 1) "normal" (AccArray [Some "Ctrl+A"; None; Some "Ctrl+A"]) example_world
         = Return tt w').
Proof.
  assert (∀ v, Some 1 = Some v → v ∉ destroyed example_world) as Hlive.
  { intros v [= <-]. apply (bool_decide_unpack _). vm_compute. exact I. }
  assert (windowsWithShortcuts example_world !! key_of (Some 1) = Some example_bucket)
    as Hwc by (vm_compute; reflexivity).
  split; [|split; [|split; [|split]]].
  - refine (proj1 (unregister_returns_when_window_known
                     (collaborators := example_collaborators)
                     (Some 1) "other" "Ctrl+A" example_world example_bucket
                     example_world_well_formed Hlive Hwc) _ _).
    + vm_compute. reflexivity.
    + vm_compute. reflexivity.
  - refine (proj1 (proj2 (unregister_returns_when_window_known
                     (collaborators := example_collaborators)
                     (Some 1) "normal" "Ctrl+A" example_world example_bucket
                     example_world_well_formed Hlive Hwc))
                  0 (example_descriptor "Ctrl+A") _ _).
    + vm_compute. reflexivity.
    + vm_compute. reflexivity.
  - refine (proj1 (proj2 (proj2 (unregister_returns_when_window_known
                     (collaborators := example_collaborators)
                     (Some 1) "normal" "Ctrl+Ctrl+A" example_world example_bucket
                     example_world_well_formed Hlive Hwc)))
                  double_modifier _ _).
    + vm_compute. eauto.
    + vm_compute. reflexivity.
  - refine (proj1 (proj2 (proj2 (proj2 (unregister_returns_when_window_known
                     (collaborators := example_collaborators)
                     (Some 1) "toString" "Ctrl+A" example_world example_bucket
                     example_world_well_formed Hlive Hwc))))
                  (example_descriptor "Ctrl+A") _ _ _).
    + vm_compute. reflexivity.
    + vm_compute. reflexivity.
    + vm_compute. reflexivity.
  - refine (proj2 (proj2 (proj2 (proj2 (unregister_returns_when_window_known
                     (collaborators := example_collaborators)
                     (Some 1) "normal" "Ctrl+A" example_world example_bucket
                     example_world_well_formed Hlive Hwc))))
                  1 [Some "Ctrl+A"; None; Some "Ctrl+A"] eq_refl _ _).
    + vm_compute. reflexivity.
    + repeat constructor; by eexists.
Defined.

Lemma unregister_removes_first_match_witness :
  ∃ w', unregister (collaborators := example_collaborators)
          (Some 1) "normal" (AccString "Ctrl+A") example_world = Return tt w' ∧
    shortcuts w' 0 = [] ++ [shortcut_a12] ∧
    (∀ r', r' ≠ 0 → shortcuts w' r' = shortcuts example_world r') ∧
    group_of w' (key_of (Some 1)) "normal"
    = (if decide ([] ++ [shortcut_a12] = []) then None else Some 0).
Proof.
  refine (unregister_removes_first_match (collaborators := example_collaborators)
            (Some 1) "normal" "Ctrl+A" example_world example_bucket 0
            [] [shortcut_a12] shortcut_a10 (example_descriptor "Ctrl+A") _ _ _ _ _ _ _ _).
  - intros v [= <-]. apply (bool_decide_unpack _). vm_compute. exact I.
  - vm_compute. reflexivity.
  - vm_compute. reflexivity.
  - vm_compute. reflexivity.
  - vm_compute. reflexivity.
  - constructor.
  - vm_compute. reflexivity.
  - discriminate.
Defined.

Lemma unregister_without_effect_witness :
  unregister (collaborators := example_collaborators)
    (Some 1) "normal" (AccArray [Some "Ctrl+A"]) destroyed_world
  = Return tt destroyed_world ∧
  unregister (collaborators := example_collaborators)
    (Some 1) "other" (AccString "Ctrl+A") example_world = Return tt example_world ∧
  unregister (collaborators := example_collaborators)
    (Some 1) "edit" (AccString "Ctrl+A") example_world = Return tt example_world.
Proof.
  split; [|split].
  - refine (proj1 (unregister_without_effect (collaborators := example_collaborators)
                     1 "normal" destroyed_world) (AccArray [Some "Ctrl+A"]) _).
    apply (bool_decide_unpack _). vm_compute. exact I.
  - refine (proj2 (proj2 (unregister_without_effect (collaborators := example_collaborators)
                     1 "other" example_world) "Ctrl+A" example_bucket _ _ _) _).
    + apply (bool_decide_unpack _). vm_compute. exact I.
    + vm_compute. reflexivity.
    + vm_compute. reflexivity.
    + reflexivity.
  - refine (proj2 (proj2 (unregister_without_effect (collaborators := example_collaborators)
                     1 "edit" example_world) "Ctrl+A" example_bucket _ _ _) _).
    + apply (bool_decide_unpack _). vm_compute. exact I.
    + vm_compute. reflexivity.
    + exists (example_descriptor "Ctrl+A"). split; [reflexivity|].
      vm_compute. repeat constructor.
    + reflexivity.
Defined.

Lemma unregisterAll_removes_window_witness :
  ∃ w', unregisterAll 1 example_world = Return tt w' ∧
    windowsWithShortcuts w' = delete (WebContents 1) (windowsWithShortcuts example_world) ∧
    arrays w' = arrays example_world ∧
    ∀ state accelerator,
      isRegistered (collaborators := example_collaborators) 1 state accelerator w'
      = Raise (Error "No shortcuts registered for this window")
              (world_of (_checkAccelerator (collaborators := example_collaborators)
                           accelerator w')).
Proof.
  refine (unregisterAll_removes_window (collaborators := example_collaborators)
            1 example_world _).
  intros s r Hg.
  by destruct (example_world_well_formed (WebContents 1) s r Hg) as (_ & Htd & _).
Defined.

Lemma disableAll_enableAll_flags_witness :
  ∃ w_off w_on,
    disableAll 1 example_world = Return tt w_off ∧
    enableAll 1 example_world = Return tt w_on ∧
    windowsWithShortcuts w_off = windowsWithShortcuts example_world ∧
    windowsWithShortcuts w_on = windowsWithShortcuts example_world ∧
    (∀ s r, example_bucket !! s = Some r →
       shortcuts w_off r = map (set_enabled false) (shortcuts example_world r) ∧
       shortcuts w_on r = map (set_enabled true) (shortcuts example_world r)) ∧
    (∀ s r input, example_bucket !! s = Some r → input_type input ≠ "keyUp" →
       _onBeforeInput (collaborators := example_collaborators) (callbacks := idle_callbacks)
         (OwnArray r) input w_on
       = match find (λ x, example_equals (eventStamp x) (_normalizeEvent input))
                    (shortcuts example_world r) with
         | Some x => ([callback x], Return tt w_on)
         | None => ([], Return tt w_on)
         end).
Proof.
  refine (disableAll_enableAll_flags (collaborators := example_collaborators)
            (callbacks := idle_callbacks) 1 example_world example_bucket _).
  vm_compute. reflexivity.
Defined.

Lemma disableAll_enableAll_round_trip_witness :
  ∃ w1 w2,
    disableAll 1 example_world = Return tt w1 ∧
    enableAll 1 w1 = Return tt w2 ∧
    (∀ s r, example_bucket !! s = Some r →
       shortcuts w2 r = map (set_enabled true) (shortcuts example_world r) ∧
       (Forall (λ x, enabled x = true) (shortcuts example_world r) →
        shortcuts w2 r = shortcuts example_world r)).
Proof.
  refine (disableAll_enableAll_round_trip 1 example_world example_bucket _).
  vm_compute. reflexivity.
Defined.

Lemma enableOnlyForState_last_wins_witness :
  ∃ w1 w2,
    enableOnlyForState 1 "edit" example_world = Return tt w1 ∧
    enableOnlyForState 1 "normal" w1 = Return tt w2 ∧
    (∀ currState r, example_bucket !! currState = Some r →
       shortcuts w2 r
       = map (set_enabled (bool_decide ("normal" = currState))) (shortcuts example_world r)).
Proof.
  refine (enableOnlyForState_last_wins 1 "edit" "normal" example_world example_bucket _ _).
  - vm_compute. reflexivity.
  - exact example_bucket_no_shared_array.
Defined.

Lemma findShortcut_first_match_witness :
  ∃ i s, _findShortcut (collaborators := example_collaborators)
           (example_descriptor "Ctrl+A") [shortcut_b11; shortcut_a10; shortcut_a12]
         = Z.of_nat i ∧
         i < 3 ∧
         [shortcut_b11; shortcut_a10; shortcut_a12] !! i = Some s ∧
         example_equals (eventStamp s) (example_descriptor "Ctrl+A") = true ∧
         ∀ j y, j < i → [shortcut_b11; shortcut_a10; shortcut_a12] !! j = Some y →
                example_equals (eventStamp y) (example_descriptor "Ctrl+A") = false.
Proof.
  refine (proj2 (findShortcut_first_match (collaborators := example_collaborators)
                   (example_descriptor "Ctrl+A")
                   [shortcut_b11; shortcut_a10; shortcut_a12]) _).
  vm_compute. discriminate.
Defined.

Lemma register_array_appends_in_order_witness :
  (∃ w', register (collaborators := example_collaborators)
           (Some 1) "normal" (AccArray [Some "Ctrl+B"; None; Some "Ctrl+A"]) 12
           one_shortcut_world = Return tt w' ∧
     shortcuts_under w' (WebContents 1) "normal"
     = shortcuts_under one_shortcut_world (WebContents 1) "normal"
       ++ map (λ ev, {| eventStamp := ev; callback := 12; enabled := true |})
              [example_descriptor "Ctrl+B"; example_descriptor "Ctrl+A"]) ∧
  (∃ w', register (collaborators := example_collaborators)
           (Some 1) "normal"
           (AccArray ([Some "Ctrl+B"; None] ++ Some "Ctrl+Ctrl+A" :: [Some "Ctrl+A"])) 12
           one_shortcut_world = Raise double_modifier w' ∧
     shortcuts_under w' (WebContents 1) "normal"
     = shortcuts_under one_shortcut_world (WebContents 1) "normal"
       ++ map (λ ev, {| eventStamp := ev; callback := 12; enabled := true |})
              [example_descriptor "Ctrl+B"]).
Proof.
  split.
  - refine (proj1 (register_array_appends_in_order (collaborators := example_collaborators)
                     1 "normal" 12 one_shortcut_world eq_refl)
                  [Some "Ctrl+B"; None; Some "Ctrl+A"]
                  [example_descriptor "Ctrl+B"; example_descriptor "Ctrl+A"] _).
    repeat constructor.
  - refine (proj2 (register_array_appends_in_order (collaborators := example_collaborators)
                     1 "normal" 12 one_shortcut_world eq_refl)
                  [Some "Ctrl+B"; None] "Ctrl+Ctrl+A" [Some "Ctrl+A"]
                  [example_descriptor "Ctrl+B"] double_modifier _ _).
    + repeat constructor.
    + reflexivity.
Defined.

Lemma any_window_array_form_throws_witness :
  register (collaborators := example_collaborators)
    None "normal" (AccArray ([None] ++ Some "Ctrl+A" :: [Some "Ctrl+B"])) 10
    (initial_world [1; 2])
  = Raise (TypeError "Invalid value used as weak map key")
          (world_of (_checkAccelerator (collaborators := example_collaborators)
                       "Ctrl+A" (initial_world [1; 2]))) ∧
  unregister (collaborators := example_collaborators)
    None "normal" (AccArray ([None] ++ Some "Ctrl+A" :: [Some "Ctrl+B"]))
    (initial_world [1; 2])
  = Raise (TypeError "win.isDestroyed is not a function") (initial_world [1; 2]) ∧
  register (collaborators := example_collaborators)
    None "normal" (AccArray [None]) 10 (initial_world [1; 2])
  = Return tt (initial_world [1; 2]) ∧
  unregister (collaborators := example_collaborators)
    None "normal" (AccArray [None]) (initial_world [1; 2])
  = Return tt (initial_world [1; 2]).
Proof.
  refine (any_window_array_form_throws (collaborators := example_collaborators)
            "normal" 10 (initial_world [1; 2]) [None] [Some "Ctrl+B"] "Ctrl+A" _).
  repeat constructor.
Defined.

Lemma register_unregister_leave_other_groups_witness :
  (group_of (world_of (register (collaborators := example_collaborators)
                         (Some 1) "edit" (AccString "Ctrl+C") 14 example_world))
            (WebContents 1) "normal" = group_of example_world (WebContents 1) "normal" ∧
   shortcuts_under (world_of (register (collaborators := example_collaborators)
                                (Some 1) "edit" (AccString "Ctrl+C") 14 example_world))
                   (WebContents 1) "normal"
   = shortcuts_under example_world (WebContents 1) "normal") ∧
  (group_of (world_of (unregister (collaborators := example_collaborators)
                         (Some 1) "edit" (AccString "Ctrl+C") example_world))
            (WebContents 1) "normal" = group_of example_world (WebContents 1) "normal" ∧
   shortcuts_under (world_of (unregister (collaborators := example_collaborators)
                                (Some 1) "edit" (AccString "Ctrl+C") example_world))
                   (WebContents 1) "normal"
   = shortcuts_under example_world (WebContents 1) "normal").
Proof.
  refine (register_unregister_leave_other_groups (collaborators := example_collaborators)
            (Some 1) "edit" "Ctrl+C" 14 example_world (WebContents 1) "normal"
            example_world_well_formed _).
  intros [_ Hs]. discriminate Hs.
Defined.

Lemma registered_shortcut_fires_witness :
  ∃ r, group_of two_state_world (key_of (Some 1)) "edit" = Some r ∧
       _onBeforeInput (collaborators := example_collaborators) (callbacks := idle_callbacks)
         (OwnArray r) (keyDown "B" true) two_state_world = ([11], Return tt two_state_world).
Proof.
  refine (registered_shortcut_fires (collaborators := example_collaborators)
            (callbacks := idle_callbacks) (Some 1) "edit" "Ctrl+B" 11
            one_shortcut_world two_state_world (keyDown "B" true)
            (example_descriptor "Ctrl+B") _ _ _ _ _).
  - vm_compute. reflexivity.
  - vm_compute. discriminate.
  - vm_compute. reflexivity.
  - vm_compute. reflexivity.
  - vm_compute. constructor.
Defined.

Lemma isRegistered_after_register_witness :
  isRegistered (collaborators := example_collaborators) 1 "edit" "Ctrl+B" two_state_world
  = Return true (world_of (_checkAccelerator (collaborators := example_collaborators)
                             "Ctrl+B" two_state_world)).
Proof.
  refine (isRegistered_after_register (collaborators := example_collaborators)
            1 "edit" "Ctrl+B" 11 one_shortcut_world two_state_world
            (example_descriptor "Ctrl+B") _ _ _).
  - vm_compute. reflexivity.
  - vm_compute. reflexivity.
  - vm_compute. reflexivity.
Defined.

Lemma register_warns_and_proceeds_witness :
  (∃ w', register (collaborators := example_collaborators)
           (Some 1) "normal" (AccString "Ctrl+A") 10 (initial_world [1; 2])
         = Return tt w') ∧
  (∃ w', register (collaborators := example_collaborators)
           (Some 1) "normal" (AccString "Ctrl+Ctrl+A") 10 (initial_world [1; 2])
         = Raise double_modifier w').
Proof.
  split.
  - refine (proj1 (proj2 (register_warns_and_proceeds
                     (collaborators := example_collaborators)
                     (Some 1) "normal" "Ctrl+A" 10 (initial_world [1; 2])) _)
                  (example_descriptor "Ctrl+A") _).
    + reflexivity.
    + reflexivity.
  - refine (proj2 (proj2 (register_warns_and_proceeds
                     (collaborators := example_collaborators)
                     (Some 1) "normal" "Ctrl+Ctrl+A" 10 (initial_world [1; 2])) _)
                  double_modifier _).
    + reflexivity.
    + reflexivity.
Defined.

Lemma closed_hook_detaches_handler_witness :
  let h := {| handler_id := nextHandler one_shortcut_world;
              handler_array :=
                OwnArray (array_for one_shortcut_world (WebContents 1) "edit") |} in
  let w'' := run_teardown (DetachFromWindow 1 h) two_state_world in
  hooks_of two_state_world 1 = hooks_of one_shortcut_world 1 ++ [DetachFromWindow 1 h] ∧
  (∀ v, listeners_of w'' v = listeners_of one_shortcut_world v) ∧
  windowsWithShortcuts w'' = windowsWithShortcuts two_state_world ∧
  arrays w'' = arrays two_state_world ∧
  shortcuts_under w'' (WebContents 1) "edit"
  = [ {| eventStamp := example_descriptor "Ctrl+B"; callback := 11; enabled := true |} ].
Proof.
  refine (closed_hook_detaches_handler (collaborators := example_collaborators)
            1 "edit" "Ctrl+B" 11 one_shortcut_world two_state_world
            (example_descriptor "Ctrl+B") _ _ _).
  - vm_compute. reflexivity.
  - vm_compute. reflexivity.
  - vm_compute. reflexivity.
Defined.

Lemma inherited_state_name_throws_witness :
  (∃ w',
     register (collaborators := example_collaborators)
       (Some 1) "toString" (AccString "Ctrl+A") 10 (initial_world [1; 2])
     = Raise (TypeError "shortcutsOfWindow.push is not a function") w' ∧
     listeners_of w' 1 = [ {| handler_id := 0; handler_array := Inherited "toString" |} ] ∧
     isRegistered (collaborators := example_collaborators) 1 "toString" "Ctrl+A" w'
     = Raise (TypeError "shortcutsOfWindow is not iterable")
             (world_of (_checkAccelerator (collaborators := example_collaborators)
                          "Ctrl+A" w'))) ∧
  (∃ w',
     register (collaborators := example_collaborators)
       (Some 1) "constructor" (AccString "Ctrl+A") 10 (initial_world [1; 2])
     = Raise (TypeError "shortcutsOfWindow.push is not a function") w' ∧
     listeners_unchanged (initial_world [1; 2]) w').
Proof.
  split.
  - destruct (inherited_state_name_throws (collaborators := example_collaborators)
                (callbacks := idle_callbacks)
                1 "toString" "Ctrl+A" 10 (initial_world [1; 2])
                (example_descriptor "Ctrl+A") eq_refl eq_refl eq_refl)
      as (w' & Hrun & _ & _ & Hzero & _ & Hreg & _).
    exists w'. split; [exact Hrun|]. split; [|exact Hreg].
    destruct (Hzero eq_refl) as [(Hls & _) _]. exact Hls.
  - destruct (inherited_state_name_throws (collaborators := example_collaborators)
                (callbacks := idle_callbacks)
                1 "constructor" "Ctrl+A" 10 (initial_world [1; 2])
                (example_descriptor "Ctrl+A") eq_refl eq_refl eq_refl)
      as (w' & Hrun & _ & _ & _ & Hnot & _).
    exists w'. split; [exact Hrun|]. apply Hnot. vm_compute. discriminate.
Defined.

Lemma rejected_accelerator_leaves_handler_witness :
  ∃ w1 w2 w3,
    register (collaborators := example_collaborators)
      (Some 1) "normal" (AccString "Ctrl+Ctrl+A") 10 (initial_world [1; 2])
    = Raise double_modifier w1 ∧
    isRegistered (collaborators := example_collaborators) 1 "normal" "Ctrl+A" w1
    = Return false (world_of (_checkAccelerator (collaborators := example_collaborators)
                                "Ctrl+A" w1)) ∧
    register (collaborators := example_collaborators)
      (Some 1) "normal" (AccString "Ctrl+A") 11 w1 = Return tt w2 ∧
    call_listeners (collaborators := example_collaborators) (callbacks := idle_callbacks)
      [handler_normal; {| handler_id := 1; handler_array := OwnArray 0 |}]
      (keyDown "A" true) w2
    = ([11; 11], Return tt w2) ∧
    unregister (collaborators := example_collaborators)
      (Some 1) "normal" (AccString "Ctrl+A") w2 = Return tt w3 ∧
    listeners_of w3 1 = listeners_of (initial_world [1; 2]) 1 ++ [handler_normal].
Proof.
  destruct (rejected_accelerator_leaves_handler (collaborators := example_collaborators)
              (callbacks := idle_callbacks)
              1 "normal" "Ctrl+Ctrl+A" "Ctrl+A" 10 11 (initial_world [1; 2])
              double_modifier (example_descriptor "Ctrl+A"))
    as (w1 & w2 & w3 & Hrun1 & _ & _ & _ & Hreg & Hrun2 & _ & _ & Hfire & Hrun3 & _ & Hls).
  - reflexivity.
  - apply not_elem_of_empty.
  - reflexivity.
  - reflexivity.
  - reflexivity.
  - reflexivity.
  - exists w1, w2, w3. split; [exact Hrun1|]. split; [exact Hreg|]. split; [exact Hrun2|].
    split; [|split; [exact Hrun3|exact Hls]].
    apply Hfire; [discriminate|reflexivity|done].
Defined.
